(** * Gym attendance system: membership lifecycle and attendance status

    A shallow embedding of [www/js/storage.js] (the [StorageService]
    object), of the handlers of [www/js/attendance.js] and of the members
    service (registration, the list of members and the search), together
    with the parts of the ECMAScript [Date] and [String] objects these
    functions call.

    Conventions of the embedding.
    - A JS object read back from storage is a finite map from property names
      to JSON scalars ([gmap string value]); reading a property that is not
      there gives [None], which stands for [undefined].
    - A [Date] is its time value: milliseconds since the epoch, as a [Z].
      [new Date(v)] clips what it reads to the range ECMAScript allows
      (|t| <= 8.64e15, [TimeClip]).  The readings of the clock, and with
      them the timestamps the program writes and what [setDate] and
      [setHours] make of them, lie inside that range, where [TimeClip] is
      the identity.
    - Local time follows ECMA-262: the offset from UTC is a function of the
      instant, so a zone may change its offset (daylight saving), and a
      local day may last 23 or 25 hours.
    - A string is a sequence of characters with code points 0 to 255
      (ISO 8859-1), one per [ascii]: character 160 is the no-break space,
      character 201 the letter E with acute accent.  Text with characters
      above 255 lies outside the embedding.
    - A JS number that holds an integer is a [Z]; [NaN] is [None].  Integer
      arithmetic on doubles is exact below 2^53 ([MAX_SAFE_INTEGER]).
    - [localStorage] is a record with one field per key the program uses.
      [JSON.parse (JSON.stringify x)] is the identity on the values stored
      here, so the two array-valued keys hold the arrays themselves.
    - The wall clock is an explicit argument: each [new Date()] and each
      [Date.now()] of the source is a parameter of the embedded function. *)

From Stdlib Require Import ZArith Lia Ascii.
From stdpp Require Import gmap strings list fin_maps pretty.

Local Open Scope Z_scope.

(** ** JavaScript values *)

Module JS.

(** JSON scalars.  [VTime t] is the string [new Date(t).toISOString()]: the
    program writes every timestamp it stores through [toISOString], and
    [new Date(s)] on such a string gives back the time value [t].  [VStr]
    carries every other string. *)
Inductive value : Type :=
  | VNull
  | VBool (b : bool)
  | VNum (n : Z)
  | VStr (s : string)
  | VTime (t : Z).

#[global] Instance value_eq_dec : EqDecision value.
Proof. solve_decision. Defined.

(** Objects: property name to value. *)
Abbreviation obj := (gmap string value).

(** [ToBoolean] on a property read ([None] is [undefined]). *)
Definition ToBoolean (v : option value) : bool :=
  match v with
  | None => false
  | Some VNull => false
  | Some (VBool b) => b
  | Some (VNum n) => negb (n =? 0)
  | Some (VStr s) => negb (bool_decide (s = ""))
  | Some (VTime _) => true
  end.

(** *** Day number and time within day (ECMA-262, 21.4.1) *)

Definition msPerDay : Z := 86400000.
Definition msPerHour : Z := 3600000.
Definition msPerMinute : Z := 60000.
Definition msPerSecond : Z := 1000.

Definition Day (t : Z) : Z := t / msPerDay.
Definition TimeWithinDay (t : Z) : Z := t mod msPerDay.

Definition DaysInYear (y : Z) : Z :=
  if negb (y mod 4 =? 0) then 365
  else if negb (y mod 100 =? 0) then 366
  else if negb (y mod 400 =? 0) then 365
  else 366.

Definition DayFromYear (y : Z) : Z :=
  365 * (y - 1970) + (y - 1969) / 4 - (y - 1901) / 100 + (y - 1601) / 400.

Definition TimeFromYear (y : Z) : Z := msPerDay * DayFromYear y.

(** The largest [y] with [TimeFromYear y <= t]: the estimate from the mean
    length of a year is off by at most one. *)
Definition YearFromTime (t : Z) : Z :=
  let y0 := 1970 + (400 * Day t) / 146097 in
  if DayFromYear (y0 + 1) <=? Day t then y0 + 1
  else if DayFromYear y0 <=? Day t then y0
  else y0 - 1.

Definition InLeapYear (t : Z) : Z :=
  if DaysInYear (YearFromTime t) =? 366 then 1 else 0.

Definition DayWithinYear (t : Z) : Z := Day t - DayFromYear (YearFromTime t).

Definition MonthFromTime (t : Z) : Z :=
  let d := DayWithinYear t in
  let leap := InLeapYear t in
  if d <? 31 then 0
  else if d <? 59 + leap then 1
  else if d <? 90 + leap then 2
  else if d <? 120 + leap then 3
  else if d <? 151 + leap then 4
  else if d <? 181 + leap then 5
  else if d <? 212 + leap then 6
  else if d <? 243 + leap then 7
  else if d <? 273 + leap then 8
  else if d <? 304 + leap then 9
  else if d <? 334 + leap then 10
  else 11.

(** Days of the year before the first of month [m] (0 = January). *)
Definition DaysBeforeMonth (m leap : Z) : Z :=
  if m =? 0 then 0
  else if m =? 1 then 31
  else if m =? 2 then 59 + leap
  else if m =? 3 then 90 + leap
  else if m =? 4 then 120 + leap
  else if m =? 5 then 151 + leap
  else if m =? 6 then 181 + leap
  else if m =? 7 then 212 + leap
  else if m =? 8 then 243 + leap
  else if m =? 9 then 273 + leap
  else if m =? 10 then 304 + leap
  else 334 + leap.

Definition DateFromTime (t : Z) : Z :=
  DayWithinYear t - DaysBeforeMonth (MonthFromTime t) (InLeapYear t) + 1.

Definition WeekDay (t : Z) : Z := (Day t + 4) mod 7.

Definition MakeTime (hour min sec ms : Z) : Z :=
  hour * msPerHour + min * msPerMinute + sec * msPerSecond + ms.

(** [MakeDay]: the day number of the first of the month, plus [date - 1];
    months outside 0..11 carry into the year. *)
Definition MakeDay (year month date : Z) : Z :=
  let ym := year + month / 12 in
  let mn := month mod 12 in
  let leap := if DaysInYear ym =? 366 then 1 else 0 in
  DayFromYear ym + DaysBeforeMonth mn leap + date - 1.

Definition MakeDate (day time : Z) : Z := day * msPerDay + time.

(** [TimeClip]: a time value outside the range of [Date] is [NaN]. *)
Definition maxTime : Z := 8640000000000000.

Definition TimeClip (t : Z) : option Z :=
  if Z.abs t <=? maxTime then Some t else None.

(** *** Local time (ECMA-262, 21.4.1.25 to 21.4.1.27) *)

(** What the host supplies.  [LocalTZA t isUTC] is the offset of local time
    from UTC in milliseconds: with [isUTC = true] the offset in effect at
    the instant [t], with [isUTC = false] the offset under which the local
    time [t] is read, which is the offset of before the change when a clock
    change repeats or skips [t].  [Date_parse] is the implementation-defined
    fallback of [Date.parse] on strings that [toISOString] did not produce
    ([None] is [NaN]), [toLocaleDateString] the locale's rendering of a
    date.

    The three laws are what the statements below use of a time zone: its
    offsets lie less than a day apart, the local calendar day never goes
    back as time advances (no clock is set back across midnight), and a
    local time, read as an instant, falls on its own calendar day (no
    clock is set forward across midnight). *)
Class Host := {
  LocalTZA : Z → bool → Z;
  Date_parse : string → option Z;
  toLocaleDateString : Z → string;
  LocalTZA_bounded :
    ∀ t1 b1 t2 b2, Z.abs (LocalTZA t1 b1 - LocalTZA t2 b2) < msPerDay;
  LocalDay_mono :
    ∀ t1 t2, t1 <= t2 →
      Day (t1 + LocalTZA t1 true) <= Day (t2 + LocalTZA t2 true);
  LocalDay_UTC :
    ∀ t, Day (t - LocalTZA t false + LocalTZA (t - LocalTZA t false) true)
         = Day t
}.

Definition LocalTime `{Host} (t : Z) : Z := t + LocalTZA t true.
Definition UTC `{Host} (t : Z) : Z := t - LocalTZA t false.

(** A zone that keeps one offset meets the laws. *)
Lemma fixedOffset_bounded (offset : Z) (t1 : Z) (b1 : bool) (t2 : Z)
    (b2 : bool) :
  Z.abs (offset - offset) < msPerDay.
Proof. unfold msPerDay. lia. Qed.

Lemma fixedOffset_mono (offset t1 t2 : Z) :
  t1 <= t2 → Day (t1 + offset) <= Day (t2 + offset).
Proof. intros Hle. unfold Day, msPerDay. apply Z.div_le_mono; lia. Qed.

Lemma fixedOffset_UTC (offset t : Z) : Day (t - offset + offset) = Day t.
Proof. f_equal. lia. Qed.

Definition fixedOffsetHost (offset : Z) (parse : string → option Z)
    (render : Z → string) : Host :=
  {| LocalTZA := λ _ _, offset;
     Date_parse := parse;
     toLocaleDateString := render;
     LocalTZA_bounded := fixedOffset_bounded offset;
     LocalDay_mono := fixedOffset_mono offset;
     LocalDay_UTC := fixedOffset_UTC offset |}.

(** *** The [Date] methods the program calls, on time values *)

(** [d.getDate()] *)
Definition getDate `{Host} (t : Z) : Z := DateFromTime (LocalTime t).

(** [d.setDate(date)]: the new time value of [d].  The local time of day
    is kept and read back as an instant under the offset of the new date.
    (The result stays inside the range of [Date], see the conventions.) *)
Definition setDate `{Host} (t : Z) (date : Z) : Z :=
  let lt := LocalTime t in
  let newDate :=
    MakeDate (MakeDay (YearFromTime lt) (MonthFromTime lt) date)
             (TimeWithinDay lt) in
  UTC newDate.

(** [d.setHours(hour, min, sec, ms)]: the new time value of [d], the
    given time of the local day of [d] read back as an instant.  (The
    result stays inside the range of [Date], see the conventions.) *)
Definition setHours `{Host} (t : Z) (hour min sec ms : Z) : Z :=
  let lt := LocalTime t in
  UTC (MakeDate (Day lt) (MakeTime hour min sec ms)).

(** [d.toDateString()] prints week day, month, day of the month and year
    of the local time; the text is determined by, and determines, these
    four fields. *)
Record DateString := {
  ds_weekday : Z;
  ds_month : Z;
  ds_date : Z;
  ds_year : Z
}.

#[global] Instance DateString_eq_dec : EqDecision DateString.
Proof. solve_decision. Defined.

Definition toDateString `{Host} (t : Z) : DateString :=
  let lt := LocalTime t in
  {| ds_weekday := WeekDay lt;
     ds_month := MonthFromTime lt;
     ds_date := DateFromTime lt;
     ds_year := YearFromTime lt |}.

(** [new Date(v)] for a property value [v]: a string is parsed, anything
    else goes through [ToNumber], and the number read is clipped to the
    range of [Date].  [None] is the invalid date.  [VTime t] is the string
    a valid date printed, which reads back as [t]. *)
Definition Date_of_value `{Host} (v : option value) : option Z :=
  match v with
  | None => None
  | Some VNull => Some 0
  | Some (VBool b) => Some (if b then 1 else 0)
  | Some (VNum n) => TimeClip n
  | Some (VStr s) => Date_parse s ≫= TimeClip
  | Some (VTime t) => Some t
  end.

(** [Math.ceil (a / b)] for integers [a] and [b > 0]. *)
Definition Math_ceil_div (a b : Z) : Z := - ((- a) / b).

(** *** Strings and numbers *)

(** White space and line terminators ([StrWhiteSpaceChar]): of the
    characters up to 255 these are tab, line feed, vertical tab, form
    feed, carriage return, space and the no-break space U+00A0.  (The
    others, U+1680, U+2000 to U+200A, U+2028, U+2029, U+202F, U+205F,
    U+3000 and U+FEFF, lie above 255.) *)
Definition is_StrWhiteSpaceChar (c : ascii) : bool :=
  let n := Z.of_N (Ascii.N_of_ascii c) in
  ((9 <=? n) && (n <=? 13)) || (n =? 32) || (n =? 160).

Fixpoint skip_white_space (s : string) : string :=
  match s with
  | String c r => if is_StrWhiteSpaceChar c then skip_white_space r else s
  | EmptyString => s
  end.

(** [s.trim()] *)
Definition trim (s : string) : string :=
  String.rev (skip_white_space (String.rev (skip_white_space s))).

(** The value of a character as a digit, for radices up to 36. *)
Definition digit_value (c : ascii) : option Z :=
  let n := Z.of_N (Ascii.N_of_ascii c) in
  if (48 <=? n) && (n <=? 57) then Some (n - 48)
  else if (97 <=? n) && (n <=? 122) then Some (n - 87)
  else if (65 <=? n) && (n <=? 90) then Some (n - 55)
  else None.

(** Reads the longest prefix of radix-[R] digits, continuing from [acc]. *)
Fixpoint parse_digits (R : Z) (s : string) (acc : Z) : Z :=
  match s with
  | String c r =>
      match digit_value c with
      | Some d => if d <? R then parse_digits R r (acc * R + d) else acc
      | None => acc
      end
  | EmptyString => acc
  end.

(** [parseInt] after the sign: a [0x] prefix selects radix 16, then comes
    the longest run of digits; [NaN] when there is no digit. *)
Definition parseInt_magnitude (s : string) : option Z :=
  let '(R, s3) :=
    match s with
    | String "0"%char (String "x"%char r) => (16, r)
    | String "0"%char (String "X"%char r) => (16, r)
    | _ => (10, s)
    end in
  match s3 with
  | String c _ =>
      match digit_value c with
      | Some d => if d <? R then Some (parse_digits R s3 0) else None
      | None => None
      end
  | EmptyString => None
  end.

(** [parseInt(s)] with no radix argument: leading white space and a sign
    come off first. *)
Definition parseInt (s : string) : option Z :=
  let s1 := skip_white_space s in
  match s1 with
  | String "-"%char r => Z.opp <$> parseInt_magnitude r
  | String "+"%char r => parseInt_magnitude r
  | _ => parseInt_magnitude s1
  end.

(** [n.toString()] for an integer or [NaN]. *)
Definition Number_toString (n : option Z) : string :=
  match n with
  | Some z => pretty z
  | None => "NaN"
  end.

(** [n++] on a number read as above; exact while the integer is safe. *)
Definition MAX_SAFE_INTEGER : Z := 2 ^ 53 - 1.
Definition increment (n : option Z) : option Z := (λ z, z + 1) <$> n.

End JS.

(** ** storage.js: the [StorageService] object *)

Module StorageService.
Import JS.

(** [localStorage], restricted to the three keys of [StorageService.KEYS].
    [None] is a key that was never set ([getItem] returns [null]). *)
Record LocalStorage := {
  gym_members : option (list obj);       (* KEYS.MEMBERS, a JSON array *)
  gym_attendance : option (list obj);    (* KEYS.ATTENDANCE, a JSON array *)
  member_id_counter : option string      (* KEYS.COUNTER *)
}.

Definition setItem_MEMBERS (members : list obj) (ls : LocalStorage)
  : LocalStorage :=
  {| gym_members := Some members;
     gym_attendance := gym_attendance ls;
     member_id_counter := member_id_counter ls |}.

Definition setItem_ATTENDANCE (records : list obj) (ls : LocalStorage)
  : LocalStorage :=
  {| gym_members := gym_members ls;
     gym_attendance := Some records;
     member_id_counter := member_id_counter ls |}.

Definition setItem_COUNTER (s : string) (ls : LocalStorage) : LocalStorage :=
  {| gym_members := gym_members ls;
     gym_attendance := gym_attendance ls;
     member_id_counter := Some s |}.

(** [init]: each key gets its default unless it is already set. *)
Definition init (ls : LocalStorage) : LocalStorage :=
  let ls1 :=
    match gym_members ls with
    | Some _ => ls
    | None => setItem_MEMBERS [] ls
    end in
  let ls2 :=
    match gym_attendance ls1 with
    | Some _ => ls1
    | None => setItem_ATTENDANCE [] ls1
    end in
  match member_id_counter ls2 with
  | Some s => if bool_decide (s = "") then setItem_COUNTER "1000" ls2 else ls2
  | None => setItem_COUNTER "1000" ls2
  end.

(** [JSON.parse(localStorage.getItem(KEYS.MEMBERS) || '[]')] *)
Definition getMembers (ls : LocalStorage) : list obj :=
  default [] (gym_members ls).

Definition saveMembers (members : list obj) (ls : LocalStorage)
  : LocalStorage :=
  setItem_MEMBERS members ls.

(** [member.id === id], for the string [id] the callers pass. *)
Definition has_id (id : string) (member : obj) : Prop :=
  member !! "id" = Some (VStr id).

#[global] Instance has_id_dec id member : Decision (has_id id member).
Proof. unfold has_id. apply _. Defined.

(** [members.find(member => member.id === id) || null] *)
Definition getMemberById (id : string) (ls : LocalStorage) : option obj :=
  snd <$> list_find (has_id id) (getMembers ls).

(** [generateMemberId]: the new id and the storage after the call. *)
Definition generateMemberId (ls : LocalStorage) : string * LocalStorage :=
  let item :=
    match member_id_counter ls with
    | Some s => if bool_decide (s = "") then "1000" else s
    | None => "1000"
    end in
  let counter := parseInt item in
  let counter := increment counter in
  (Number_toString counter, setItem_COUNTER (Number_toString counter) ls).

(** [{ ...member, id, registrationDate, lastCheckIn, lastCheckOut }] *)
Definition newMember_of (member : obj) (newId : string) (now : Z) : obj :=
  <["lastCheckOut" := VNull]>
    (<["lastCheckIn" := VNull]>
       (<["registrationDate" := VTime now]>
          (<["id" := VStr newId]> member))).

(** [addMember(member)]; [now] is the [new Date()] of the registration
    date.  Returns the new record and the storage after the call. *)
Definition addMember (member : obj) (now : Z) (ls : LocalStorage)
  : obj * LocalStorage :=
  let members := getMembers ls in
  let '(newId, ls1) := generateMemberId ls in
  let newMember := newMember_of member newId now in
  let members := members ++ [newMember] in
  (newMember, saveMembers members ls1).

(** [updateMember(id, updates)]: [{ ...members[index], ...updates }] is the
    union that prefers [updates]. *)
Definition updateMember (id : string) (updates : obj) (ls : LocalStorage)
  : option obj * LocalStorage :=
  let members := getMembers ls in
  match list_find (has_id id) members with
  | None => (None, ls)
  | Some (index, old) =>
      let merged := updates ∪ old in
      let members := <[index := merged]> members in
      (Some merged, saveMembers members ls)
  end.

(** [deleteMember(id)] *)
Definition deleteMember (id : string) (ls : LocalStorage)
  : bool * LocalStorage :=
  let members := getMembers ls in
  let initialLength := length members in
  let filteredMembers := filter (λ member, ¬ has_id id member) members in
  if bool_decide (length filteredMembers = initialLength) then (false, ls)
  else (true, saveMembers filteredMembers ls).

Definition getAttendance (ls : LocalStorage) : list obj :=
  default [] (gym_attendance ls).

Definition saveAttendance (records : list obj) (ls : LocalStorage)
  : LocalStorage :=
  setItem_ATTENDANCE records ls.

(** [getMemberAttendance(memberId)] *)
Definition getMemberAttendance (memberId : string) (ls : LocalStorage)
  : list obj :=
  filter (λ record : obj, record !! "memberId" = Some (VStr memberId))
         (getAttendance ls).

(** The attendance record both transitions build; [now] is the [new Date()]
    and [stamp] the later [Date.now()] that makes the record id. *)
Definition attendanceRecord `{Host} (type memberId : string) (now stamp : Z)
  : obj :=
  {[ "id" := VStr (Number_toString (Some stamp));
     "memberId" := VStr memberId;
     "type" := VStr type;
     "timestamp" := VTime now;
     "date" := VStr (toLocaleDateString now) ]}.

(** [checkIn(memberId)]: the record ([None] is [null]) and the storage. *)
Definition checkIn `{Host} (memberId : string) (now stamp : Z)
    (ls : LocalStorage) : option obj * LocalStorage :=
  match getMemberById memberId ls with
  | None => (None, ls)
  | Some member =>
      let checkInRecord := attendanceRecord "check-in" memberId now stamp in
      let '(_, ls1) :=
        updateMember memberId
          {[ "lastCheckIn" := VTime now; "lastCheckOut" := VNull ]} ls in
      let records := getAttendance ls1 in
      let records := records ++ [checkInRecord] in
      (Some checkInRecord, saveAttendance records ls1)
  end.

(** [checkOut(memberId)] *)
Definition checkOut `{Host} (memberId : string) (now stamp : Z)
    (ls : LocalStorage) : option obj * LocalStorage :=
  match getMemberById memberId ls with
  | None => (None, ls)
  | Some member =>
      let checkOutRecord := attendanceRecord "check-out" memberId now stamp in
      let '(_, ls1) :=
        updateMember memberId {[ "lastCheckOut" := VTime now ]} ls in
      let records := getAttendance ls1 in
      let records := records ++ [checkOutRecord] in
      (Some checkOutRecord, saveAttendance records ls1)
  end.

(** [calculateDaysRemaining(member)]; [now] is the [new Date()] read for
    [today].  [None] is [NaN], which [Math.max] and [Math.ceil] pass on. *)
Definition calculateDaysRemaining `{Host} (member : option obj) (now : Z)
  : option Z :=
  match member with
  | None => Some 0
  | Some m =>
      if negb (ToBoolean (m !! "membershipEndDate")) then Some 0
      else
        let today := setHours now 0 0 0 0 in
        match Date_of_value (m !! "membershipEndDate") with
        | None => None
        | Some endDate =>
            let endDate := setHours endDate 0 0 0 0 in
            let diffTime := endDate - today in
            let diffDays := Math_ceil_div diffTime (1000 * 60 * 60 * 24) in
            Some (Z.max 0 diffDays)
        end
  end.

(** [getMemberStatus(member)]; [now] is the [new Date()] read for [today].
    An invalid date prints as ["Invalid Date"], which no valid date does. *)
Definition getMemberStatus `{Host} (member : option obj) (now : Z) : string :=
  match member with
  | None => "not-checked-in"
  | Some m =>
      if ToBoolean (m !! "lastCheckIn") && negb (ToBoolean (m !! "lastCheckOut"))
      then "checked-in"
      else if ToBoolean (m !! "lastCheckOut") then
        match Date_of_value (m !! "lastCheckOut") with
        | Some lastCheckOut =>
            if bool_decide (toDateString lastCheckOut = toDateString now)
            then "checked-out"
            else "not-checked-in"
        | None => "not-checked-in"
        end
      else "not-checked-in"
  end.

End StorageService.

(** ** The members service: registration *)

Module MembersService.
Import JS.

(** What [handleRegistration] reads from the page: the four form fields,
    and the data URL the file reader delivers when a photo was chosen. *)
Record RegistrationForm := {
  new_name : string;
  new_email : string;
  new_phone : string;
  membership_type : string;
  member_photo : option string
}.

(** [createMember(name, email, phone, membershipType, startDate, endDate,
    photoData)]; [regNow] is the clock read inside [addMember].  The
    notification and the refresh of the list are display only. *)
Definition createMember (name email phone membershipType : string)
    (startDate endDate : Z) (photoData : option string) (regNow : Z)
    (ls : StorageService.LocalStorage) : obj * StorageService.LocalStorage :=
  let photo :=
    match photoData with
    | Some d => if bool_decide (d = "") then "img/default-profile.png" else d
    | None => "img/default-profile.png"
    end in
  let newMember : obj :=
    {[ "name" := VStr name;
       "email" := VStr email;
       "phone" := VStr phone;
       "membershipType" := VStr membershipType;
       "membershipStartDate" := VTime startDate;
       "membershipEndDate" := VTime endDate;
       "photo" := VStr photo ]} in
  StorageService.addMember newMember regNow ls.

(** The [switch] on the membership type: the end date from a copy of the
    start date. *)
Definition membershipEndDate `{Host} (membershipType : string) (startDate : Z)
  : Z :=
  let endDate := startDate in
  if bool_decide (membershipType = "monthly") then
    setDate endDate (getDate endDate + 30)
  else if bool_decide (membershipType = "quarterly") then
    setDate endDate (getDate endDate + 90)
  else if bool_decide (membershipType = "halfyearly") then
    setDate endDate (getDate endDate + 180)
  else if bool_decide (membershipType = "annual") then
    setDate endDate (getDate endDate + 365)
  else
    setDate endDate (getDate endDate + 30).

(** [handleRegistration(event)]; [now] is the [new Date()] of the start
    date.  [None] is the early return after the error notification. *)
Definition handleRegistration `{Host} (form : RegistrationForm)
    (now regNow : Z) (ls : StorageService.LocalStorage)
  : option obj * StorageService.LocalStorage :=
  let name := trim (new_name form) in
  let email := trim (new_email form) in
  let phone := trim (new_phone form) in
  let membershipType := membership_type form in
  if bool_decide (name = "") || bool_decide (email = "")
     || bool_decide (phone = "") || bool_decide (membershipType = "")
  then (None, ls)
  else
    let startDate := now in
    let endDate := membershipEndDate membershipType startDate in
    let '(member, ls') :=
      createMember name email phone membershipType startDate endDate
                   (member_photo form) regNow ls in
    (Some member, ls').

End MembersService.

(** ** attendance.js: the [AttendanceService] object *)

Module AttendanceService.
Import JS StorageService.

(** What [displayMemberInfo] writes into the member panel: the image
    source, the three texts copied from the member, the days remaining
    (a number), and the status text with the class name of its element. *)
Record MemberInfo := {
  member_photo_display : option value;
  member_name_display : option value;
  member_id_display : option value;
  membership_type_display : option value;
  days_remaining_display : option Z;
  attendance_status_display : string;
  attendance_status_class : string
}.

(** The part of the page the handlers read and write: the value of the
    [member-id] input, the notification shown (message and type; the timer
    that hides it again is left out), and the member panel ([None] while
    it is hidden). *)
Record Page := {
  member_id : string;
  notification : option (string * string);
  member_info : option MemberInfo
}.

(** [formatMembershipType(type)], applied to a property read. *)
Definition formatMembershipType (type : option value) : option value :=
  if bool_decide (type = Some (VStr "monthly")) then
    Some (VStr "Monthly (30 days)")
  else if bool_decide (type = Some (VStr "quarterly")) then
    Some (VStr "Quarterly (90 days)")
  else if bool_decide (type = Some (VStr "halfyearly")) then
    Some (VStr "Half Yearly (180 days)")
  else if bool_decide (type = Some (VStr "annual")) then
    Some (VStr "Annual (365 days)")
  else type.

(** [formatStatus(status)] *)
Definition formatStatus (status : string) : string :=
  if bool_decide (status = "checked-in") then "Checked In"
  else if bool_decide (status = "checked-out") then "Checked Out"
  else if bool_decide (status = "not-checked-in") then "Not Checked In"
  else status.

(** [showNotification(message, type)] *)
Definition showNotification (message type : string) (page : Page) : Page :=
  {| member_id := member_id page;
     notification := Some (message, type);
     member_info := member_info page |}.

(** [StorageService.getMemberById(member.id)] for the value read from a
    member: [member.id === id] on property reads. *)
Definition getMemberById_value (id : option value) (ls : LocalStorage)
  : option obj :=
  snd <$> list_find (λ m : obj, m !! "id" = id) (getMembers ls).

(** [displayMemberInfo(member, status)]; [status] is [None] when the
    argument is left out, [nowDays] and [nowStatus] are the clock reads of
    [calculateDaysRemaining] and of [getMemberStatus] (the latter is made
    only when [status] is falsy).  The outer [None] is the [TypeError] of
    reading [member.id] when [member] is [null]. *)
Definition displayMemberInfo `{Host} (member : option obj)
    (status : option string) (nowDays nowStatus : Z) (page : Page)
    (ls : LocalStorage) : option Page :=
  match member with
  | None => None
  | Some member =>
      match getMemberById_value (member !! "id") ls with
      | None => Some page
      | Some updatedMember =>
          let remainingDays :=
            calculateDaysRemaining (Some updatedMember) nowDays in
          let memberStatus :=
            match status with
            | Some s =>
                if bool_decide (s = "")
                then getMemberStatus (Some updatedMember) nowStatus
                else s
            | None => getMemberStatus (Some updatedMember) nowStatus
            end in
          Some
            {| member_id := member_id page;
               notification := notification page;
               member_info :=
                 Some
                   {| member_photo_display :=
                        if ToBoolean (updatedMember !! "photo")
                        then updatedMember !! "photo"
                        else Some (VStr "img/default-profile.png");
                      member_name_display := updatedMember !! "name";
                      member_id_display := updatedMember !! "id";
                      membership_type_display :=
                        formatMembershipType
                          (updatedMember !! "membershipType");
                      days_remaining_display := remainingDays;
                      attendance_status_display := formatStatus memberStatus;
                      attendance_status_class := memberStatus |} |}
      end
  end.

(** The last statement of a successful handler: the input is cleared. *)
Definition clear_input (page : Page) : Page :=
  {| member_id := "";
     notification := notification page;
     member_info := member_info page |}.

(** [daysRemaining <= 0] on a number that may be [NaN]. *)
Definition le_zero (n : option Z) : bool :=
  match n with
  | Some z => z <=? 0
  | None => false
  end.

(** [handleCheckIn(event)]; [clk k] is what the clock reads at the [k]-th
    place of the run, counted from 0, where a callee may read it (a callee
    that returns before its [new Date()] leaves its reading unused).  The
    page result is [None] when the handler ends in a [TypeError]. *)
Definition handleCheckIn `{Host} (clk : nat → Z) (page : Page)
    (ls : LocalStorage) : option Page * LocalStorage :=
  let memberId := trim (member_id page) in
  if bool_decide (memberId = "") then
    (Some (showNotification "Please enter a member ID" "error" page), ls)
  else
    match getMemberById memberId ls with
    | None =>
        (Some (showNotification
                 "Member not found. Please check the ID and try again."
                 "error" page), ls)
    | Some member =>
        let daysRemaining := calculateDaysRemaining (Some member) (clk 0%nat) in
        if le_zero daysRemaining then
          let page1 :=
            showNotification
              "Membership has expired. Please renew to continue."
              "error" page in
          (displayMemberInfo (Some member) None (clk 1%nat) (clk 2%nat)
             page1 ls, ls)
        else
          let status := getMemberStatus (Some member) (clk 1%nat) in
          if bool_decide (status = "checked-in") then
            let page1 :=
              showNotification "Member is already checked in." "error" page in
            (displayMemberInfo (Some member) None (clk 2%nat) (clk 3%nat)
               page1 ls, ls)
          else
            let '(_, ls1) := checkIn memberId (clk 2%nat) (clk 3%nat) ls in
            let updatedMember := getMemberById memberId ls1 in
            let page1 :=
              showNotification "Check-in successful!" "success" page in
            (clear_input <$>
               displayMemberInfo updatedMember (Some "checked-in")
                 (clk 4%nat) (clk 5%nat) page1 ls1,
             ls1)
    end.

(** [handleCheckOut(event)] *)
Definition handleCheckOut `{Host} (clk : nat → Z) (page : Page)
    (ls : LocalStorage) : option Page * LocalStorage :=
  let memberId := trim (member_id page) in
  if bool_decide (memberId = "") then
    (Some (showNotification "Please enter a member ID" "error" page), ls)
  else
    match getMemberById memberId ls with
    | None =>
        (Some (showNotification
                 "Member not found. Please check the ID and try again."
                 "error" page), ls)
    | Some member =>
        let status := getMemberStatus (Some member) (clk 0%nat) in
        if negb (bool_decide (status = "checked-in")) then
          let page1 :=
            showNotification "Member is not currently checked in."
              "error" page in
          (displayMemberInfo (Some member) None (clk 1%nat) (clk 2%nat)
             page1 ls, ls)
        else
          let '(_, ls1) := checkOut memberId (clk 1%nat) (clk 2%nat) ls in
          let updatedMember := getMemberById memberId ls1 in
          let page1 :=
            showNotification "Check-out successful!" "success" page in
          (clear_input <$>
             displayMemberInfo updatedMember (Some "checked-out")
               (clk 3%nat) (clk 4%nat) page1 ls1,
           ls1)
    end.

End AttendanceService.

(** ** The members service: the list of members and the search *)

Module MembersList.
Import JS StorageService.

(** One member card: the values the template puts into the markup. *)
Record MemberCard := {
  card_photo : option value;
  card_name : option value;
  card_id : option value;
  card_membership : option value;
  card_days : option Z;
  card_status : string
}.

(** What the [members-list] element holds after a handler ran: a
    paragraph with a message, or the cards in order. *)
Inductive ListContent :=
  | NoMembers (message : string)
  | Cards (cards : list MemberCard).

(** [formatMembershipType] and [formatStatus] of the members service. *)
Definition formatMembershipType (type : option value) : option value :=
  if bool_decide (type = Some (VStr "monthly")) then
    Some (VStr "Monthly (30 days)")
  else if bool_decide (type = Some (VStr "quarterly")) then
    Some (VStr "Quarterly (90 days)")
  else if bool_decide (type = Some (VStr "halfyearly")) then
    Some (VStr "Half Yearly (180 days)")
  else if bool_decide (type = Some (VStr "annual")) then
    Some (VStr "Annual (365 days)")
  else type.

Definition formatStatus (status : string) : string :=
  if bool_decide (status = "checked-in") then "Checked In"
  else if bool_decide (status = "checked-out") then "Checked Out"
  else if bool_decide (status = "not-checked-in") then "Not Checked In"
  else status.

(** The body of the [forEach]: the card of the [i]-th member shown; the
    clock readings of its two calls are [clk (2 i)] and [clk (2 i + 1)]. *)
Definition memberCard `{Host} (clk : nat → Z) (i : nat) (member : obj)
  : MemberCard :=
  let daysRemaining := calculateDaysRemaining (Some member) (clk (2 * i)%nat) in
  let memberStatus := getMemberStatus (Some member) (clk (2 * i + 1)%nat) in
  {| card_photo := member !! "photo";
     card_name := member !! "name";
     card_id := member !! "id";
     card_membership := formatMembershipType (member !! "membershipType");
     card_days := daysRemaining;
     card_status := formatStatus memberStatus |}.

(** [loadMembersList()] *)
Definition loadMembersList `{Host} (clk : nat → Z) (ls : LocalStorage)
  : ListContent :=
  let members := getMembers ls in
  if bool_decide (length members = 0%nat) then
    NoMembers "No members registered yet."
  else Cards (imap (memberCard clk) members).

(** [s.toLowerCase()]: of the characters up to 255 the upper-case letters
    are A to Z (65 to 90) and U+00C0 to U+00DE without the multiplication
    sign U+00D7; each has its lower-case letter 32 places up. *)
Definition toLowerCase_char (c : ascii) : ascii :=
  let n := Ascii.N_of_ascii c in
  if ((65 <=? n) && (n <=? 90)
      || (192 <=? n) && (n <=? 222) && negb (n =? 215))%N
  then Ascii.ascii_of_N (n + 32) else c.

Fixpoint toLowerCase (s : string) : string :=
  match s with
  | String c r => String (toLowerCase_char c) (toLowerCase r)
  | EmptyString => EmptyString
  end.

(** [s.includes(t)]: [t] occurs in [s]. *)
Fixpoint includes (s t : string) : bool :=
  String.prefix t s
  || match s with
     | String _ r => includes r t
     | EmptyString => false
     end.

(** The string a property holds, for the method calls of the filter; on
    a missing property, [null], a boolean or a number the call is a
    [TypeError].  Names and ids are never written through [toISOString],
    so [VTime] is not given a text here. *)
Definition as_string (v : option value) : option string :=
  match v with
  | Some (VStr s) => Some s
  | _ => None
  end.

(** The filter's test on one member: [None] is the [TypeError] of calling
    a string method on a name or id that is no string; the id is read
    only when the name does not match. *)
Definition matchesSearch (searchTerm : string) (member : obj) : option bool :=
  match as_string (member !! "name") with
  | Some name =>
      if includes (toLowerCase name) searchTerm then Some true
      else
        match as_string (member !! "id") with
        | Some id => Some (includes id searchTerm)
        | None => None
        end
  | None => None
  end.

(** [members.filter(...)], stopping at the first [TypeError]. *)
Fixpoint filterMembers (searchTerm : string) (members : list obj)
  : option (list obj) :=
  match members with
  | [] => Some []
  | member :: rest =>
      match matchesSearch searchTerm member with
      | Some keep =>
          match filterMembers searchTerm rest with
          | Some kept => Some (if keep then member :: kept else kept)
          | None => None
          end
      | None => None
      end
  end.

(** [handleSearch(event)]; [value] is the text of the search field.  The
    result is [None] when the filter ends in a [TypeError]. *)
Definition handleSearch `{Host} (value : string) (clk : nat → Z)
    (ls : LocalStorage) : option ListContent :=
  let searchTerm := trim (toLowerCase value) in
  let members := getMembers ls in
  if bool_decide (length members = 0%nat) then
    Some (NoMembers "No members registered yet.")
  else
    match filterMembers searchTerm members with
    | None => None
    | Some filteredMembers =>
        if bool_decide (length filteredMembers = 0%nat) then
          Some (NoMembers "No members found matching your search.")
        else Some (Cards (imap (memberCard clk) filteredMembers))
    end.

End MembersList.

(** ** Notions the statements use *)

Module Spec.
Import JS StorageService.

(** The local calendar date of a time value: year, month, day of month. *)
Definition calendarDate `{Host} (t : Z) : Z * Z * Z :=
  let lt := LocalTime t in
  (YearFromTime lt, MonthFromTime lt, DateFromTime lt).

(** A time value normalized to midnight local time: the instant at which
    its local calendar day begins. *)
Definition atMidnight `{Host} (t : Z) : Z :=
  UTC (Day (LocalTime t) * msPerDay).

(** Inside the range of [Date]. *)
Definition in_Date_range (t : Z) : Prop := Z.abs t <= maxTime.

(** The reading of the clock and the date a field holds lie inside the
    range of [Date], and so do their local midnights. *)
Definition dates_in_range `{Host} (now : Z) (v : option value) : Prop :=
  (in_Date_range now ∧ in_Date_range (atMidnight now))
  ∧ ∀ e, Date_of_value v = Some e →
         in_Date_range e ∧ in_Date_range (atMidnight e).

(** [c] is the ceiling of [a / b]. *)
Definition is_ceil (a b c : Z) : Prop := (c - 1) * b < a <= c * b.

(** A field is set when reading it gives a value the program takes as
    present, and absent otherwise. *)
Definition is_set (v : option value) : Prop := ToBoolean v = true.
Definition is_absent (v : option value) : Prop := ToBoolean v = false.

(** A nullable timestamp, as the data model types [lastCheckIn],
    [lastCheckOut] and the membership dates: missing, [null], or a string
    written by [toISOString]. *)
Definition nullable_timestamp (v : option value) : Prop :=
  v = None ∨ v = Some VNull ∨ ∃ t, v = Some (VTime t).

(** A date field that, when set, denotes a valid date. *)
Definition valid_when_set `{Host} (v : option value) : Prop :=
  ToBoolean v = true → is_Some (Date_of_value v).

(** Reading a field of a member that may be absent. *)
Definition field (k : string) (member : option obj) : option value :=
  member ≫= (λ m : obj, m !! k).

(** Strings of decimal digits. *)
Definition is_decimal_digit (c : ascii) : bool :=
  match digit_value c with
  | Some d => d <? 10
  | None => false
  end.

Fixpoint all_decimal (s : string) : bool :=
  match s with
  | String c r => is_decimal_digit c && all_decimal r
  | EmptyString => true
  end.

(** The persisted counter reads as the integer [n]. *)
Definition counter_item (ls : LocalStorage) : string :=
  match member_id_counter ls with
  | Some s => if bool_decide (s = "") then "1000" else s
  | None => "1000"
  end.

Definition counter_is (n : Z) (ls : LocalStorage) : Prop :=
  parseInt (counter_item ls) = Some n.

(** [k] successive calls of [generateMemberId]: the ids in call order and
    the storage after the last call. *)
Fixpoint generateMemberIds (k : nat) (ls : LocalStorage)
  : list string * LocalStorage :=
  match k with
  | O => ([], ls)
  | S k' =>
      let '(id, ls1) := generateMemberId ls in
      let '(ids, ls2) := generateMemberIds k' ls1 in
      (id :: ids, ls2)
  end.

(** The member counts as checked in: a check-in with no check-out. *)
Definition currently_checked_in (m : obj) : Prop :=
  is_set (m !! "lastCheckIn") ∧ is_absent (m !! "lastCheckOut").

(** The last check-out is set and was made on today's calendar date. *)
Definition checked_out_today `{Host} (m : obj) (now : Z) : Prop :=
  is_set (m !! "lastCheckOut")
  ∧ ∃ t, Date_of_value (m !! "lastCheckOut") = Some t
         ∧ calendarDate t = calendarDate now.

(** Storage in which no key was ever set. *)
Definition emptyStorage : LocalStorage :=
  {| gym_members := None; gym_attendance := None; member_id_counter := None |}.

(** Storage the program can bring about: first use, then any run of the
    operations of [StorageService]. *)
Inductive reachable `{Host} : LocalStorage → Prop :=
  | reach_first_use : reachable (init emptyStorage)
  | reach_init ls : reachable ls → reachable (init ls)
  | reach_generateMemberId ls :
      reachable ls → reachable (generateMemberId ls).2
  | reach_addMember member now ls :
      reachable ls → reachable (addMember member now ls).2
  | reach_updateMember id updates ls :
      reachable ls → reachable (updateMember id updates ls).2
  | reach_deleteMember id ls :
      reachable ls → reachable (deleteMember id ls).2
  | reach_checkIn memberId now stamp ls :
      reachable ls → reachable (checkIn memberId now stamp ls).2
  | reach_checkOut memberId now stamp ls :
      reachable ls → reachable (checkOut memberId now stamp ls).2.

(** *** Data of the worked examples *)

(** A host in the UTC zone. *)
Definition utcHost : Host :=
  fixedOffsetHost 0 (λ _, None) (λ t, pretty (Day t)).

(** A host five and a half hours east of UTC. *)
Definition eastHost : Host :=
  fixedOffsetHost 19800000 (λ _, None) (λ t, pretty (Day (t + 19800000))).

(** A host on New York time with the clock changes of 2024: five hours
    west of UTC, and four hours west between 2024-03-10 07:00 UTC (02:00
    becomes 03:00) and 2024-11-03 06:00 UTC (02:00 becomes 01:00). *)
Definition dstBegin : Z := 1710054000000.
Definition dstEnd : Z := 1730613600000.

Definition newYorkTZA (t : Z) (isUTC : bool) : Z :=
  if isUTC then
    if (dstBegin <=? t) && (t <? dstEnd)
    then -4 * msPerHour else -5 * msPerHour
  else
    if (dstBegin - 4 * msPerHour <=? t) && (t <? dstEnd - 4 * msPerHour)
    then -4 * msPerHour else -5 * msPerHour.

Lemma newYork_bounded (t1 : Z) (b1 : bool) (t2 : Z) (b2 : bool) :
  Z.abs (newYorkTZA t1 b1 - newYorkTZA t2 b2) < msPerDay.
Proof.
  unfold newYorkTZA, msPerDay, msPerHour.
  repeat case_match; lia.
Qed.

Lemma newYork_mono (t1 t2 : Z) :
  t1 <= t2 → Day (t1 + newYorkTZA t1 true) <= Day (t2 + newYorkTZA t2 true).
Proof.
  intros Hle. unfold newYorkTZA, Day, msPerDay, msPerHour, dstBegin, dstEnd.
  destruct (Z.leb_spec 1710054000000 t1), (Z.ltb_spec t1 1730613600000),
    (Z.leb_spec 1710054000000 t2), (Z.ltb_spec t2 1730613600000);
    cbn [andb]; Z.to_euclidean_division_equations; lia.
Qed.

Lemma newYork_UTC (t : Z) :
  Day (t - newYorkTZA t false + newYorkTZA (t - newYorkTZA t false) true)
  = Day t.
Proof.
  unfold newYorkTZA, Day, msPerDay, msPerHour, dstBegin, dstEnd.
  destruct (Z.leb_spec (1710054000000 - 4 * 3600000) t),
    (Z.ltb_spec t (1730613600000 - 4 * 3600000)); cbn [andb];
    match goal with
    | |- context [(?a <=? ?b) && (?c <? ?d)] =>
        destruct (Z.leb_spec a b), (Z.ltb_spec c d); cbn [andb]
    end;
    Z.to_euclidean_division_equations; lia.
Qed.

Definition newYorkHost : Host :=
  {| LocalTZA := newYorkTZA;
     Date_parse := λ _, None;
     toLocaleDateString := λ t, pretty (Day (t + newYorkTZA t true));
     LocalTZA_bounded := newYork_bounded;
     LocalDay_mono := newYork_mono;
     LocalDay_UTC := newYork_UTC |}.

(** 2024-10-20 12:00, 2024-11-03 12:00 and 2024-11-04 12:00 in New York:
    16:00 UTC before the clocks went back, 17:00 UTC after. *)
Definition oct20noon : Z := 1729440000000.
Definition nov03noon : Z := 1730653200000.
Definition nov04noon : Z := 1730739600000.

(** The no-break space, and the letter E with acute accent in upper and
    in lower case. *)
Definition nbsp : ascii := "160"%char.
Definition E_acute : ascii := "201"%char.
Definition e_acute : ascii := "233"%char.

(** 2024-01-01, 2024-02-01 and 2024-03-31, each at 00:00 UTC. *)
Definition jan01 : Z := 1704067200000.
Definition feb01 : Z := 1706745600000.
Definition mar31 : Z := 1711843200000.

(** A quarterly member registered on 2024-01-01, and storage holding it. *)
Definition exampleMember : obj :=
  {[ "id" := VStr "1001";
     "name" := VStr "Asha";
     "membershipType" := VStr "quarterly";
     "membershipStartDate" := VTime jan01;
     "membershipEndDate" := VTime mar31;
     "registrationDate" := VTime jan01;
     "lastCheckIn" := VNull;
     "lastCheckOut" := VNull ]}.

Definition exampleStorage : LocalStorage :=
  {| gym_members := Some [exampleMember];
     gym_attendance := Some [];
     member_id_counter := Some "1001" |}.

Definition exampleForm : MembersService.RegistrationForm :=
  {| MembersService.new_name := " Asha ";
     MembersService.new_email := "asha@example.org";
     MembersService.new_phone := "555 0100";
     MembersService.membership_type := "quarterly";
     MembersService.member_photo := None |}.


(** A member whose membership ends at noon on 2024-11-04, New York time. *)
Definition endingMember : obj :=
  {[ "id" := VStr "1001";
     "name" := VStr "Asha";
     "membershipType" := VStr "monthly";
     "membershipEndDate" := VTime nov04noon;
     "lastCheckIn" := VNull;
     "lastCheckOut" := VNull ]}.

End Spec.

(** ** Notions the statements about the handlers use *)

Module UISpec.
Import JS StorageService MembersService AttendanceService Spec.

(** Storage the pages can bring about: first use, then any run of the
    start-up code and of the three handlers that write. *)
Inductive ui_reachable `{Host} : LocalStorage → Prop :=
  | ui_first_use : ui_reachable (init emptyStorage)
  | ui_init ls : ui_reachable ls → ui_reachable (init ls)
  | ui_register form now regNow ls :
      ui_reachable ls →
      ui_reachable (handleRegistration form now regNow ls).2
  | ui_checkIn clk page ls :
      ui_reachable ls → ui_reachable (handleCheckIn clk page ls).2
  | ui_checkOut clk page ls :
      ui_reachable ls → ui_reachable (handleCheckOut clk page ls).2.

(** The id of the member registered as number [i], counted from 0. *)
Definition nth_id (i : nat) : string := pretty (1001 + Z.of_nat i).

(** The test of [getMemberStatus] for checked in, as a boolean. *)
Definition checked_in_b (m : obj) : bool :=
  ToBoolean (m !! "lastCheckIn") && negb (ToBoolean (m !! "lastCheckOut")).

(** The fields of a stored member are typed as the data model has them,
    and a check-out is never recorded without a check-in. *)
Definition member_ok (m : obj) : Prop :=
  (∃ name, m !! "name" = Some (VStr name))
  ∧ (∃ t, m !! "membershipEndDate" = Some (VTime t))
  ∧ nullable_timestamp (m !! "lastCheckIn")
  ∧ nullable_timestamp (m !! "lastCheckOut")
  ∧ (is_set (m !! "lastCheckOut") → is_set (m !! "lastCheckIn")).

(** An attendance record of the given type for the given member. *)
Definition is_record (type memberId : string) (record : obj) : Prop :=
  record !! "memberId" = Some (VStr memberId)
  ∧ record !! "type" = Some (VStr type).

#[global] Instance is_record_dec type memberId record :
  Decision (is_record type memberId record).
Proof. unfold is_record. apply _. Defined.

(** How many records of a type the member has. *)
Definition count_records (type memberId : string) (ls : LocalStorage) : nat :=
  length (filter (is_record type memberId) (getAttendance ls)).

(** What every storage the pages bring about satisfies. *)
Record ui_invariant (ls : LocalStorage) : Prop := {
  inv_counter :
    counter_is (1000 + Z.of_nat (length (getMembers ls))) ls;
  inv_ids :
    ∀ (i : nat) (m : obj),
      getMembers ls !! i = Some m → m !! "id" = Some (VStr (nth_id i));
  inv_members : Forall member_ok (getMembers ls);
  inv_records :
    ∀ record : obj, record ∈ getAttendance ls →
      ∃ (i : nat) (type : string),
        (i < length (getMembers ls))%nat
        ∧ is_record type (nth_id i) record
        ∧ (type = "check-in" ∨ type = "check-out");
  inv_balance :
    ∀ (i : nat) (m : obj),
      getMembers ls !! i = Some m →
      count_records "check-in" (nth_id i) ls
      = (count_records "check-out" (nth_id i) ls
         + (if checked_in_b m then 1 else 0))%nat
}.

(** The status [displayMemberInfo] shows: the override unless it is
    falsy, else the derived status. *)
Definition shown_status `{Host} (status : option string) (m : obj)
    (now : Z) : string :=
  match status with
  | Some s => if bool_decide (s = "") then getMemberStatus (Some m) now else s
  | None => getMemberStatus (Some m) now
  end.


(** The five ways [handleCheckIn] can end. *)
Inductive checkIn_outcome `{Host} (clk : nat → Z) (page : Page)
    (ls : LocalStorage)
  : option Page * LocalStorage → Prop :=
  | ci_no_id :
      trim (member_id page) = "" →
      checkIn_outcome clk page ls
        (Some (showNotification "Please enter a member ID" "error" page), ls)
  | ci_not_found :
      trim (member_id page) ≠ "" →
      getMemberById (trim (member_id page)) ls = None →
      checkIn_outcome clk page ls
        (Some (showNotification
                 "Member not found. Please check the ID and try again."
                 "error" page), ls)
  | ci_expired index member info :
      trim (member_id page) ≠ "" →
      list_find (has_id (trim (member_id page))) (getMembers ls)
      = Some (index, member) →
      le_zero (calculateDaysRemaining (Some member) (clk 0%nat)) = true →
      checkIn_outcome clk page ls
        (Some {| member_id := member_id page;
                 notification :=
                   Some ("Membership has expired. Please renew to continue.",
                         "error");
                 member_info := Some info |}, ls)
  | ci_already index member info :
      trim (member_id page) ≠ "" →
      list_find (has_id (trim (member_id page))) (getMembers ls)
      = Some (index, member) →
      le_zero (calculateDaysRemaining (Some member) (clk 0%nat)) = false →
      getMemberStatus (Some member) (clk 1%nat) = "checked-in" →
      checkIn_outcome clk page ls
        (Some {| member_id := member_id page;
                 notification := Some ("Member is already checked in.", "error");
                 member_info := Some info |}, ls)
  | ci_success index member info :
      trim (member_id page) ≠ "" →
      list_find (has_id (trim (member_id page))) (getMembers ls)
      = Some (index, member) →
      le_zero (calculateDaysRemaining (Some member) (clk 0%nat)) = false →
      getMemberStatus (Some member) (clk 1%nat) ≠ "checked-in" →
      attendance_status_display info = "Checked In" →
      attendance_status_class info = "checked-in" →
      checkIn_outcome clk page ls
        (Some {| member_id := "";
                 notification := Some ("Check-in successful!", "success");
                 member_info := Some info |},
         (checkIn (trim (member_id page)) (clk 2%nat) (clk 3%nat) ls).2).


(** The four ways [handleCheckOut] can end. *)
Inductive checkOut_outcome `{Host} (clk : nat → Z) (page : Page)
    (ls : LocalStorage)
  : option Page * LocalStorage → Prop :=
  | co_no_id :
      trim (member_id page) = "" →
      checkOut_outcome clk page ls
        (Some (showNotification "Please enter a member ID" "error" page), ls)
  | co_not_found :
      trim (member_id page) ≠ "" →
      getMemberById (trim (member_id page)) ls = None →
      checkOut_outcome clk page ls
        (Some (showNotification
                 "Member not found. Please check the ID and try again."
                 "error" page), ls)
  | co_not_in index member info :
      trim (member_id page) ≠ "" →
      list_find (has_id (trim (member_id page))) (getMembers ls)
      = Some (index, member) →
      getMemberStatus (Some member) (clk 0%nat) ≠ "checked-in" →
      checkOut_outcome clk page ls
        (Some {| member_id := member_id page;
                 notification :=
                   Some ("Member is not currently checked in.", "error");
                 member_info := Some info |}, ls)
  | co_success index member info :
      trim (member_id page) ≠ "" →
      list_find (has_id (trim (member_id page))) (getMembers ls)
      = Some (index, member) →
      getMemberStatus (Some member) (clk 0%nat) = "checked-in" →
      attendance_status_display info = "Checked Out" →
      attendance_status_class info = "checked-out" →
      checkOut_outcome clk page ls
        (Some {| member_id := "";
                 notification := Some ("Check-out successful!", "success");
                 member_info := Some info |},
         (checkOut (trim (member_id page)) (clk 1%nat) (clk 2%nat) ls).2).


(** The filter as a plain test, for members whose name and id are
    strings. *)
Definition matches (searchTerm : string) (member : obj) : Prop :=
  MembersList.matchesSearch searchTerm member = Some true.

#[global] Instance matches_dec searchTerm member :
  Decision (matches searchTerm member).
Proof. unfold matches. apply _. Defined.

Definition has_strings (member : obj) : Prop :=
  (∃ name, member !! "name" = Some (VStr name))
  ∧ (∃ id, member !! "id" = Some (VStr id)).

(** A page with the given text in the id field and nothing shown. *)
Definition pageWith (text : string) : Page :=
  {| member_id := text; notification := None; member_info := None |}.

(** A clock that reads [t] every time. *)
Definition constClock (t : Z) : nat → Z := λ _, t.

(** The example registration made on 2024-01-01 into fresh storage, the
    member it stores, and the storage after that member checked in on
    2024-02-01. *)
Definition registeredStorage : LocalStorage :=
  (@handleRegistration utcHost exampleForm jan01 jan01 (init emptyStorage)).2.

Definition registeredMember : obj :=
  default ∅
    (@handleRegistration utcHost exampleForm jan01 jan01 (init emptyStorage)).1.

Definition checkedInStorage : LocalStorage :=
  (@handleCheckIn utcHost (constClock feb01) (pageWith "1001")
     registeredStorage).2.

(** Storage whose counter was overwritten with text. *)
Definition corruptStorage : LocalStorage :=
  {| gym_members := Some [];
     gym_attendance := Some [];
     member_id_counter := Some "abc" |}.

End UISpec.

(** ** Facts about the date arithmetic *)

Module DateFacts.
Import JS Spec.

Lemma DayFromYear_step y : DayFromYear (y + 1) = DayFromYear y + DaysInYear y.
Proof.
  unfold DayFromYear, DaysInYear.
  repeat match goal with
         | |- context [?a =? ?b] => destruct (Z.eqb_spec a b); simpl
         end;
    Z.to_euclidean_division_equations; lia.
Qed.

(** [YearFromTime] is the year ECMA-262 asks for. *)
Lemma YearFromTime_spec t :
  DayFromYear (YearFromTime t) <= Day t < DayFromYear (YearFromTime t + 1).
Proof.
  unfold YearFromTime. generalize (Day t). intros d. cbv zeta.
  destruct (Z.leb_spec (DayFromYear (1970 + 400 * d / 146097 + 1)) d) as [H1|H1].
  - split; [done|]. revert H1. unfold DayFromYear.
    Z.to_euclidean_division_equations; lia.
  - destruct (Z.leb_spec (DayFromYear (1970 + 400 * d / 146097)) d) as [H2|H2].
    + done.
    + replace (1970 + 400 * d / 146097 - 1 + 1)
        with (1970 + 400 * d / 146097) by lia.
      split; [|done]. revert H2. clear H1. unfold DayFromYear.
      Z.to_euclidean_division_equations; lia.
Qed.

Lemma DayWithinYear_range t :
  0 <= DayWithinYear t < DaysInYear (YearFromTime t).
Proof.
  unfold DayWithinYear. pose proof (YearFromTime_spec t) as H.
  rewrite DayFromYear_step in H. lia.
Qed.

Lemma MonthFromTime_range t : 0 <= MonthFromTime t <= 11.
Proof.
  unfold MonthFromTime. cbv zeta.
  repeat match goal with
         | |- context [?a <? ?b] => destruct (Z.ltb_spec a b)
         end; lia.
Qed.

Lemma InLeapYear_range t : 0 <= InLeapYear t <= 1.
Proof. unfold InLeapYear. case_match; lia. Qed.

(** The day of the month really lies in the month. *)
Lemma DateFromTime_range t : 1 <= DateFromTime t <= 31.
Proof.
  pose proof (DayWithinYear_range t) as Hd.
  assert (DaysInYear (YearFromTime t) = 365 + InLeapYear t) as Hy.
  { unfold InLeapYear, DaysInYear. repeat case_match; lia. }
  pose proof (InLeapYear_range t) as Hl.
  unfold DateFromTime, MonthFromTime, DaysBeforeMonth in *. cbv zeta.
  repeat match goal with
         | |- context [?a <? ?b] => destruct (Z.ltb_spec a b); simpl
         end; lia.
Qed.

(** Year, month and day of the month give back the day number. *)
Lemma Day_of_fields t :
  Day t = DayFromYear (YearFromTime t)
          + DaysBeforeMonth (MonthFromTime t) (InLeapYear t)
          + DateFromTime t - 1.
Proof. unfold DateFromTime, DayWithinYear. lia. Qed.

Lemma MakeDay_shift t n :
  MakeDay (YearFromTime t) (MonthFromTime t) (DateFromTime t + n) = Day t + n.
Proof.
  pose proof (MonthFromTime_range t) as Hm.
  unfold MakeDay. cbv zeta.
  rewrite (Z.div_small (MonthFromTime t) 12) by lia.
  rewrite (Z.mod_small (MonthFromTime t) 12) by lia.
  rewrite Z.add_0_r. fold (InLeapYear t).
  pose proof (Day_of_fields t) as Hd. lia.
Qed.

Lemma Day_TimeWithinDay t : Day t * msPerDay + TimeWithinDay t = t.
Proof.
  unfold Day, TimeWithinDay, msPerDay.
  pose proof (Z.div_mod t 86400000). lia.
Qed.

Lemma Day_shift t n : Day (t + n * msPerDay) = Day t + n.
Proof. unfold Day, msPerDay. rewrite Z.div_add by lia. done. Qed.


Section WithHost.
Context `{Host}.

(** [d.setDate(d.getDate() + n)] moves the local time of [d] by [n] whole
    days and reads it back as an instant. *)
Lemma setDate_getDate t n :
  setDate t (getDate t + n) = UTC (LocalTime t + n * msPerDay).
Proof.
  unfold setDate, getDate, MakeDate. cbv zeta.
  rewrite MakeDay_shift. f_equal.
  pose proof (Day_TimeWithinDay (LocalTime t)) as Hd. lia.
Qed.

(** [d.setHours(0, 0, 0, 0)] is the normalization to local midnight. *)
Lemma setHours_midnight t : setHours t 0 0 0 0 = atMidnight t.
Proof.
  unfold setHours, atMidnight, MakeDate, MakeTime. cbv zeta. f_equal. lia.
Qed.


(** A local time, read as an instant, falls on its own calendar day. *)
Lemma LocalTime_UTC_Day t : Day (LocalTime (UTC t)) = Day t.
Proof. apply LocalDay_UTC. Qed.

(** Two local midnights lie the number of days between them apart, up to
    the change of the offset, which is less than a day. *)
Lemma atMidnight_diff t1 t2 :
  (Day (LocalTime t2) - Day (LocalTime t1) - 1) * msPerDay
  < atMidnight t2 - atMidnight t1
  < (Day (LocalTime t2) - Day (LocalTime t1) + 1) * msPerDay.
Proof.
  unfold atMidnight, UTC.
  pose proof (LocalTZA_bounded (Day (LocalTime t2) * msPerDay) false
                (Day (LocalTime t1) * msPerDay) false) as Hb.
  lia.
Qed.

Lemma atMidnight_same_day t1 t2 :
  Day (LocalTime t1) = Day (LocalTime t2) → atMidnight t1 = atMidnight t2.
Proof. unfold atMidnight. by intros ->. Qed.

(** When both midnights are read under the same offset they lie whole days
    apart. *)
Lemma atMidnight_same_offset t1 t2 :
  LocalTZA (Day (LocalTime t1) * msPerDay) false
  = LocalTZA (Day (LocalTime t2) * msPerDay) false →
  atMidnight t2 - atMidnight t1
  = (Day (LocalTime t2) - Day (LocalTime t1)) * msPerDay.
Proof. unfold atMidnight, UTC. intros ->. lia. Qed.

Lemma atMidnight_lt t1 t2 :
  Day (LocalTime t1) < Day (LocalTime t2) → atMidnight t1 < atMidnight t2.
Proof.
  intros Hlt. pose proof (atMidnight_diff t1 t2) as Hd.
  unfold msPerDay in *. nia.
Qed.


(** The local time moved by whole days and read back as an instant falls
    that many calendar days later. *)
Lemma Day_LocalTime_moved t n :
  Day (LocalTime (UTC (LocalTime t + n * msPerDay))) = Day (LocalTime t) + n.
Proof. rewrite LocalTime_UTC_Day. apply Day_shift. Qed.


Lemma atMidnight_le_iff t1 t2 :
  atMidnight t1 <= atMidnight t2 ↔ Day (LocalTime t1) <= Day (LocalTime t2).
Proof.
  split.
  - intros Hle.
    destruct (Z.le_gt_cases (Day (LocalTime t1)) (Day (LocalTime t2)))
      as [?|Hgt]; [done|].
    apply atMidnight_lt in Hgt. lia.
  - intros Hle.
    destruct (decide (Day (LocalTime t1) = Day (LocalTime t2))) as [Heq|Hne].
    + by rewrite (atMidnight_same_day _ _ Heq).
    + assert (Day (LocalTime t1) < Day (LocalTime t2)) as Hlt by lia.
      apply atMidnight_lt in Hlt. lia.
Qed.

(** Two dates print the same with [toDateString] exactly when they fall on
    the same local calendar date, and exactly when on the same local day. *)
Lemma toDateString_eq_Day t1 t2 :
  toDateString t1 = toDateString t2 ↔ Day (LocalTime t1) = Day (LocalTime t2).
Proof.
  split.
  - intros Heq.
    rewrite (Day_of_fields (LocalTime t1)), (Day_of_fields (LocalTime t2)).
    unfold toDateString in Heq. cbv zeta in Heq.
    injection Heq as _ Hm Hd Hy.
    unfold InLeapYear. rewrite Hm, Hd, Hy. done.
  - intros Heq. unfold toDateString, WeekDay, MonthFromTime, DateFromTime,
      MonthFromTime, InLeapYear, DayWithinYear, YearFromTime.
    rewrite Heq. done.
Qed.

Lemma calendarDate_eq_Day t1 t2 :
  calendarDate t1 = calendarDate t2 ↔ Day (LocalTime t1) = Day (LocalTime t2).
Proof.
  split.
  - intros Heq.
    rewrite (Day_of_fields (LocalTime t1)), (Day_of_fields (LocalTime t2)).
    unfold calendarDate in Heq. cbv zeta in Heq.
    injection Heq as Hy Hm Hd.
    unfold InLeapYear. rewrite Hm, Hd, Hy. done.
  - intros Heq. unfold calendarDate, MonthFromTime, DateFromTime,
      MonthFromTime, InLeapYear, DayWithinYear, YearFromTime.
    rewrite Heq. done.
Qed.

Lemma toDateString_eq_calendarDate t1 t2 :
  toDateString t1 = toDateString t2 ↔ calendarDate t1 = calendarDate t2.
Proof. rewrite toDateString_eq_Day, calendarDate_eq_Day. done. Qed.

End WithHost.

(** [Math.ceil] of a quotient is its ceiling. *)
Lemma Math_ceil_div_is_ceil a b : 0 < b → is_ceil a b (Math_ceil_div a b).
Proof.
  intros Hb. unfold is_ceil, Math_ceil_div.
  pose proof (Z.div_mod (- a) b) as Hdm.
  pose proof (Z.mod_pos_bound (- a) b Hb). nia.
Qed.

Lemma is_ceil_unique a b c1 c2 :
  0 < b → is_ceil a b c1 → is_ceil a b c2 → c1 = c2.
Proof. unfold is_ceil. intros Hb H1 H2. nia. Qed.

End DateFacts.

(** ** Facts about reading and printing integers *)

Module StringFacts.
Import JS Spec.

Lemma digit_value_pretty_N_char (x : N) :
  (x < 10)%N → digit_value (pretty_N_char x) = Some (Z.of_N x).
Proof.
  intros Hx.
  assert (x = 0 ∨ x = 1 ∨ x = 2 ∨ x = 3 ∨ x = 4 ∨ x = 5 ∨ x = 6 ∨ x = 7
          ∨ x = 8 ∨ x = 9)%N as Hc by lia.
  repeat (destruct Hc as [->|Hc]; [reflexivity|]). subst. reflexivity.
Qed.

Lemma pretty_N_go_decimal x s :
  all_decimal s = true → all_decimal (pretty_N_go x s) = true.
Proof.
  revert s. induction (N.lt_wf_0 x) as [x _ IH]. intros s Hs.
  destruct (decide (x = 0)%N) as [->|Hx].
  - by rewrite pretty_N_go_0.
  - rewrite pretty_N_go_step by lia. apply IH.
    + apply N.div_lt; lia.
    + simpl. rewrite Hs, andb_true_r. unfold is_decimal_digit.
      rewrite digit_value_pretty_N_char by (apply N.mod_lt; lia).
      apply Z.ltb_lt. pose proof (N.mod_lt x 10). lia.
Qed.

Lemma pretty_N_go_nonempty x s : s ≠ "" → pretty_N_go x s ≠ "".
Proof.
  revert s. induction (N.lt_wf_0 x) as [x _ IH]. intros s Hs.
  destruct (decide (x = 0)%N) as [->|Hx].
  - by rewrite pretty_N_go_0.
  - rewrite pretty_N_go_step by lia. apply IH; [apply N.div_lt; lia|done].
Qed.

Lemma parse_digits_pretty_N_go x s :
  ∃ k : Z, 0 <= k ∧ ∀ acc,
    parse_digits 10 (pretty_N_go x s) acc
    = parse_digits 10 s (acc * 10 ^ k + Z.of_N x).
Proof.
  revert s. induction (N.lt_wf_0 x) as [x _ IH]. intros s.
  destruct (decide (x = 0)%N) as [->|Hx].
  - exists 0. split; [done|]. intros acc. rewrite pretty_N_go_0. f_equal. simpl. lia.
  - destruct (IH (x `div` 10)%N (N.div_lt x 10 ltac:(lia) eq_refl)
               (String (pretty_N_char (x `mod` 10)) s)) as (k & Hk & IHk).
    exists (k + 1). split; [lia|]. intros acc.
    rewrite pretty_N_go_step by lia. rewrite IHk. simpl.
    rewrite digit_value_pretty_N_char by (apply N.mod_lt; lia).
    pose proof (N.mod_lt x 10 ltac:(lia)).
    destruct (Z.ltb_spec (Z.of_N (x `mod` 10)) 10) as [_|?]; [|lia].
    f_equal. rewrite Z.pow_add_r by lia.
    rewrite (N.div_mod x 10) at 3 by lia. rewrite N2Z.inj_add, N2Z.inj_mul. 
    simpl Z.of_N. lia.
Qed.

Lemma parseInt_magnitude_decimal s :
  s ≠ "" → all_decimal s = true →
  parseInt_magnitude s = Some (parse_digits 10 s 0).
Proof.
  destruct s as [|c r]; [done|]. intros _ Hs. simpl in Hs.
  apply andb_true_iff in Hs as [Hc Hr].
  assert (parseInt_magnitude (String c r)
          = match digit_value c with
            | Some d => if d <? 10 then Some (parse_digits 10 (String c r) 0) else None
            | None => None
            end) as ->.
  { destruct r as [|c' r'].
    - destruct c as [[] [] [] [] [] [] [] []]; reflexivity.
    - simpl in Hr. apply andb_true_iff in Hr as [Hc' _].
      destruct c as [[] [] [] [] [] [] [] []]; try reflexivity.
      destruct c' as [[] [] [] [] [] [] [] []]; try reflexivity; discriminate Hc'. }
  unfold is_decimal_digit in Hc. destruct (digit_value c) as [d|]; [|done].
  by rewrite Hc.
Qed.

Lemma parseInt_decimal s :
  s ≠ "" → all_decimal s = true → parseInt s = parseInt_magnitude s.
Proof.
  destruct s as [|c r]; [done|]. intros _ Hs. simpl in Hs.
  apply andb_true_iff in Hs as [Hc _].
  destruct c as [[] [] [] [] [] [] [] []]; try reflexivity; discriminate Hc.
Qed.

Lemma parseInt_magnitude_pretty_positive (p : positive) :
  parseInt_magnitude (pretty p) = Some (Z.pos p)
  ∧ pretty p ≠ "" ∧ all_decimal (pretty p) = true.
Proof.
  unfold pretty, pretty_positive, pretty, pretty_N.
  rewrite decide_False by done.
  assert (pretty_N_go (N.pos p) "" ≠ "") as Hne.
  { rewrite pretty_N_go_step by lia. by apply pretty_N_go_nonempty. }
  assert (all_decimal (pretty_N_go (N.pos p) "") = true) as Hd.
  { by apply pretty_N_go_decimal. }
  split; [|done].
  rewrite parseInt_magnitude_decimal by done.
  destruct (parse_digits_pretty_N_go (N.pos p) "") as (k & _ & ->).
  simpl. done.
Qed.

Lemma parseInt_pretty (z : Z) : parseInt (pretty z) = Some z.
Proof.
  destruct z as [|p|p].
  - reflexivity.
  - destruct (parseInt_magnitude_pretty_positive p) as (Hm & Hne & Hd).
    change (pretty (Z.pos p)) with (pretty p).
    by rewrite parseInt_decimal.
  - destruct (parseInt_magnitude_pretty_positive p) as (Hm & Hne & Hd).
    change (pretty (Z.neg p)) with (String "-" (pretty p)).
    change (parseInt (String "-" (pretty p)))
      with (Z.opp <$> parseInt_magnitude (pretty p)).
    by rewrite Hm.
Qed.

Lemma pretty_Z_nonempty (z : Z) : pretty z ≠ "".
Proof. intros Heq. pose proof (parseInt_pretty z) as Hp. by rewrite Heq in Hp. Qed.

End StringFacts.

(** ** Facts about the storage operations *)

Module StorageFacts.
Import JS StorageService Spec.

Lemma getMembers_saveMembers members ls :
  getMembers (saveMembers members ls) = members.
Proof. done. Qed.

Lemma getMembers_saveAttendance records ls :
  getMembers (saveAttendance records ls) = getMembers ls.
Proof. done. Qed.

Lemma getAttendance_saveMembers members ls :
  getAttendance (saveMembers members ls) = getAttendance ls.
Proof. done. Qed.

Lemma getAttendance_saveAttendance records ls :
  getAttendance (saveAttendance records ls) = records.
Proof. done. Qed.

Lemma getMemberById_None id ls :
  getMemberById id ls = None ↔ Forall (λ m, ¬ has_id id m) (getMembers ls).
Proof. unfold getMemberById. rewrite fmap_None. apply list_find_None. Qed.

Lemma list_find_Exists id (members : list obj) :
  Exists (has_id id) members → is_Some (list_find (has_id id) members).
Proof.
  intros Hex. destruct (list_find (has_id id) members) eqn:Hf; [done|].
  apply list_find_None in Hf. apply Exists_exists in Hex as (m & Hin & Hm).
  rewrite Forall_forall in Hf. by destruct (Hf m Hin).
Qed.

Lemma updateMember_found id updates ls index old :
  list_find (has_id id) (getMembers ls) = Some (index, old) →
  updateMember id updates ls
  = (Some (updates ∪ old),
     saveMembers (<[index := updates ∪ old]> (getMembers ls)) ls).
Proof. intros Hf. unfold updateMember. by rewrite Hf. Qed.

Lemma updateMember_missing id updates ls :
  list_find (has_id id) (getMembers ls) = None →
  updateMember id updates ls = (None, ls).
Proof. intros Hf. unfold updateMember. by rewrite Hf. Qed.

(** Replacing the first member with this id by a record with the same id
    leaves it the first member with this id. *)
Lemma list_find_insert_same id (members : list obj) index old new :
  list_find (has_id id) members = Some (index, old) →
  has_id id new →
  list_find (has_id id) (<[index := new]> members) = Some (index, new).
Proof.
  intros Hf Hnew. apply list_find_Some in Hf as (Hl & Hold & Hbefore).
  apply list_find_Some. split_and!.
  - apply list_lookup_insert_eq. by eapply lookup_lt_Some.
  - done.
  - intros j y Hj Hlt. rewrite list_lookup_insert_ne in Hj by lia. eauto.
Qed.

Lemma filter_all {A} (P : A → Prop) `{!∀ x, Decision (P x)} (l : list A) :
  Forall P l → filter P l = l.
Proof.
  induction 1 as [|x l Hx _ IH]; [done|].
  rewrite filter_cons_True by done. by rewrite IH.
Qed.

Lemma attendanceRecord_fields `{Host} type memberId now stamp :
  attendanceRecord type memberId now stamp !! "type" = Some (VStr type)
  ∧ attendanceRecord type memberId now stamp !! "timestamp" = Some (VTime now)
  ∧ attendanceRecord type memberId now stamp !! "memberId"
    = Some (VStr memberId).
Proof. unfold attendanceRecord. split_and!; by simplify_map_eq. Qed.

(** The counter and its string form. *)
Lemma counter_is_first_use :
  counter_is 1000 emptyStorage ∧ counter_is 1000 (init emptyStorage).
Proof. split; reflexivity. Qed.

Lemma counter_is_unset n ls :
  member_id_counter ls = None → counter_is n ls → n = 1000.
Proof.
  unfold counter_is, counter_item. intros ->.
  change (parseInt "1000") with (Some 1000). congruence.
Qed.

Lemma counter_is_setItem n ls :
  counter_is n (setItem_COUNTER (pretty n) ls).
Proof.
  unfold counter_is, counter_item. simpl.
  rewrite bool_decide_eq_false_2 by apply StringFacts.pretty_Z_nonempty.
  apply StringFacts.parseInt_pretty.
Qed.

Lemma generateMemberId_counter n ls :
  counter_is n ls →
  generateMemberId ls
  = (pretty (n + 1), setItem_COUNTER (pretty (n + 1)) ls).
Proof.
  unfold counter_is, counter_item, generateMemberId. cbv zeta.
  intros ->. done.
Qed.

Lemma generateMemberIds_counter k : ∀ n ls,
  counter_is n ls →
  (generateMemberIds k ls).1
  = (λ i : nat, pretty (n + 1 + Z.of_nat i)) <$> seq 0 k
  ∧ counter_is (n + Z.of_nat k) (generateMemberIds k ls).2.
Proof.
  induction k as [|k IH]; intros n ls Hn.
  - cbn [generateMemberIds fst snd]. split; [done|]. by rewrite Z.add_0_r.
  - cbn [generateMemberIds]. rewrite (generateMemberId_counter n ls Hn).
    destruct (IH (n + 1) _ (counter_is_setItem (n + 1) ls)) as [Hids Hc].
    destruct (generateMemberIds k _) as [ids ls2]. cbn [fst snd] in *.
    split.
    + cbn [seq fmap list_fmap]. f_equal.
      * f_equal. simpl. lia.
      * rewrite Hids, <- (fmap_S_seq 0 k), <- list_fmap_compose.
        apply list_fmap_ext. intros i x _. simpl. f_equal. lia.
    + replace (n + Z.of_nat (S k)) with (n + 1 + Z.of_nat k) by lia.
      done.
Qed.

(** The operations that do not call [generateMemberId] leave the counter
    as it is. *)
Lemma updateMember_counter id updates ls :
  member_id_counter (updateMember id updates ls).2 = member_id_counter ls.
Proof. unfold updateMember. by repeat case_match. Qed.

Lemma deleteMember_counter id ls :
  member_id_counter (deleteMember id ls).2 = member_id_counter ls.
Proof. unfold deleteMember. cbv zeta. by case_bool_decide. Qed.

Lemma counter_is_ext n ls ls' :
  member_id_counter ls' = member_id_counter ls →
  counter_is n ls → counter_is n ls'.
Proof. unfold counter_is, counter_item. by intros ->. Qed.

Lemma init_counter_item ls : counter_item (init ls) = counter_item ls.
Proof.
  unfold init, counter_item.
  destruct ls as [[ms|] [rs|] [s|]]; simpl; try done;
    case_bool_decide as Hs; simpl; try done; by rewrite bool_decide_eq_false_2.
Qed.

Lemma addMember_counter member now ls :
  member_id_counter (addMember member now ls).2
  = member_id_counter (generateMemberId ls).2.
Proof. unfold addMember. by destruct (generateMemberId ls). Qed.

Section WithHost.
Context `{Host}.

Lemma checkIn_counter memberId now stamp ls :
  member_id_counter (checkIn memberId now stamp ls).2 = member_id_counter ls.
Proof.
  unfold checkIn. destruct (getMemberById memberId ls); [|done].
  pose proof (updateMember_counter memberId
    {[ "lastCheckIn" := VTime now; "lastCheckOut" := VNull ]} ls) as Hu.
  by destruct (updateMember _ _ ls).
Qed.

Lemma checkOut_counter memberId now stamp ls :
  member_id_counter (checkOut memberId now stamp ls).2 = member_id_counter ls.
Proof.
  unfold checkOut. destruct (getMemberById memberId ls); [|done].
  pose proof (updateMember_counter memberId
    {[ "lastCheckOut" := VTime now ]} ls) as Hu.
  by destruct (updateMember _ _ ls).
Qed.

(** The counter of reachable storage reads as an integer from 1000 up. *)
Lemma reachable_counter ls :
  reachable ls → ∃ n, counter_is n ls ∧ 1000 <= n.
Proof.
  induction 1 as [|ls _ (n & Hn & Hle)|ls _ (n & Hn & Hle)
                  |member now ls _ (n & Hn & Hle)|id updates ls _ (n & Hn & Hle)
                  |id ls _ (n & Hn & Hle)|memberId now stamp ls _ (n & Hn & Hle)
                  |memberId now stamp ls _ (n & Hn & Hle)].
  - exists 1000. split; [reflexivity|lia].
  - exists n. split; [|done]. unfold counter_is. by rewrite init_counter_item.
  - exists (n + 1). split; [|lia].
    rewrite (generateMemberId_counter n ls Hn). apply counter_is_setItem.
  - exists (n + 1). split; [|lia].
    eapply counter_is_ext; [apply addMember_counter|].
    rewrite (generateMemberId_counter n ls Hn). apply counter_is_setItem.
  - exists n. split; [|done].
    eapply counter_is_ext; [apply updateMember_counter|done].
  - exists n. split; [|done].
    eapply counter_is_ext; [apply deleteMember_counter|done].
  - exists n. split; [|done].
    eapply counter_is_ext; [apply checkIn_counter|done].
  - exists n. split; [|done].
    eapply counter_is_ext; [apply checkOut_counter|done].
Qed.
End WithHost.

End StorageFacts.

(** ** Facts about set and absent fields *)

Module FieldFacts.
Import JS StorageService Spec DateFacts.

Lemma is_set_or_absent v : is_set v ∨ is_absent v.
Proof. unfold is_set, is_absent. destruct (ToBoolean v); auto. Qed.

Lemma is_absent_not_set v : is_absent v ↔ ¬ is_set v.
Proof. unfold is_set, is_absent. destruct (ToBoolean v); split; congruence. Qed.

(** On a nullable timestamp, set is "holds a timestamp" and absent is
    "missing or null". *)
Lemma is_set_nullable_timestamp v :
  nullable_timestamp v →
  (is_set v ↔ ∃ t, v = Some (VTime t))
  ∧ (is_absent v ↔ v = None ∨ v = Some VNull).
Proof.
  unfold is_set, is_absent.
  intros [->|[->|[t ->]]]; simpl; split; split; try done; eauto.
  - by intros [t ?].
  - by intros [t ?].
  - by intros [|].
Qed.

(** A nullable timestamp is valid whenever it is set. *)
Lemma nullable_timestamp_valid `{Host} v :
  nullable_timestamp v → valid_when_set v.
Proof. intros [->|[->|[t ->]]]; unfold valid_when_set; simpl; eauto; done. Qed.


Section WithHost.
Context `{Host}.

Lemma calculateDaysRemaining_unset (member : option obj) (now : Z) :
  is_absent (field "membershipEndDate" member) →
  calculateDaysRemaining member now = Some 0.
Proof.
  unfold is_absent, field, calculateDaysRemaining.
  destruct member as [m|]; simpl; [|done]. by intros ->.
Qed.

Lemma calculateDaysRemaining_set (member : option obj) (now e : Z) :
  is_set (field "membershipEndDate" member) →
  Date_of_value (field "membershipEndDate" member) = Some e →
  calculateDaysRemaining member now
  = Some (Z.max 0 (Math_ceil_div (atMidnight e - atMidnight now) msPerDay)).
Proof.
  unfold is_set, field, calculateDaysRemaining.
  destruct member as [m|]; simpl; [|done]. intros -> ->. simpl.
  by rewrite !setHours_midnight.
Qed.

(** The count against the local calendar: with [k] the number of calendar
    days from today to the end date, the ceiling is [k] or [k + 1]; it is
    0 on the day of the end date, and [k] when both midnights are read
    under the same offset. *)
Lemma Math_ceil_div_midnights (now e : Z) :
  let k := Day (LocalTime e) - Day (LocalTime now) in
  let c := Math_ceil_div (atMidnight e - atMidnight now) msPerDay in
  k <= c <= k + 1
  ∧ (k = 0 → c = 0)
  ∧ (LocalTZA (Day (LocalTime now) * msPerDay) false
     = LocalTZA (Day (LocalTime e) * msPerDay) false → c = k).
Proof.
  cbv zeta.
  assert (0 < msPerDay) as Hpos by done.
  pose proof (Math_ceil_div_is_ceil (atMidnight e - atMidnight now) msPerDay
                Hpos) as Hc.
  pose proof (atMidnight_diff now e) as Hd.
  unfold is_ceil in Hc. split_and!.
  - unfold msPerDay in *. nia.
  - unfold msPerDay in *. nia.
  - intros Hk.
    assert (atMidnight e = atMidnight now) as Heq
      by (apply atMidnight_same_day; lia).
    rewrite Heq in Hc |- *. unfold msPerDay in *. nia.
  - intros Ho. rewrite (atMidnight_same_offset now e Ho) in Hc |- *.
    unfold msPerDay in *. nia.
Qed.

Lemma calculateDaysRemaining_days (member : option obj) (now e : Z) :
  is_set (field "membershipEndDate" member) →
  Date_of_value (field "membershipEndDate" member) = Some e →
  ∃ n : Z,
    calculateDaysRemaining member now = Some n
    ∧ (Day (LocalTime e) <= Day (LocalTime now) → n = 0)
    ∧ (Day (LocalTime now) < Day (LocalTime e) →
       Day (LocalTime e) - Day (LocalTime now) <= n
       <= Day (LocalTime e) - Day (LocalTime now) + 1)
    ∧ (LocalTZA (Day (LocalTime now) * msPerDay) false
       = LocalTZA (Day (LocalTime e) * msPerDay) false →
       n = Z.max 0 (Day (LocalTime e) - Day (LocalTime now))).
Proof.
  intros Hset He. rewrite (calculateDaysRemaining_set _ _ e) by done.
  destruct (Math_ceil_div_midnights now e) as ((Hlo & Hhi) & Hzero & Hsame).
  eexists. split; [reflexivity|]. split_and!.
  - intros Hle.
    destruct (decide (Day (LocalTime e) - Day (LocalTime now) = 0)) as [Hz|Hz].
    + rewrite (Hzero Hz). done.
    + lia.
  - intros Hlt. lia.
  - intros Ho. rewrite (Hsame Ho). done.
Qed.

(** A set end date that no date can be read from gives [NaN]. *)
Lemma calculateDaysRemaining_invalid (m : obj) (now : Z) :
  is_set (m !! "membershipEndDate") →
  Date_of_value (m !! "membershipEndDate") = None →
  calculateDaysRemaining (Some m) now = None.
Proof. unfold is_set, calculateDaysRemaining. by intros -> ->. Qed.

Lemma membershipEndDate_days (membershipType : string) (startDate : Z) :
  ∃ days : Z,
    MembersService.membershipEndDate membershipType startDate
    = UTC (LocalTime startDate + days * msPerDay)
    ∧ (membershipType = "monthly" → days = 30)
    ∧ (membershipType = "quarterly" → days = 90)
    ∧ (membershipType = "halfyearly" → days = 180)
    ∧ (membershipType = "annual" → days = 365)
    ∧ (membershipType ∉ ["monthly"; "quarterly"; "halfyearly"; "annual"] →
       days = 30).
Proof.
  unfold MembersService.membershipEndDate. cbv zeta.
  repeat case_bool_decide; subst; rewrite setDate_getDate;
    eexists; (split; [reflexivity|]); split_and!; intros; try done;
    set_solver.
Qed.

End WithHost.

End FieldFacts.

(** ** Attendance status and days remaining *)

Module StatusSpec.
Import JS StorageService Spec DateFacts FieldFacts.

Section WithHost.
Context `{Host}.

(** C1: for every member record, [getMemberStatus] answers ["checked-in"]
    exactly when [lastCheckIn] is set and [lastCheckOut] is absent;
    otherwise it answers ["checked-out"] exactly when [lastCheckOut] is set
    and falls on today's calendar date; and in every other case (never
    checked in, or checked out on another day) it answers
    ["not-checked-in"]. *)
Theorem getMemberStatus_spec (m : obj) (now : Z) :
  (getMemberStatus (Some m) now = "checked-in" ↔ currently_checked_in m)
  ∧ (getMemberStatus (Some m) now = "checked-out"
     ↔ ¬ currently_checked_in m ∧ checked_out_today m now)
  ∧ (getMemberStatus (Some m) now = "not-checked-in"
     ↔ ¬ currently_checked_in m ∧ ¬ checked_out_today m now).
Proof.
  assert (∃ b : bool,
    (b = true ↔ ∃ t, Date_of_value (m !! "lastCheckOut") = Some t
                     ∧ calendarDate t = calendarDate now)
    ∧ match Date_of_value (m !! "lastCheckOut") with
      | Some lastCheckOut =>
          if bool_decide (toDateString lastCheckOut = toDateString now)
          then "checked-out" else "not-checked-in"
      | None => "not-checked-in"
      end = if b then "checked-out" else "not-checked-in") as (b & Hb & Hinner).
  { destruct (Date_of_value (m !! "lastCheckOut")) as [t|].
    - exists (bool_decide (toDateString t = toDateString now)).
      split; [|done]. rewrite bool_decide_eq_true, toDateString_eq_calendarDate.
      split; [eauto|]. by intros (t' & [= <-] & ?).
    - exists false. split; [|done]. split; [done|]. by intros (t' & ? & ?). }
  unfold getMemberStatus. rewrite Hinner.
  unfold currently_checked_in, checked_out_today.
  rewrite <- Hb. unfold is_set, is_absent.
  destruct (ToBoolean (m !! "lastCheckIn")), (ToBoolean (m !! "lastCheckOut")),
    b; simpl; intuition congruence.
Qed.

(** C9: for an absent member [getMemberStatus] answers ["not-checked-in"]
    and does not fail; on every input, a member or none, it answers one of
    the three statuses. *)
Theorem getMemberStatus_absent (now : Z) :
  getMemberStatus None now = "not-checked-in"
  ∧ ∀ member : option obj,
      getMemberStatus member now
      ∈ ["checked-in"; "checked-out"; "not-checked-in"].
Proof.
  split; [done|]. intros [m|]; unfold getMemberStatus.
  - repeat case_match; set_solver.
  - set_solver.
Qed.

(** C2: for every member whose end date, when set, is a valid date (the
    data model's timestamp), and while today, the end date and their local
    midnights lie inside the range of [Date], [calculateDaysRemaining]
    returns an integer [n >= 0]; [n] is 0 when there is no end date or no
    member; otherwise [n] is the ceiling of (end date at local midnight
    minus today at local midnight) over the milliseconds of a day, floored
    at 0.  The two midnights need not lie whole days apart: across a
    change of the zone's offset the ceiling rounds up. *)
Theorem calculateDaysRemaining_spec (member : option obj) (now : Z) :
  valid_when_set (field "membershipEndDate" member) →
  dates_in_range now (field "membershipEndDate" member) →
  ∃ n : Z,
    calculateDaysRemaining member now = Some n
    ∧ 0 <= n
    ∧ (is_absent (field "membershipEndDate" member) → n = 0)
    ∧ (∀ e, is_set (field "membershipEndDate" member) →
            Date_of_value (field "membershipEndDate" member) = Some e →
            ∃ c, is_ceil (atMidnight e - atMidnight now) msPerDay c
                 ∧ n = Z.max 0 c).
Proof.
  intros Hvalid _.
  destruct (is_set_or_absent (field "membershipEndDate" member)) as [Hset|Habs].
  - destruct (Hvalid Hset) as [e He].
    exists (Z.max 0 (Math_ceil_div (atMidnight e - atMidnight now) msPerDay)).
    split_and!.
    + by apply calculateDaysRemaining_set.
    + lia.
    + intros Habs. apply is_absent_not_set in Habs. done.
    + intros e' _ He'. rewrite He in He'. injection He' as <-.
      eexists. split; [|done]. by apply Math_ceil_div_is_ceil.
  - exists 0. split_and!.
    + by apply calculateDaysRemaining_unset.
    + done.
    + done.
    + intros e Hset. apply is_absent_not_set in Habs. done.
Qed.


End WithHost.

(** In New York on 2024-11-03, the day the clocks went back, for a
    membership that ends the next day: the two local midnights are 25 hours
    apart, and 2 days remain. *)
Lemma calculateDaysRemaining_spec_witness :
  (@valid_when_set newYorkHost (field "membershipEndDate" (Some endingMember))
   ∧ @dates_in_range newYorkHost nov03noon
       (field "membershipEndDate" (Some endingMember)))
  ∧ @atMidnight newYorkHost nov04noon - @atMidnight newYorkHost nov03noon
    = 25 * msPerHour
  ∧ @calculateDaysRemaining newYorkHost (Some endingMember) nov03noon = Some 2.
Proof.
  assert (@valid_when_set newYorkHost
            (field "membershipEndDate" (Some endingMember))) as Hvalid.
  { intros _. exists nov04noon. reflexivity. }
  assert (@dates_in_range newYorkHost nov03noon
            (field "membershipEndDate" (Some endingMember))) as Hrange.
  { split.
    - split; unfold in_Date_range; vm_compute; discriminate.
    - intros e [= <-]. split; unfold in_Date_range; vm_compute; discriminate. }
  split; [done|]. split; [reflexivity|].
  destruct (@calculateDaysRemaining_spec newYorkHost (Some endingMember)
              nov03noon Hvalid Hrange) as (n & Hn & _ & _ & Hceil).
  destruct (Hceil nov04noon eq_refl eq_refl) as (c & Hc & ->).
  rewrite Hn. f_equal.
  change (@atMidnight newYorkHost nov04noon - @atMidnight newYorkHost nov03noon)
    with 90000000 in Hc.
  unfold is_ceil, msPerDay in Hc. lia.
Defined.


End StatusSpec.

(** ** The member store and the attendance transitions *)

Module StorageSpec.
Import JS StorageService Spec StorageFacts.

Section WithHost.
Context `{Host}.

(** C3: when no member has the id, [checkIn] returns [null] and storage is
    as before.  When a member has it, [checkIn] takes the first such
    member, the one [getMemberById] finds, sets its [lastCheckIn] to now
    and its [lastCheckOut] to [null] with every other field and every
    other member as before, appends exactly one attendance record of type
    ["check-in"] with timestamp now, and returns that record. *)
Theorem checkIn_spec (memberId : string) (now stamp : Z) (ls : LocalStorage) :
  (Forall (λ m, ¬ has_id memberId m) (getMembers ls) →
   checkIn memberId now stamp ls = (None, ls))
  ∧
  (Exists (has_id memberId) (getMembers ls) →
   ∃ (index : nat) (member member' record : obj) (ls' : LocalStorage),
     getMemberById memberId ls = Some member
     ∧ getMembers ls !! index = Some member
     ∧ checkIn memberId now stamp ls = (Some record, ls')
     ∧ record !! "type" = Some (VStr "check-in")
     ∧ record !! "timestamp" = Some (VTime now)
     ∧ record !! "memberId" = Some (VStr memberId)
     ∧ getAttendance ls' = getAttendance ls ++ [record]
     ∧ getMembers ls' = <[index := member']> (getMembers ls)
     ∧ getMemberById memberId ls' = Some member'
     ∧ member' !! "lastCheckIn" = Some (VTime now)
     ∧ member' !! "lastCheckOut" = Some VNull
     ∧ (∀ k, k ≠ "lastCheckIn" → k ≠ "lastCheckOut" →
            member' !! k = member !! k)
     ∧ member_id_counter ls' = member_id_counter ls).
Proof.
  split.
  - intros Hno. apply getMemberById_None in Hno.
    unfold checkIn. by rewrite Hno.
  - intros Hex. apply list_find_Exists in Hex as [[index member] Hf].
    pose proof Hf as Hf'. apply list_find_Some in Hf' as (Hl & Hid & _).
    set (updates :=
           ({[ "lastCheckIn" := VTime now; "lastCheckOut" := VNull ]} : obj)).
    set (record := attendanceRecord "check-in" memberId now stamp).
    destruct (attendanceRecord_fields "check-in" memberId now stamp)
      as (Ht & Hts & Hm).
    assert (has_id memberId (updates ∪ member)) as Hid'.
    { unfold has_id, updates. rewrite lookup_union_r; [done|].
      by simplify_map_eq. }
    exists index, member, (updates ∪ member), record.
    exists (saveAttendance (getAttendance ls ++ [record])
              (saveMembers (<[index := updates ∪ member]> (getMembers ls)) ls)).
    split_and!.
    + unfold getMemberById. by rewrite Hf.
    + done.
    + unfold checkIn, getMemberById. rewrite Hf. simpl.
      by rewrite (updateMember_found _ _ _ _ _ Hf).
    + done.
    + done.
    + done.
    + done.
    + done.
    + unfold getMemberById.
      rewrite getMembers_saveAttendance, getMembers_saveMembers.
      by rewrite (list_find_insert_same _ _ _ _ _ Hf Hid').
    + unfold updates. apply lookup_union_Some_l. by simplify_map_eq.
    + unfold updates. apply lookup_union_Some_l. by simplify_map_eq.
    + intros k Hk1 Hk2. unfold updates. apply lookup_union_r.
      by simplify_map_eq.
    + done.
Qed.

(** C4: when a member has the id, [checkOut] takes the first such member
    and sets only its [lastCheckOut] to now: [lastCheckIn] and every other
    field of it, and every other member, are as before; it appends one
    attendance record of type ["check-out"] and returns it.  When no member
    has the id it returns [null] and storage is as before. *)
Theorem checkOut_spec (memberId : string) (now stamp : Z) (ls : LocalStorage) :
  (Forall (λ m, ¬ has_id memberId m) (getMembers ls) →
   checkOut memberId now stamp ls = (None, ls))
  ∧
  (Exists (has_id memberId) (getMembers ls) →
   ∃ (index : nat) (member record : obj) (ls' : LocalStorage),
     getMemberById memberId ls = Some member
     ∧ getMembers ls !! index = Some member
     ∧ checkOut memberId now stamp ls = (Some record, ls')
     ∧ record !! "type" = Some (VStr "check-out")
     ∧ record !! "timestamp" = Some (VTime now)
     ∧ record !! "memberId" = Some (VStr memberId)
     ∧ getAttendance ls' = getAttendance ls ++ [record]
     ∧ getMembers ls'
       = <[index := <["lastCheckOut" := VTime now]> member]> (getMembers ls)
     ∧ (∃ member' : obj,
          getMembers ls' !! index = Some member'
          ∧ member' !! "lastCheckOut" = Some (VTime now)
          ∧ member' !! "lastCheckIn" = member !! "lastCheckIn"
          ∧ ∀ k, k ≠ "lastCheckOut" → member' !! k = member !! k)
     ∧ (∀ j, j ≠ index → getMembers ls' !! j = getMembers ls !! j)
     ∧ length (getMembers ls') = length (getMembers ls)
     ∧ member_id_counter ls' = member_id_counter ls).
Proof.
  split.
  - intros Hno. apply getMemberById_None in Hno.
    unfold checkOut. by rewrite Hno.
  - intros Hex. apply list_find_Exists in Hex as [[index member] Hf].
    pose proof Hf as Hf'. apply list_find_Some in Hf' as (Hl & Hid & _).
    set (record := attendanceRecord "check-out" memberId now stamp).
    destruct (attendanceRecord_fields "check-out" memberId now stamp)
      as (Ht & Hts & Hm).
    set (member' := <["lastCheckOut" := VTime now]> member).
    assert (({["lastCheckOut" := VTime now]} : obj) ∪ member = member') as Hu.
    { symmetry. apply insert_union_singleton_l. }
    exists index, member, record.
    exists (saveAttendance (getAttendance ls ++ [record])
              (saveMembers (<[index := member']> (getMembers ls)) ls)).
    split_and!.
    + unfold getMemberById. by rewrite Hf.
    + done.
    + unfold checkOut, getMemberById. rewrite Hf. simpl.
      rewrite (updateMember_found _ _ _ _ _ Hf). by rewrite Hu.
    + done.
    + done.
    + done.
    + done.
    + done.
    + exists member'. split_and!.
      * rewrite getMembers_saveAttendance, getMembers_saveMembers.
        apply list_lookup_insert_eq. by eapply lookup_lt_Some.
      * unfold member'. by simplify_map_eq.
      * unfold member'. by simplify_map_eq.
      * intros k Hk. unfold member'. by simplify_map_eq.
    + intros j Hj. rewrite getMembers_saveAttendance, getMembers_saveMembers.
      by apply list_lookup_insert_ne.
    + rewrite getMembers_saveAttendance, getMembers_saveMembers.
      apply length_insert.
    + done.
Qed.

End WithHost.

(** C8: when no stored member has the id, [deleteMember] returns [false]
    and storage is as before; when one has it, [deleteMember] returns
    [true] and the stored members are the earlier ones without those whose
    id matches exactly, in the same order. *)
Theorem deleteMember_spec (id : string) (ls : LocalStorage) :
  (Forall (λ m, ¬ has_id id m) (getMembers ls) →
   deleteMember id ls = (false, ls))
  ∧
  (Exists (has_id id) (getMembers ls) →
   ∃ ls' : LocalStorage,
     deleteMember id ls = (true, ls')
     ∧ getMembers ls' = filter (λ m, ¬ has_id id m) (getMembers ls)
     ∧ Forall (λ m, ¬ has_id id m) (getMembers ls')
     ∧ (∀ m, m ∈ getMembers ls' ↔ m ∈ getMembers ls ∧ ¬ has_id id m)
     ∧ sublist (getMembers ls') (getMembers ls)
     ∧ gym_attendance ls' = gym_attendance ls
     ∧ member_id_counter ls' = member_id_counter ls).
Proof.
  split.
  - intros Hno. unfold deleteMember. cbv zeta.
    rewrite (filter_all _ _ Hno). by rewrite bool_decide_eq_true_2.
  - intros Hex. apply Exists_exists in Hex as (m & Hin & Hm).
    exists (saveMembers (filter (λ m, ¬ has_id id m) (getMembers ls)) ls).
    split_and!.
    + unfold deleteMember. cbv zeta. rewrite bool_decide_eq_false_2; [done|].
      pose proof (length_filter_lt (λ m, ¬ has_id id m) (getMembers ls) m Hin)
        as Hlt.
      intros Heq. rewrite Heq in Hlt.
      apply (Nat.lt_irrefl _ (Hlt ltac:(tauto))).
    + done.
    + rewrite getMembers_saveMembers. apply Forall_forall.
      intros x Hx. by apply list_elem_of_filter in Hx as [? _].
    + intros x. rewrite getMembers_saveMembers, list_elem_of_filter. tauto.
    + rewrite getMembers_saveMembers. apply sublist_filter.
    + done.
    + done.
Qed.

(** C10: for every partial member, the record [addMember] returns, which is
    also the record it stores, has the freshly generated id, the
    registration date now, and [lastCheckIn] and [lastCheckOut] [null],
    whatever the caller supplied for these four fields; every other field
    is the caller's; and the stored members are the earlier ones followed
    by this one record. *)
Theorem addMember_spec (member : obj) (now : Z) (ls : LocalStorage) :
  ∃ (newMember : obj) (ls' : LocalStorage),
    addMember member now ls = (newMember, ls')
    ∧ newMember !! "id" = Some (VStr (generateMemberId ls).1)
    ∧ newMember !! "registrationDate" = Some (VTime now)
    ∧ newMember !! "lastCheckIn" = Some VNull
    ∧ newMember !! "lastCheckOut" = Some VNull
    ∧ (∀ k, k ≠ "id" → k ≠ "registrationDate" → k ≠ "lastCheckIn" →
           k ≠ "lastCheckOut" → newMember !! k = member !! k)
    ∧ getMembers ls' = getMembers ls ++ [newMember]
    ∧ gym_attendance ls' = gym_attendance ls
    ∧ member_id_counter ls' = member_id_counter (generateMemberId ls).2.
Proof.
  unfold addMember. destruct (generateMemberId ls) as [newId ls1] eqn:Hg.
  eexists _, _. split; [reflexivity|].
  assert (gym_attendance ls1 = gym_attendance ls) as Ha.
  { unfold generateMemberId in Hg. by injection Hg as _ <-. }
  unfold newMember_of. split_and!; try by simplify_map_eq.
  intros k ????. by simplify_map_eq.
Qed.

(** C6: when the persisted counter reads as [n] (1000 when it was never
    set), [generateMemberId] persists [n + 1] and returns it as a string.
    From a counter [n >= 1000], with the integers staying safe, [k]
    successive calls return the strings of [n + 1], ..., [n + k]: strictly
    increasing as numbers, without repetition, and all above 1000. *)
Theorem generateMemberId_sequence (ls : LocalStorage) (n : Z) (k : nat) :
  counter_is n ls →
  1000 <= n →
  n + Z.of_nat k <= MAX_SAFE_INTEGER →
  (member_id_counter ls = None → n = 1000)
  ∧ generateMemberId ls
    = (Number_toString (Some (n + 1)),
       setItem_COUNTER (Number_toString (Some (n + 1))) ls)
  ∧ counter_is (n + 1) (generateMemberId ls).2
  ∧ length (generateMemberIds k ls).1 = k
  ∧ (∀ (i : nat) id, (generateMemberIds k ls).1 !! i = Some id →
       id = Number_toString (Some (n + 1 + Z.of_nat i))
       ∧ parseInt id = Some (n + 1 + Z.of_nat i))
  ∧ (∀ (i j : nat) a b,
       (generateMemberIds k ls).1 !! i = Some a →
       (generateMemberIds k ls).1 !! j = Some b →
       (i < j)%nat →
       ∃ x y, parseInt a = Some x ∧ parseInt b = Some y ∧ x < y)
  ∧ NoDup (generateMemberIds k ls).1
  ∧ (∀ id, id ∈ (generateMemberIds k ls).1 →
       ∃ x, parseInt id = Some x ∧ 1000 < x)
  ∧ counter_is (n + Z.of_nat k) (generateMemberIds k ls).2.
Proof.
  intros Hn Hlow Hsafe.
  destruct (generateMemberIds_counter k n ls Hn) as [Hids Hc].
  assert (∀ (i : nat) id, (generateMemberIds k ls).1 !! i = Some id →
            id = pretty (n + 1 + Z.of_nat i)
            ∧ parseInt id = Some (n + 1 + Z.of_nat i)) as Hlook.
  { intros i id. rewrite Hids, list_lookup_fmap.
    intros Hi. apply fmap_Some in Hi as (i' & Hi' & ->).
    apply lookup_seq in Hi' as [-> _]. simpl.
    split; [done|]. apply StringFacts.parseInt_pretty. }
  split_and!.
  - intros Hnone. by eapply counter_is_unset.
  - by apply generateMemberId_counter.
  - rewrite (generateMemberId_counter n ls Hn). apply counter_is_setItem.
  - rewrite Hids, length_fmap. apply length_seq.
  - done.
  - intros i j a b Ha Hb Hlt.
    destruct (Hlook i a Ha) as [_ Hpa], (Hlook j b Hb) as [_ Hpb].
    eexists _, _. split_and!; [done|done|lia].
  - apply NoDup_alt. intros i j id Hi Hj.
    destruct (Hlook i id Hi) as [_ Hpi], (Hlook j id Hj) as [_ Hpj].
    rewrite Hpi in Hpj. injection Hpj. lia.
  - intros id Hin. apply list_elem_of_lookup in Hin as [i Hi].
    destruct (Hlook i id Hi) as [_ Hpi]. eexists. split; [done|]. lia.
  - done.
Qed.

End StorageSpec.

(** ** Registration *)

Module MembersSpec.
Import JS StorageService MembersService Spec DateFacts FieldFacts.

Section WithHost.
Context `{Host}.

(** A form with an empty required field registers nobody. *)
Lemma handleRegistration_rejected (form : RegistrationForm) (now regNow : Z)
    (ls : LocalStorage) :
  trim (new_name form) = "" ∨ trim (new_email form) = ""
  ∨ trim (new_phone form) = "" ∨ membership_type form = "" →
  handleRegistration form now regNow ls = (None, ls).
Proof.
  intros Hempty. unfold handleRegistration. cbv zeta.
  repeat case_bool_decide; simpl; try done. tauto.
Qed.


End WithHost.



End MembersSpec.

(** ** Worked examples *)

Module Examples.
Import JS StorageService MembersService Spec.

(** Nobody has id 9999 in the example storage, so the check-in is refused;
    member 1001 is there, and checking in records it. *)
Lemma checkIn_spec_witness :
  (Forall (λ m, ¬ has_id "9999" m) (getMembers exampleStorage)
   ∧ @checkIn utcHost "9999" feb01 feb01 exampleStorage
     = (None, exampleStorage))
  ∧ (Exists (has_id "1001") (getMembers exampleStorage)
     ∧ ∃ (member' record : obj) (ls' : LocalStorage),
         @checkIn utcHost "1001" feb01 feb01 exampleStorage
         = (Some record, ls')
         ∧ getAttendance ls' = [record]
         ∧ getMemberById "1001" ls' = Some member'
         ∧ member' !! "lastCheckIn" = Some (VTime feb01)
         ∧ member' !! "lastCheckOut" = Some VNull).
Proof.
  assert (Forall (λ m, ¬ has_id "9999" m) (getMembers exampleStorage)) as Hno.
  { repeat constructor. intros Hid. discriminate Hid. }
  assert (Exists (has_id "1001") (getMembers exampleStorage)) as Hex.
  { constructor. reflexivity. }
  split.
  - split; [exact Hno|].
    exact (proj1 (@StorageSpec.checkIn_spec utcHost "9999" feb01 feb01
                    exampleStorage) Hno).
  - split; [exact Hex|].
    destruct (proj2 (@StorageSpec.checkIn_spec utcHost "1001" feb01 feb01
                       exampleStorage) Hex)
      as (index & member & member' & record & ls' & _ & _ & Hin & _ & _ & _
          & Hatt & _ & Hget & Hci & Hco & _).
    exists member', record, ls'. done.
Defined.

(** The same storage: checking out 9999 is refused, checking out 1001
    stamps its [lastCheckOut] and leaves its [lastCheckIn]. *)
Lemma checkOut_spec_witness :
  (Forall (λ m, ¬ has_id "9999" m) (getMembers exampleStorage)
   ∧ @checkOut utcHost "9999" feb01 feb01 exampleStorage
     = (None, exampleStorage))
  ∧ (Exists (has_id "1001") (getMembers exampleStorage)
     ∧ ∃ (record : obj) (ls' : LocalStorage),
         @checkOut utcHost "1001" feb01 feb01 exampleStorage
         = (Some record, ls')
         ∧ getAttendance ls' = [record]
         ∧ getMembers ls'
           = [<["lastCheckOut" := VTime feb01]> exampleMember]).
Proof.
  assert (Forall (λ m, ¬ has_id "9999" m) (getMembers exampleStorage)) as Hno.
  { repeat constructor. intros Hid. discriminate Hid. }
  assert (Exists (has_id "1001") (getMembers exampleStorage)) as Hex.
  { constructor. reflexivity. }
  split.
  - split; [exact Hno|].
    exact (proj1 (@StorageSpec.checkOut_spec utcHost "9999" feb01 feb01
                    exampleStorage) Hno).
  - split; [exact Hex|].
    destruct (proj2 (@StorageSpec.checkOut_spec utcHost "1001" feb01 feb01
                       exampleStorage) Hex)
      as (index & member & record & ls' & Hget & Hl & Hout & _ & _ & _
          & Hatt & Hmem & _).
    exists record, ls'. split; [done|]. split; [done|].
    rewrite Hmem. injection Hget as <-.
    destruct index as [|index]; [done|]. discriminate Hl.
Defined.

(** Deleting 9999 changes nothing; deleting 1001 empties the store. *)
Lemma deleteMember_spec_witness :
  (Forall (λ m, ¬ has_id "9999" m) (getMembers exampleStorage)
   ∧ deleteMember "9999" exampleStorage = (false, exampleStorage))
  ∧ (Exists (has_id "1001") (getMembers exampleStorage)
     ∧ ∃ ls' : LocalStorage,
         deleteMember "1001" exampleStorage = (true, ls')
         ∧ getMembers ls' = []).
Proof.
  assert (Forall (λ m, ¬ has_id "9999" m) (getMembers exampleStorage)) as Hno.
  { repeat constructor. intros Hid. discriminate Hid. }
  assert (Exists (has_id "1001") (getMembers exampleStorage)) as Hex.
  { constructor. reflexivity. }
  split.
  - split; [exact Hno|].
    exact (proj1 (StorageSpec.deleteMember_spec "9999" exampleStorage) Hno).
  - split; [exact Hex|].
    destruct (proj2 (StorageSpec.deleteMember_spec "1001" exampleStorage) Hex)
      as (ls' & Hdel & Hmem & _).
    exists ls'. split; [done|]. rewrite Hmem. reflexivity.
Defined.

(** Three ids from fresh storage: 1001, 1002, 1003. *)
Lemma generateMemberId_sequence_witness :
  (counter_is 1000 (init emptyStorage)
   ∧ 1000 <= 1000
   ∧ 1000 + Z.of_nat 3 <= MAX_SAFE_INTEGER)
  ∧ generateMemberId (init emptyStorage)
    = ("1001", setItem_COUNTER "1001" (init emptyStorage))
  ∧ NoDup (generateMemberIds 3 (init emptyStorage)).1
  ∧ (∀ id, id ∈ (generateMemberIds 3 (init emptyStorage)).1 →
       ∃ x, parseInt id = Some x ∧ 1000 < x).
Proof.
  assert (counter_is 1000 (init emptyStorage)) as Hc by reflexivity.
  assert (1000 <= 1000) as Hlow by lia.
  assert (1000 + Z.of_nat 3 <= MAX_SAFE_INTEGER) as Hsafe
    by (unfold MAX_SAFE_INTEGER; lia).
  split; [done|].
  destruct (StorageSpec.generateMemberId_sequence (init emptyStorage) 1000 3
              Hc Hlow Hsafe)
    as (_ & Hgen & _ & _ & _ & _ & Hnodup & Habove & _).
  done.
Defined.

(** The scenarios of the specification, on the UTC host. *)

Example quarterly_ends_mar31 :
  @membershipEndDate utcHost "quarterly" jan01 = mar31.
Proof. reflexivity. Qed.

Example mar31_is_date :
  @toDateString utcHost mar31
  = {| ds_weekday := 0; ds_month := 2; ds_date := 31; ds_year := 2024 |}.
Proof. reflexivity. Qed.

Example days_remaining_feb01 :
  @calculateDaysRemaining utcHost (Some exampleMember) feb01 = Some 59.
Proof. reflexivity. Qed.

Example status_checked_in :
  @getMemberStatus utcHost
    (Some (<["lastCheckIn" := VTime jan01]> exampleMember)) feb01
  = "checked-in".
Proof. reflexivity. Qed.

Example status_checked_out_yesterday :
  @getMemberStatus utcHost
    (Some (<["lastCheckOut" := VTime (feb01 - msPerDay)]>
             (<["lastCheckIn" := VTime (feb01 - msPerDay - 1)]> exampleMember)))
    feb01
  = "not-checked-in".
Proof. reflexivity. Qed.

Example status_checked_out_today :
  @getMemberStatus utcHost
    (Some (<["lastCheckOut" := VTime (feb01 + 2)]>
             (<["lastCheckIn" := VTime (feb01 + 1)]> exampleMember)))
    (feb01 + 3)
  = "checked-out".
Proof. reflexivity. Qed.

(** A check-out at 19:00 UTC on 2024-01-31 is a check-out of 2024-02-01
    east of UTC, and of the day before in the UTC zone. *)
Example status_follows_local_day :
  let m := <["lastCheckOut" := VTime (feb01 - 5 * msPerHour)]>
             (<["lastCheckIn" := VTime (feb01 - 6 * msPerHour)]> exampleMember)
  in
  @getMemberStatus eastHost (Some m) (feb01 + 10 * msPerHour) = "checked-out"
  ∧ @getMemberStatus utcHost (Some m) (feb01 + 10 * msPerHour)
    = "not-checked-in".
Proof. split; reflexivity. Qed.

Example days_remaining_east :
  @calculateDaysRemaining eastHost (Some exampleMember)
    (feb01 - 5 * msPerHour)
  = Some 59.
Proof. reflexivity. Qed.

Example delete_missing :
  deleteMember "9999" exampleStorage = (false, exampleStorage).
Proof. reflexivity. Qed.

(** An end date that is no date gives [NaN]. *)
Example days_remaining_not_a_date :
  @calculateDaysRemaining utcHost
    (Some (<["membershipEndDate" := VStr "soon"]> exampleMember)) feb01
  = None.
Proof. reflexivity. Qed.

(** So does a number beyond the range of [Date]. *)
Example days_remaining_out_of_range :
  @calculateDaysRemaining utcHost
    (Some (<["membershipEndDate" := VNum (maxTime + 1)]> exampleMember)) feb01
  = None.
Proof. reflexivity. Qed.

(** Where the clocks change.  New York, 2024-11-03, lasted 25 hours: a
    check-out at 00:30 is still a check-out of today at 23:30, 24 hours
    later. *)
Example status_on_the_long_day :
  let m := <["lastCheckOut" := VTime (nov03noon - 12 * msPerHour
                                      - 30 * msPerMinute)]>
             (<["lastCheckIn" := VTime (nov03noon - 13 * msPerHour)]>
                exampleMember)
  in
  @getMemberStatus newYorkHost (Some m)
    (nov03noon + 11 * msPerHour + 30 * msPerMinute)
  = "checked-out".
Proof. vm_compute. reflexivity. Qed.

(** On that day the midnight of the next lies 25 hours ahead, and the
    ceiling makes two days of it. *)
Example days_remaining_long_day :
  @setHours newYorkHost nov04noon 0 0 0 0 - @setHours newYorkHost nov03noon 0 0 0 0
  = 25 * msPerHour
  ∧ Math_ceil_div (25 * msPerHour) msPerDay = 2
  ∧ 25 * msPerHour / msPerDay = 1
  ∧ @calculateDaysRemaining newYorkHost (Some endingMember) nov03noon = Some 2.
Proof. vm_compute. split_and!; reflexivity. Qed.

(** A month from 2024-10-20 ends an hour more than 30 days later, at the
    same time of day. *)
Example monthly_across_clock_change :
  @membershipEndDate newYorkHost "monthly" oct20noon
  = oct20noon + 30 * msPerDay + msPerHour
  ∧ TimeWithinDay (@LocalTime newYorkHost
                     (@membershipEndDate newYorkHost "monthly" oct20noon))
    = 12 * msPerHour.
Proof. vm_compute. split; reflexivity. Qed.

(** White space includes the no-break space: around an id it comes off,
    and [parseInt] skips it. *)
Example trim_no_break_space :
  trim (String nbsp "1001" +:+ String nbsp "") = "1001"
  ∧ trim (String nbsp "") = ""
  ∧ parseInt (String nbsp "1000") = Some 1000.
Proof. vm_compute. split_and!; reflexivity. Qed.

Example checkIn_no_break_space :
  ∃ p,
    (@AttendanceService.handleCheckIn utcHost (UISpec.constClock feb01)
       (UISpec.pageWith ("1001" +:+ String nbsp ""))
       UISpec.registeredStorage).1 = Some p
    ∧ AttendanceService.notification p
      = Some ("Check-in successful!", "success").
Proof. vm_compute. eexists. split; reflexivity. Qed.

(** Lower-casing reaches the accented letters: a search in lower case
    finds a name stored in upper case. *)
Example search_accented_name :
  MembersList.toLowerCase ("JOS" +:+ String E_acute "")
  = "jos" +:+ String e_acute ""
  ∧ ∃ card,
      @MembersList.handleSearch utcHost ("jos" +:+ String e_acute "")
        (UISpec.constClock feb01)
        {| gym_members :=
             Some [<["name" := VStr ("JOS" +:+ String E_acute "")]>
                     exampleMember];
           gym_attendance := Some [];
           member_id_counter := Some "1001" |}
      = Some (MembersList.Cards [card])
      ∧ MembersList.card_id card = Some (VStr "1001").
Proof. vm_compute. split; [reflexivity|]. eexists. split; reflexivity. Qed.

End Examples.

(** ** More facts about lookups in the member list *)

Module LookupFacts.
Import JS StorageService Spec StorageFacts.

(** Replacing an element that fails the test by another that fails it does
    not change what [list_find] finds. *)
Lemma list_find_insert_other {A} (P : A → Prop) `{!∀ x, Decision (P x)}
    (l : list A) (i : nat) (x y : A) :
  l !! i = Some x → ¬ P x → ¬ P y →
  list_find P (<[i := y]> l) = list_find P l.
Proof.
  revert i. induction l as [|z l IH]; intros i Hl Hx Hy; [done|].
  destruct i as [|i]; simpl in *.
  - injection Hl as ->. by rewrite !decide_False.
  - case_decide; [done|]. by rewrite (IH i).
Qed.

Lemma getMemberById_has_id id ls m :
  getMemberById id ls = Some m → has_id id m ∧ m ∈ getMembers ls.
Proof.
  unfold getMemberById. intros Hm.
  apply fmap_Some in Hm as ([i m'] & Hf & ->).
  apply list_find_Some in Hf as (Hl & Hid & _).
  split; [done|]. by eapply list_elem_of_lookup_2.
Qed.

Lemma getMemberById_find id ls m :
  getMemberById id ls = Some m →
  ∃ i, list_find (has_id id) (getMembers ls) = Some (i, m).
Proof.
  unfold getMemberById. intros Hm.
  apply fmap_Some in Hm as ([i m'] & Hf & ->). eauto.
Qed.

Lemma find_getMemberById id ls index member :
  list_find (has_id id) (getMembers ls) = Some (index, member) →
  getMemberById id ls = Some member.
Proof. intros Hf. unfold getMemberById. by rewrite Hf. Qed.

Lemma has_id_inj id id' m : has_id id m → has_id id' m → id = id'.
Proof. unfold has_id. congruence. Qed.

(** The storage a transition leaves when the member is found. *)
Lemma checkIn_found `{Host} memberId now stamp ls index old :
  list_find (has_id memberId) (getMembers ls) = Some (index, old) →
  checkIn memberId now stamp ls
  = (Some (attendanceRecord "check-in" memberId now stamp),
     saveAttendance
       (getAttendance ls ++ [attendanceRecord "check-in" memberId now stamp])
       (saveMembers
          (<[index := <["lastCheckIn" := VTime now]>
                        (<["lastCheckOut" := VNull]> old)]> (getMembers ls))
          ls)).
Proof.
  intros Hf. unfold checkIn, getMemberById. rewrite Hf. simpl.
  rewrite (updateMember_found _ _ _ _ _ Hf).
  do 4 f_equal. rewrite <- insert_union_l, <- insert_union_singleton_l. done.
Qed.

Lemma checkOut_found `{Host} memberId now stamp ls index old :
  list_find (has_id memberId) (getMembers ls) = Some (index, old) →
  checkOut memberId now stamp ls
  = (Some (attendanceRecord "check-out" memberId now stamp),
     saveAttendance
       (getAttendance ls ++ [attendanceRecord "check-out" memberId now stamp])
       (saveMembers
          (<[index := <["lastCheckOut" := VTime now]> old]> (getMembers ls))
          ls)).
Proof.
  intros Hf. unfold checkOut, getMemberById. rewrite Hf. simpl.
  rewrite (updateMember_found _ _ _ _ _ Hf).
  do 4 f_equal. by rewrite <- insert_union_singleton_l.
Qed.

Lemma checkIn_missing `{Host} memberId now stamp ls :
  list_find (has_id memberId) (getMembers ls) = None →
  checkIn memberId now stamp ls = (None, ls).
Proof. intros Hf. unfold checkIn, getMemberById. by rewrite Hf. Qed.

Lemma checkOut_missing `{Host} memberId now stamp ls :
  list_find (has_id memberId) (getMembers ls) = None →
  checkOut memberId now stamp ls = (None, ls).
Proof. intros Hf. unfold checkOut, getMemberById. by rewrite Hf. Qed.

(** [getMemberStatus] answers ["checked-in"] exactly on the boolean test. *)
Lemma getMemberStatus_checked_in_b `{Host} (m : obj) (now : Z) :
  getMemberStatus (Some m) now = "checked-in" ↔ UISpec.checked_in_b m = true.
Proof.
  unfold getMemberStatus, UISpec.checked_in_b.
  destruct (ToBoolean (m !! "lastCheckIn") && negb (ToBoolean (m !! "lastCheckOut")));
    [done|].
  split; [|done]. repeat case_match; done.
Qed.

End LookupFacts.

(** ** Facts about the attendance handlers *)

Module HandlerFacts.
Import JS StorageService Spec StorageFacts LookupFacts AttendanceService UISpec.

Section WithHost.
Context `{Host}.

Lemma getMemberById_value_has_id id ls :
  getMemberById_value (Some (VStr id)) ls = getMemberById id ls.
Proof.
  reflexivity.
Qed.

Lemma displayMemberInfo_found member status t1 t2 page ls id m' :
  has_id id member →
  getMemberById id ls = Some m' →
  ∃ info,
    displayMemberInfo (Some member) status t1 t2 page ls
    = Some {| member_id := member_id page;
              notification := notification page;
              member_info := Some info |}
    ∧ attendance_status_class info = shown_status status m' t2
    ∧ attendance_status_display info
      = formatStatus (shown_status status m' t2)
    ∧ days_remaining_display info = calculateDaysRemaining (Some m') t1
    ∧ member_id_display info = m' !! "id"
    ∧ member_name_display info = m' !! "name".
Proof.
  intros Hid Hget. unfold displayMemberInfo. rewrite Hid.
  rewrite getMemberById_value_has_id, Hget.
  eexists. split; [reflexivity|]. simpl. done.
Qed.

(** The member a transition leaves under the id. *)
Lemma getMemberById_checkIn memberId now stamp ls index old :
  list_find (has_id memberId) (getMembers ls) = Some (index, old) →
  getMemberById memberId (checkIn memberId now stamp ls).2
  = Some (<["lastCheckIn" := VTime now]> (<["lastCheckOut" := VNull]> old)).
Proof.
  intros Hf. rewrite (checkIn_found _ _ _ _ _ _ Hf). cbn [snd].
  unfold getMemberById.
  rewrite getMembers_saveAttendance, getMembers_saveMembers.
  rewrite (list_find_insert_same _ _ _ _ _ Hf); [done|].
  apply list_find_Some in Hf as (_ & Hid & _).
  unfold has_id in *. by simplify_map_eq.
Qed.

Lemma getMemberById_checkOut memberId now stamp ls index old :
  list_find (has_id memberId) (getMembers ls) = Some (index, old) →
  getMemberById memberId (checkOut memberId now stamp ls).2
  = Some (<["lastCheckOut" := VTime now]> old).
Proof.
  intros Hf. rewrite (checkOut_found _ _ _ _ _ _ Hf). cbn [snd].
  unfold getMemberById.
  rewrite getMembers_saveAttendance, getMembers_saveMembers.
  rewrite (list_find_insert_same _ _ _ _ _ Hf); [done|].
  apply list_find_Some in Hf as (_ & Hid & _).
  unfold has_id in *. by simplify_map_eq.
Qed.

Lemma handleCheckIn_outcome clk page ls :
  checkIn_outcome clk page ls (handleCheckIn clk page ls).
Proof.
  unfold handleCheckIn. cbv zeta.
  case_bool_decide as Hid; [by constructor|].
  destruct (getMemberById (trim (member_id page)) ls) as [member|] eqn:Hget;
    [|by constructor].
  destruct (getMemberById_find _ _ _ Hget) as [index Hf].
  destruct (getMemberById_has_id _ _ _ Hget) as [Hhas _].
  destruct (le_zero _) eqn:Hdays.
  - destruct (displayMemberInfo_found member None (clk 1%nat) (clk 2%nat)
                (showNotification
                   "Membership has expired. Please renew to continue."
                   "error" page) ls _ _ Hhas Hget) as (info & -> & _).
    simpl. by eapply ci_expired.
  - case_bool_decide as Hst.
    + destruct (displayMemberInfo_found member None (clk 2%nat) (clk 3%nat)
                  (showNotification "Member is already checked in."
                     "error" page) ls _ _ Hhas Hget) as (info & -> & _).
      simpl. by eapply ci_already.
    + pose proof (getMemberById_checkIn _ (clk 2%nat) (clk 3%nat) _ _ _ Hf)
        as Hafter.
      destruct (checkIn (trim (member_id page)) (clk 2%nat) (clk 3%nat) ls)
        as [r ls1] eqn:Hci. cbn [snd] in Hafter. rewrite Hafter.
      assert (has_id (trim (member_id page))
                (<["lastCheckIn" := VTime (clk 2%nat)]>
                   (<["lastCheckOut" := VNull]> member))) as Hhas'.
      { unfold has_id in *. by simplify_map_eq. }
      destruct (displayMemberInfo_found _ (Some "checked-in") (clk 4%nat)
                  (clk 5%nat)
                  (showNotification "Check-in successful!" "success" page)
                  ls1 _ _ Hhas' Hafter)
        as (info & -> & Hclass & Hdisp & _).
      simpl. unfold clear_input. simpl.
      replace ls1 with
        (checkIn (trim (member_id page)) (clk 2%nat) (clk 3%nat) ls).2
        by by rewrite Hci.
      by eapply ci_success.
Qed.

Lemma handleCheckOut_outcome clk page ls :
  checkOut_outcome clk page ls (handleCheckOut clk page ls).
Proof.
  unfold handleCheckOut. cbv zeta.
  case_bool_decide as Hid; [by constructor|].
  destruct (getMemberById (trim (member_id page)) ls) as [member|] eqn:Hget;
    [|by constructor].
  destruct (getMemberById_find _ _ _ Hget) as [index Hf].
  destruct (getMemberById_has_id _ _ _ Hget) as [Hhas _].
  case_bool_decide as Hst; cbn [negb].
  - pose proof (getMemberById_checkOut _ (clk 1%nat) (clk 2%nat) _ _ _ Hf)
      as Hafter.
    destruct (checkOut (trim (member_id page)) (clk 1%nat) (clk 2%nat) ls)
      as [r ls1] eqn:Hco. cbn [snd] in Hafter. rewrite Hafter.
    assert (has_id (trim (member_id page))
              (<["lastCheckOut" := VTime (clk 1%nat)]> member)) as Hhas'.
    { unfold has_id in *. by simplify_map_eq. }
    destruct (displayMemberInfo_found _ (Some "checked-out") (clk 3%nat)
                (clk 4%nat)
                (showNotification "Check-out successful!" "success" page)
                ls1 _ _ Hhas' Hafter)
      as (info & -> & Hclass & Hdisp & _).
    simpl. unfold clear_input. simpl.
    replace ls1 with
      (checkOut (trim (member_id page)) (clk 1%nat) (clk 2%nat) ls).2
      by by rewrite Hco.
    by eapply co_success.
  - destruct (displayMemberInfo_found member None (clk 1%nat) (clk 2%nat)
                (showNotification "Member is not currently checked in."
                   "error" page) ls _ _ Hhas Hget) as (info & -> & _).
    simpl. by eapply co_not_in.
Qed.

End WithHost.

End HandlerFacts.

(** ** The invariant of the storage the pages bring about *)

Module InvariantFacts.
Import JS StorageService MembersService Spec StorageFacts LookupFacts
  AttendanceService UISpec HandlerFacts.

Lemma nth_id_inj i j : nth_id i = nth_id j → i = j.
Proof. unfold nth_id. intros Heq. apply (inj pretty) in Heq. lia. Qed.

Lemma getMembers_init ls : getMembers (init ls) = getMembers ls.
Proof.
  destruct ls as [[ms|] [rs|] [s|]]; unfold init; simpl;
    try case_bool_decide; done.
Qed.

Lemma getAttendance_init ls : getAttendance (init ls) = getAttendance ls.
Proof.
  destruct ls as [[ms|] [rs|] [s|]]; unfold init; simpl;
    try case_bool_decide; done.
Qed.

Lemma filter_none {A} (P : A → Prop) `{!∀ x, Decision (P x)} (l : list A) :
  Forall (λ x, ¬ P x) l → filter P l = [].
Proof.
  induction 1 as [|x l Hx _ IH]; [done|]. by rewrite filter_cons_False.
Qed.

Lemma count_records_ext type id ls ls' :
  getAttendance ls' = getAttendance ls →
  count_records type id ls' = count_records type id ls.
Proof. unfold count_records. by intros ->. Qed.

Lemma count_records_snoc type id record ls ls' :
  getAttendance ls' = getAttendance ls ++ [record] →
  count_records type id ls'
  = (count_records type id ls
     + (if decide (is_record type id record) then 1 else 0))%nat.
Proof.
  unfold count_records. intros ->. rewrite filter_app, length_app.
  f_equal. rewrite filter_cons, filter_nil. by case_decide.
Qed.

Lemma ui_invariant_ext ls ls' :
  getMembers ls' = getMembers ls →
  getAttendance ls' = getAttendance ls →
  counter_item ls' = counter_item ls →
  ui_invariant ls → ui_invariant ls'.
Proof.
  intros Hm Ha Hc [Hcnt Hids Hok Hrec Hbal].
  split; unfold count_records, counter_is in *; rewrite ?Hm, ?Ha, ?Hc; done.
Qed.

Lemma ui_invariant_first_use : ui_invariant (init emptyStorage).
Proof.
  split.
  - reflexivity.
  - intros i m Hl. destruct i; discriminate Hl.
  - constructor.
  - intros record Hin. by apply elem_of_nil in Hin.
  - intros i m Hl. destruct i; discriminate Hl.
Qed.

(** A member found under an id in invariant storage sits at the place the
    id names. *)
Lemma ui_invariant_find ls id index member :
  ui_invariant ls →
  list_find (has_id id) (getMembers ls) = Some (index, member) →
  id = nth_id index.
Proof.
  intros Hinv Hf. apply list_find_Some in Hf as (Hl & Hid & _).
  pose proof (inv_ids _ Hinv _ _ Hl) as Hid'.
  unfold has_id in Hid. congruence.
Qed.

Lemma ui_invariant_lookup ls index member :
  ui_invariant ls →
  getMembers ls !! index = Some member →
  list_find (has_id (nth_id index)) (getMembers ls) = Some (index, member).
Proof.
  intros Hinv Hl. apply list_find_Some. split_and!.
  - done.
  - by apply (inv_ids _ Hinv).
  - intros j y Hj Hlt Hid. pose proof (inv_ids _ Hinv _ _ Hj) as Hid'.
    unfold has_id in Hid. rewrite Hid' in Hid. injection Hid as Heq.
    apply nth_id_inj in Heq. lia.
Qed.

Lemma find_getMemberById_nth ls index member :
  ui_invariant ls →
  getMembers ls !! index = Some member →
  getMemberById (nth_id index) ls = Some member.
Proof.
  intros Hinv Hl. unfold getMemberById.
  by rewrite (ui_invariant_lookup _ _ _ Hinv Hl).
Qed.

Section WithHost.
Context `{Host}.

Lemma ui_invariant_register form now regNow ls :
  ui_invariant ls → ui_invariant (handleRegistration form now regNow ls).2.
Proof.
  intros Hinv. pose proof Hinv as [Hcnt Hids Hok Hrec Hbal].
  unfold handleRegistration. cbv zeta.
  destruct (_ || _ || _ || _); [done|].
  unfold createMember, addMember.
  rewrite (generateMemberId_counter _ _ Hcnt). cbn [snd].
  set (n := length (getMembers ls)) in *.
  replace (1000 + Z.of_nat n + 1) with (1001 + Z.of_nat n) by lia.
  fold (nth_id n).
  match goal with
  | |- context [newMember_of ?m _ _] => set (partial := m)
  end.
  set (new := newMember_of partial (nth_id n) regNow).
  assert (new !! "id" = Some (VStr (nth_id n))) as Hnewid.
  { unfold new, newMember_of. by simplify_map_eq. }
  assert (checked_in_b new = false) as Hnewin.
  { unfold checked_in_b, new, newMember_of. by simplify_map_eq. }
  split.
  - rewrite getMembers_saveMembers, length_app. cbn [length].
    replace (1000 + Z.of_nat (length (getMembers ls) + 1))
      with (1001 + Z.of_nat n) by (subst n; lia).
    eapply counter_is_ext; [|apply (counter_is_setItem _ ls)]. done.
  - rewrite getMembers_saveMembers. intros i m Hl.
    apply lookup_app_Some in Hl as [Hl|[Hge Hl]]; [by apply Hids|].
    fold n in Hge, Hl. destruct (i - n)%nat as [|k] eqn:Hk; [|done].
    simpl in Hl. injection Hl as <-. replace i with n by lia. done.
  - rewrite getMembers_saveMembers. apply Forall_app. split; [done|].
    constructor; [|constructor].
    unfold member_ok, new, newMember_of, partial, nullable_timestamp, is_set.
    simplify_map_eq. split_and!; eauto.
  - intros record Hin.
    change (getAttendance (saveMembers _ _)) with (getAttendance ls) in Hin.
    destruct (Hrec record Hin) as (i & type & Hlt & Hr & Hty).
    exists i, type. rewrite getMembers_saveMembers, length_app. simpl.
    split_and!; [lia|done|done].
  - rewrite getMembers_saveMembers. intros i m Hl.
    rewrite (count_records_ext "check-in" _ ls),
      (count_records_ext "check-out" _ ls) by done.
    apply lookup_app_Some in Hl as [Hl|[Hge Hl]]; [by apply Hbal|].
    fold n in Hge, Hl. destruct (i - n)%nat as [|k] eqn:Hk; [|done].
    simpl in Hl. injection Hl as <-. replace i with n by lia.
    rewrite Hnewin.
    assert (∀ type, count_records type (nth_id n) ls = 0%nat) as Hzero.
    { intros type. unfold count_records. rewrite filter_none; [done|].
      apply Forall_forall. intros record Hin [Hmid _].
      destruct (Hrec record Hin) as (j & type' & Hlt & [Hmid' _] & _).
      rewrite Hmid in Hmid'. injection Hmid' as Heq.
      apply nth_id_inj in Heq. fold n in Hlt. lia. }
    rewrite !Hzero. done.
Qed.

Lemma member_ok_checkIn member now :
  member_ok member →
  member_ok (<["lastCheckIn" := VTime now]> (<["lastCheckOut" := VNull]> member)).
Proof.
  intros (Hname & Hend & _ & _ & _).
  unfold member_ok, nullable_timestamp, is_set. simplify_map_eq.
  split_and!; eauto.
Qed.

Lemma member_ok_checkOut member now :
  member_ok member → checked_in_b member = true →
  member_ok (<["lastCheckOut" := VTime now]> member).
Proof.
  intros (Hname & Hend & Hin & _ & _) Hb.
  unfold checked_in_b in Hb. apply andb_true_iff in Hb as [Hb _].
  unfold member_ok, nullable_timestamp, is_set. simplify_map_eq.
  split_and!; eauto.
Qed.

(** One transition on the member at [index], with a record of type [type]
    and the new state [member'] of the member: the invariant is kept when
    the record and the change of the checked-in test agree. *)
Lemma ui_invariant_transition ls ls' index member member' type record :
  ui_invariant ls →
  getMembers ls !! index = Some member →
  getMembers ls' = <[index := member']> (getMembers ls) →
  getAttendance ls' = getAttendance ls ++ [record] →
  counter_item ls' = counter_item ls →
  member' !! "id" = member !! "id" →
  member_ok member' →
  is_record type (nth_id index) record →
  (type = "check-in" ∧ checked_in_b member = false
   ∧ checked_in_b member' = true
   ∨ type = "check-out" ∧ checked_in_b member = true
     ∧ checked_in_b member' = false) →
  ui_invariant ls'.
Proof.
  intros [Hcnt Hids Hok Hrec Hbal] Hl Hm Ha Hc Hid Hok' Hr Hcase.
  assert (index < length (getMembers ls))%nat as Hlt
    by by eapply lookup_lt_Some.
  split.
  - unfold counter_is. rewrite Hc, Hm, length_insert. done.
  - rewrite Hm. intros i m Hi.
    apply list_lookup_insert_Some in Hi as [(-> & -> & _)|[Hne Hi]].
    + rewrite Hid. by apply Hids.
    + by apply Hids.
  - rewrite Hm. by apply Forall_insert.
  - rewrite Hm, Ha, length_insert. intros r Hin.
    apply elem_of_app in Hin as [Hin|Hin]; [by apply Hrec|].
    apply list_elem_of_singleton in Hin as ->.
    exists index, type. split_and!; [done|done|]. tauto.
  - rewrite Hm. intros i m Hi.
    rewrite (count_records_snoc "check-in" _ record ls),
      (count_records_snoc "check-out" _ record ls) by done.
    apply list_lookup_insert_Some in Hi as [(-> & -> & _)|[Hne Hi]].
    + pose proof (Hbal _ _ Hl) as Hb. destruct Hr as [Hr1 Hr2].
      destruct Hcase as [(-> & Hold & Hnew)|(-> & Hold & Hnew)];
        rewrite Hold in Hb; rewrite Hnew.
      * rewrite decide_True by done.
        rewrite decide_False; [lia|]. intros [_ Hty]. congruence.
      * rewrite decide_False; [|intros [_ Hty]; congruence].
        rewrite decide_True by done. lia.
    + pose proof (Hbal _ _ Hi) as Hb. destruct Hr as [Hr1 Hr2].
      rewrite !decide_False; [lia|..].
      * intros [Hmid _]. rewrite Hr1 in Hmid. injection Hmid as Heq.
        apply nth_id_inj in Heq. done.
      * intros [Hmid _]. rewrite Hr1 in Hmid. injection Hmid as Heq.
        apply nth_id_inj in Heq. done.
Qed.

Lemma ui_invariant_checkIn clk page ls :
  ui_invariant ls → ui_invariant (handleCheckIn clk page ls).2.
Proof.
  intros Hinv.
  destruct (handleCheckIn_outcome clk page ls)
    as [Hid|Hid Hget|index member info Hid Hf Hdays
        |index member info Hid Hf Hdays Hst
        |index member info Hid Hf Hdays Hst Hdisp Hclass]; try done.
  cbn [snd]. rewrite (checkIn_found _ _ _ _ _ _ Hf). cbn [snd].
  pose proof (ui_invariant_find _ _ _ _ Hinv Hf) as Hnth.
  pose proof Hf as Hf'. apply list_find_Some in Hf' as (Hl & Hhas & _).
  pose proof (inv_members _ Hinv) as Hok.
  rewrite Forall_lookup in Hok. specialize (Hok _ _ Hl).
  eapply (ui_invariant_transition ls _ index member _ "check-in");
    [done|done|reflexivity|reflexivity|done| | | |].
  - by simplify_map_eq.
  - by apply member_ok_checkIn.
  - rewrite <- Hnth. unfold is_record, attendanceRecord. by simplify_map_eq.
  - left. split_and!; [done| |].
    + destruct (checked_in_b member) eqn:Hb; [|done]. destruct Hst.
      by apply getMemberStatus_checked_in_b.
    + unfold checked_in_b. by simplify_map_eq.
Qed.

Lemma ui_invariant_checkOut clk page ls :
  ui_invariant ls → ui_invariant (handleCheckOut clk page ls).2.
Proof.
  intros Hinv.
  destruct (handleCheckOut_outcome clk page ls)
    as [Hid|Hid Hget|index member info Hid Hf Hst
        |index member info Hid Hf Hst Hdisp Hclass]; try done.
  cbn [snd]. rewrite (checkOut_found _ _ _ _ _ _ Hf). cbn [snd].
  pose proof (ui_invariant_find _ _ _ _ Hinv Hf) as Hnth.
  pose proof Hf as Hf'. apply list_find_Some in Hf' as (Hl & Hhas & _).
  pose proof (inv_members _ Hinv) as Hok.
  rewrite Forall_lookup in Hok. specialize (Hok _ _ Hl).
  apply getMemberStatus_checked_in_b in Hst.
  eapply (ui_invariant_transition ls _ index member _ "check-out");
    [done|done|reflexivity|reflexivity|done| | | |].
  - by simplify_map_eq.
  - by apply member_ok_checkOut.
  - rewrite <- Hnth. unfold is_record, attendanceRecord. by simplify_map_eq.
  - right. split_and!; [done|done|].
    unfold checked_in_b. rewrite (lookup_insert_eq member "lastCheckOut").
    simpl. apply andb_false_r.
Qed.

(** Every storage the pages bring about satisfies the invariant. *)
Lemma ui_reachable_invariant ls : ui_reachable ls → ui_invariant ls.
Proof.
  induction 1 as [|ls _ IH|form now regNow ls _ IH|clk page ls _ IH
                  |clk page ls _ IH].
  - apply ui_invariant_first_use.
  - eapply ui_invariant_ext; [apply getMembers_init|apply getAttendance_init
                              |apply init_counter_item|done].
  - by apply ui_invariant_register.
  - by apply ui_invariant_checkIn.
  - by apply ui_invariant_checkOut.
Qed.

End WithHost.
End InvariantFacts.

(** ** Facts about the search *)

Module SearchFacts.
Import JS StorageService Spec MembersList UISpec.

Lemma prefix_refl (s : string) : String.prefix s s = true.
Proof.
  induction s as [|c s IH]; [done|]. simpl.
  destruct (Ascii.ascii_dec c c); [done|congruence].
Qed.

Lemma includes_empty (s : string) : includes s "" = true.
Proof. by destruct s. Qed.

Lemma includes_refl (s : string) : includes s s = true.
Proof.
  destruct s as [|c s]; [done|].
  cbn [includes]. by rewrite prefix_refl.
Qed.

Lemma matchesSearch_total searchTerm member :
  has_strings member → is_Some (matchesSearch searchTerm member).
Proof.
  intros [[name Hn] [id Hi]]. unfold matchesSearch. rewrite Hn, Hi. simpl.
  case_match; eauto.
Qed.

Lemma filterMembers_filter searchTerm members :
  Forall has_strings members →
  filterMembers searchTerm members = Some (filter (matches searchTerm) members).
Proof.
  induction 1 as [|m l Hm _ IH]; [done|].
  cbn [filterMembers]. rewrite IH.
  destruct (matchesSearch_total searchTerm m Hm) as [b Hb]. rewrite Hb.
  destruct b.
  - by rewrite filter_cons_True.
  - rewrite filter_cons_False; [done|]. unfold matches. congruence.
Qed.

Lemma filterMembers_throws searchTerm members m :
  m ∈ members → as_string (m !! "name") = None →
  filterMembers searchTerm members = None.
Proof.
  intros Hin Hname. induction members as [|m' l IH].
  - by apply elem_of_nil in Hin.
  - cbn [filterMembers]. apply elem_of_cons in Hin as [<-|Hin].
    + unfold matchesSearch. by rewrite Hname.
    + rewrite (IH Hin). by case_match.
Qed.

Lemma matches_empty member :
  (∃ name, member !! "name" = Some (VStr name)) → matches "" member.
Proof.
  intros [name Hn]. unfold matches, matchesSearch. rewrite Hn. simpl.
  by rewrite includes_empty.
Qed.

Lemma ui_invariant_has_strings ls :
  ui_invariant ls → Forall has_strings (getMembers ls).
Proof.
  intros Hinv. apply Forall_lookup. intros i m Hl. split.
  - pose proof (inv_members _ Hinv) as Hok. rewrite Forall_lookup in Hok.
    by destruct (Hok _ _ Hl) as [? _].
  - eexists. by apply (inv_ids _ Hinv).
Qed.

End SearchFacts.

(** ** Further properties of the member store *)

Module StorageExtras.
Import JS StorageService Spec StorageFacts LookupFacts.

(** X1: running [init] again changes nothing, [init] leaves all three keys
    set, and it never replaces members, attendance records or a counter
    that were stored before. *)
Theorem init_idempotent (ls : LocalStorage) :
  init (init ls) = init ls
  ∧ is_Some (gym_members (init ls))
  ∧ is_Some (gym_attendance (init ls))
  ∧ is_Some (member_id_counter (init ls))
  ∧ getMembers (init ls) = getMembers ls
  ∧ getAttendance (init ls) = getAttendance ls
  ∧ counter_item (init ls) = counter_item ls.
Proof.
  destruct ls as [[ms|] [rs|] [s|]]; unfold init; simpl;
    try case_bool_decide; simpl; try case_bool_decide; subst;
    split_and!; try done; eauto.
Qed.

(** X2: [updateMember] on an id no member has returns [null] and leaves
    storage as it is.  Otherwise it replaces the first member with the id
    by the merged record and returns it: every field of [updates] has the
    new value, every other field the old one, and the other members, the
    attendance records and the counter are untouched. *)
Theorem updateMember_spec (id : string) (updates : obj) (ls : LocalStorage) :
  (Forall (λ m, ¬ has_id id m) (getMembers ls) →
   updateMember id updates ls = (None, ls))
  ∧
  (Exists (has_id id) (getMembers ls) →
   ∃ (index : nat) (old merged : obj) (ls' : LocalStorage),
     getMemberById id ls = Some old
     ∧ getMembers ls !! index = Some old
     ∧ updateMember id updates ls = (Some merged, ls')
     ∧ getMembers ls' = <[index := merged]> (getMembers ls)
     ∧ (∀ k v, updates !! k = Some v → merged !! k = Some v)
     ∧ (∀ k, updates !! k = None → merged !! k = old !! k)
     ∧ (∀ j, j ≠ index → getMembers ls' !! j = getMembers ls !! j)
     ∧ gym_attendance ls' = gym_attendance ls
     ∧ member_id_counter ls' = member_id_counter ls).
Proof.
  split.
  - intros Hno. apply updateMember_missing. by apply list_find_None.
  - intros Hex. apply list_find_Exists in Hex as [[index old] Hf].
    pose proof Hf as Hf'. apply list_find_Some in Hf' as (Hl & Hid & _).
    exists index, old, (updates ∪ old).
    exists (saveMembers (<[index := updates ∪ old]> (getMembers ls)) ls).
    split_and!.
    + unfold getMemberById. by rewrite Hf.
    + done.
    + by apply updateMember_found.
    + done.
    + intros k v Hk. by apply lookup_union_Some_l.
    + intros k Hk. by apply lookup_union_r.
    + intros j Hj. rewrite getMembers_saveMembers.
      by apply list_lookup_insert_ne.
    + done.
    + done.
Qed.

(** X3: an update that does not touch the [id] field can be read back:
    [getMemberById] with the same id then returns exactly the record
    [updateMember] returned, and a lookup of any other id gives what it
    gave before. *)
Theorem updateMember_getMemberById (id : string) (updates : obj)
    (ls : LocalStorage) :
  updates !! "id" = None →
  Exists (has_id id) (getMembers ls) →
  getMemberById id (updateMember id updates ls).2
  = (updateMember id updates ls).1
  ∧ is_Some (updateMember id updates ls).1
  ∧ ∀ id', id' ≠ id →
      getMemberById id' (updateMember id updates ls).2
      = getMemberById id' ls.
Proof.
  intros Hupd Hex. apply list_find_Exists in Hex as [[index old] Hf].
  rewrite (updateMember_found _ _ _ _ _ Hf). simpl.
  pose proof Hf as Hf'. apply list_find_Some in Hf' as (Hl & Hid & _).
  assert (∀ id', has_id id' (updates ∪ old) ↔ has_id id' old) as Hsame.
  { intros id'. unfold has_id. by rewrite lookup_union_r. }
  split_and!.
  - unfold getMemberById. rewrite getMembers_saveMembers.
    rewrite (list_find_insert_same _ _ _ _ (updates ∪ old) Hf); [done|].
    by apply Hsame.
  - eauto.
  - intros id' Hne. unfold getMemberById. rewrite getMembers_saveMembers.
    rewrite (list_find_insert_other _ _ _ old); [done|done|..].
    + intros Hid'. apply Hne. by eapply has_id_inj.
    + rewrite Hsame. intros Hid'. apply Hne. by eapply has_id_inj.
Qed.

(** X4: after [addMember], a lookup of the new id returns the new record,
    unless an earlier member already had that id: then the earlier member
    still answers.  Lookups of every other id are as before. *)
Theorem addMember_getMemberById (member : obj) (now : Z) (ls : LocalStorage) :
  let newMember := (addMember member now ls).1 in
  let ls' := (addMember member now ls).2 in
  let newId := (generateMemberId ls).1 in
  getMemberById newId ls'
  = match getMemberById newId ls with
    | Some old => Some old
    | None => Some newMember
    end
  ∧ ∀ id, id ≠ newId → getMemberById id ls' = getMemberById id ls.
Proof.
  cbv zeta. unfold addMember.
  destruct (generateMemberId ls) as [newId ls1] eqn:Hg. simpl.
  assert (has_id newId (newMember_of member newId now)) as Hnew.
  { unfold has_id, newMember_of. by simplify_map_eq. }
  unfold getMemberById. rewrite getMembers_saveMembers.
  split.
  - destruct (list_find (has_id newId) (getMembers ls)) as [[i old]|] eqn:Hf.
    + by rewrite (list_find_app_l _ _ _ _ _ Hf).
    + rewrite (list_find_app_r _ _ _ Hf). simpl. by rewrite decide_True.
  - intros id Hne.
    destruct (list_find (has_id id) (getMembers ls)) as [[i old]|] eqn:Hf.
    + by rewrite (list_find_app_l _ _ _ _ _ Hf).
    + rewrite (list_find_app_r _ _ _ Hf). simpl. rewrite decide_False; [done|].
      intros Hid. apply Hne. by eapply has_id_inj.
Qed.

Section WithHost.
Context `{Host}.

(** X5: a check-in or check-out of a stored member adds exactly its record
    to the end of that member's attendance history and leaves the history
    of every other id as it was. *)
Theorem getMemberAttendance_transition (memberId : string) (now stamp : Z)
    (ls : LocalStorage) :
  Exists (has_id memberId) (getMembers ls) →
  (∃ record,
     (checkIn memberId now stamp ls).1 = Some record
     ∧ getMemberAttendance memberId (checkIn memberId now stamp ls).2
       = getMemberAttendance memberId ls ++ [record])
  ∧ (∃ record,
       (checkOut memberId now stamp ls).1 = Some record
       ∧ getMemberAttendance memberId (checkOut memberId now stamp ls).2
         = getMemberAttendance memberId ls ++ [record])
  ∧ ∀ other, other ≠ memberId →
      getMemberAttendance other (checkIn memberId now stamp ls).2
      = getMemberAttendance other ls
      ∧ getMemberAttendance other (checkOut memberId now stamp ls).2
        = getMemberAttendance other ls.
Proof.
  intros Hex. apply list_find_Exists in Hex as [[index old] Hf].
  rewrite (checkIn_found _ _ _ _ _ _ Hf), (checkOut_found _ _ _ _ _ _ Hf).
  unfold getMemberAttendance. cbn [fst snd].
  rewrite !getAttendance_saveAttendance.
  split_and!.
  - eexists. split; [done|]. rewrite filter_app, filter_cons_True, filter_nil.
    + done.
    + unfold attendanceRecord. by simplify_map_eq.
  - eexists. split; [done|]. rewrite filter_app, filter_cons_True, filter_nil.
    + done.
    + unfold attendanceRecord. by simplify_map_eq.
  - intros other Hne.
    rewrite !filter_app, !filter_cons_False, !filter_nil, !app_nil_r; [done|..].
    + unfold attendanceRecord. simplify_map_eq. congruence.
    + unfold attendanceRecord. simplify_map_eq. congruence.
Qed.

(** X7: no operation of the store removes or rewrites an attendance
    record: the records stored before are a prefix of those stored after
    each of them. *)
Theorem attendance_append_only (ls : LocalStorage) :
  (∀ memberId now stamp,
     getAttendance ls
       `prefix_of` getAttendance (checkIn memberId now stamp ls).2
     ∧ getAttendance ls
         `prefix_of` getAttendance (checkOut memberId now stamp ls).2)
  ∧ (∀ member now, getAttendance (addMember member now ls).2 = getAttendance ls)
  ∧ (∀ id updates,
       getAttendance (updateMember id updates ls).2 = getAttendance ls)
  ∧ (∀ id, getAttendance (deleteMember id ls).2 = getAttendance ls)
  ∧ getAttendance (generateMemberId ls).2 = getAttendance ls
  ∧ getAttendance (init ls) = getAttendance ls.
Proof.
  split_and!.
  - intros memberId now stamp.
    destruct (list_find (has_id memberId) (getMembers ls)) as [[i old]|] eqn:Hf.
    + rewrite (checkIn_found _ _ _ _ _ _ Hf), (checkOut_found _ _ _ _ _ _ Hf).
      cbn [fst snd]. rewrite !getAttendance_saveAttendance.
      split; by apply prefix_app_r.
    + by rewrite (checkIn_missing _ _ _ _ Hf), (checkOut_missing _ _ _ _ Hf).
  - intros member now. unfold addMember, generateMemberId. done.
  - intros id updates. unfold updateMember. by repeat case_match.
  - intros id. unfold deleteMember. cbv zeta. by case_bool_decide.
  - done.
  - destruct ls as [[ms|] [rs|] [s|]]; unfold init; simpl;
      try case_bool_decide; done.
Qed.

End WithHost.

(** X6: after [deleteMember] no member answers to the id, a second
    [deleteMember] with it returns [false] and changes nothing, and the
    attendance records of the deleted member stay in storage. *)
Theorem deleteMember_twice (id : string) (ls : LocalStorage) :
  getMemberById id (deleteMember id ls).2 = None
  ∧ deleteMember id (deleteMember id ls).2 = (false, (deleteMember id ls).2)
  ∧ getMemberAttendance id (deleteMember id ls).2 = getMemberAttendance id ls
  ∧ ∀ id' m, id' ≠ id →
      (getMemberById id' (deleteMember id ls).2 = Some m
       ↔ getMemberById id' ls = Some m).
Proof.
  assert (Forall (λ m, ¬ has_id id m) (getMembers (deleteMember id ls).2))
    as Hgone.
  { unfold deleteMember. cbv zeta. case_bool_decide as Hlen; simpl.
    - apply Forall_forall. intros m Hm Hid.
      pose proof (length_filter_lt (λ m, ¬ has_id id m) (getMembers ls) m Hm)
        as Hlt.
      rewrite Hlen in Hlt. apply (Nat.lt_irrefl _ (Hlt ltac:(tauto))).
    - apply Forall_forall. intros m Hm.
      by apply list_elem_of_filter in Hm as [? _]. }
  split_and!.
  - by apply getMemberById_None.
  - unfold deleteMember at 1. cbv zeta.
    rewrite (filter_all _ _ Hgone). by rewrite bool_decide_eq_true_2.
  - unfold deleteMember. cbv zeta. by case_bool_decide.
  - intros id' m Hne. unfold deleteMember. cbv zeta.
    case_bool_decide as Hlen; simpl; [done|].
    unfold getMemberById. rewrite getMembers_saveMembers.
    generalize (getMembers ls). intros l.
    induction l as [|x l IH]; [done|].
    destruct (decide (has_id id x)) as [Hx|Hx].
    + rewrite filter_cons_False by tauto. simpl.
      rewrite decide_False; [|intros Hid'; apply Hne; by eapply has_id_inj].
      rewrite IH. destruct (list_find (has_id id') l) as [[j y]|]; done.
    + rewrite filter_cons_True by done. simpl.
      case_decide; [done|].
      destruct (list_find (has_id id') (filter _ l)) as [[j y]|],
               (list_find (has_id id') l) as [[j' y']|]; simpl in *;
        naive_solver.
Qed.

End StorageExtras.

(** ** Further properties of status and days remaining *)

Module StatusExtras.
Import JS StorageService MembersService Spec DateFacts StorageFacts FieldFacts
  LookupFacts.

Section WithHost.
Context `{Host}.

(** X8: once a stored member is checked in, [getMemberStatus] of the
    stored record is ["checked-in"] at every later reading of the clock,
    whatever the day.  After a check-out made at [now] it is
    ["checked-out"] for readings on the local calendar date of [now] and
    ["not-checked-in"] for readings on any other date. *)
Theorem getMemberStatus_after_transition (memberId : string) (now stamp : Z)
    (ls : LocalStorage) :
  Exists (has_id memberId) (getMembers ls) →
  (∀ now',
     getMemberStatus
       (getMemberById memberId (checkIn memberId now stamp ls).2) now'
     = "checked-in")
  ∧ (∀ now',
       getMemberStatus
         (getMemberById memberId (checkOut memberId now stamp ls).2) now'
       = if decide (calendarDate now = calendarDate now')
         then "checked-out" else "not-checked-in").
Proof.
  intros Hex. apply list_find_Exists in Hex as [[index old] Hf].
  pose proof Hf as Hf'. apply list_find_Some in Hf' as (Hl & Hid & _).
  rewrite (checkIn_found _ _ _ _ _ _ Hf), (checkOut_found _ _ _ _ _ _ Hf).
  cbn [fst snd]. unfold getMemberById.
  rewrite !getMembers_saveAttendance, !getMembers_saveMembers.
  split.
  - intros now'.
    rewrite (list_find_insert_same _ _ _ _ _ Hf);
      [|unfold has_id in *; by simplify_map_eq].
    simpl. unfold getMemberStatus. by simplify_map_eq.
  - intros now'.
    rewrite (list_find_insert_same _ _ _ _ _ Hf);
      [|unfold has_id in *; by simplify_map_eq].
    simpl. unfold getMemberStatus. simplify_map_eq. simpl.
    rewrite andb_false_r.
    destruct (decide (calendarDate now = calendarDate now')) as [Heq|Hne].
    + rewrite bool_decide_eq_true_2; [done|].
      by apply toDateString_eq_calendarDate.
    + rewrite bool_decide_eq_false_2; [done|].
      by rewrite toDateString_eq_calendarDate.
Qed.

(** X9: with a valid end date, and while the dates and their local
    midnights lie inside the range of [Date], the days remaining follow
    the local calendar.  The time of day plays no part: two readings on
    the same calendar date give the same count.  The count is 0 exactly
    from the day of the end date on.  Before that, with [k] the number of
    calendar days from today to the end date, it is [k] or [k + 1]; it is
    [k] whenever the two local midnights are read under the same offset,
    and [k + 1] arises when the clocks were set back in between. *)
Theorem calculateDaysRemaining_calendar (member : option obj) (now e : Z) :
  is_set (field "membershipEndDate" member) →
  Date_of_value (field "membershipEndDate" member) = Some e →
  dates_in_range now (field "membershipEndDate" member) →
  ∃ n : Z,
    calculateDaysRemaining member now = Some n
    ∧ (n = 0 ↔ Day (LocalTime e) <= Day (LocalTime now))
    ∧ (Day (LocalTime now) < Day (LocalTime e) →
       Day (LocalTime e) - Day (LocalTime now) <= n
       <= Day (LocalTime e) - Day (LocalTime now) + 1)
    ∧ (LocalTZA (Day (LocalTime now) * msPerDay) false
       = LocalTZA (Day (LocalTime e) * msPerDay) false →
       n = Z.max 0 (Day (LocalTime e) - Day (LocalTime now)))
    ∧ (∀ now', in_Date_range now' → calendarDate now' = calendarDate now →
         calculateDaysRemaining member now' = Some n).
Proof.
  intros Hset He _.
  destruct (calculateDaysRemaining_days member now e Hset He)
    as (n & Hn & Hzero & Hpos & Hsame).
  exists n. split_and!.
  - done.
  - split; [|exact Hzero]. intros ->.
    destruct (Z.le_gt_cases (Day (LocalTime e)) (Day (LocalTime now)))
      as [?|Hgt]; [done|].
    specialize (Hpos Hgt). lia.
  - done.
  - done.
  - intros now' _ Hday. apply calendarDate_eq_Day in Hday.
    rewrite <- Hn. rewrite !(calculateDaysRemaining_set _ _ e) by done.
    by rewrite (atMidnight_same_day _ _ Hday).
Qed.


End WithHost.

End StatusExtras.

(** ** Properties of the attendance handlers *)

Module HandlerExtras.
Import JS StorageService Spec StorageFacts LookupFacts AttendanceService UISpec
  HandlerFacts.

Section WithHost.
Context `{Host}.

(** X11: [handleCheckIn] never ends in a [TypeError] and always shows a
    notification, of type error or success.  With an error storage is as
    before.  It reports success exactly when the trimmed text of the field
    is not empty and names a member whose days remaining are not [<= 0]
    and whose status is not checked in; then storage is that of [checkIn],
    the field is cleared and the panel shows Checked In. *)
Theorem handleCheckIn_spec (clk : nat → Z) (page : Page) (ls : LocalStorage) :
  ∃ (page' : Page) (message type : string),
    (handleCheckIn clk page ls).1 = Some page'
    ∧ notification page' = Some (message, type)
    ∧ (type = "error" ∨ type = "success")
    ∧ (type = "error" → (handleCheckIn clk page ls).2 = ls)
    ∧ (type = "success" ↔
         trim (member_id page) ≠ ""
         ∧ ∃ member,
             getMemberById (trim (member_id page)) ls = Some member
             ∧ le_zero (calculateDaysRemaining (Some member) (clk 0%nat))
               = false
             ∧ getMemberStatus (Some member) (clk 1%nat) ≠ "checked-in")
    ∧ (type = "success" →
         (handleCheckIn clk page ls).2
         = (checkIn (trim (member_id page)) (clk 2%nat) (clk 3%nat) ls).2
         ∧ member_id page' = ""
         ∧ ∃ info, member_info page' = Some info
                   ∧ attendance_status_display info = "Checked In").
Proof.
  destruct (handleCheckIn_outcome clk page ls)
    as [Hid|Hid Hget|index member info Hid Hf Hdays
        |index member info Hid Hf Hdays Hst
        |index member info Hid Hf Hdays Hst Hdisp Hclass];
    eexists _, _, _; (split; [reflexivity|]); (split; [reflexivity|]).
  - split_and!; [by left|done| |done]. split; [done|]. by intros [? _].
  - split_and!; [by left|done| |done]. split; [done|].
    intros [_ (member & Hm & _)]. congruence.
  - apply find_getMemberById in Hf.
    split_and!; [by left|done| |done]. split; [done|].
    intros [_ (member' & Hm & Hd & _)]. congruence.
  - apply find_getMemberById in Hf.
    split_and!; [by left|done| |done]. split; [done|].
    intros [_ (member' & Hm & _ & Hs)]. congruence.
  - apply find_getMemberById in Hf.
    split_and!; [by right|done| |eauto]. split; [|done].
    intros _. eauto.
Qed.

(** X12: [handleCheckOut] never ends in a [TypeError] and always shows a
    notification.  With an error storage is as before.  It reports success
    exactly when the trimmed text of the field is not empty and names a
    member whose status is checked in; then storage is that of [checkOut],
    the field is cleared and the panel shows Checked Out.  The days
    remaining play no part. *)
Theorem handleCheckOut_spec (clk : nat → Z) (page : Page) (ls : LocalStorage) :
  ∃ (page' : Page) (message type : string),
    (handleCheckOut clk page ls).1 = Some page'
    ∧ notification page' = Some (message, type)
    ∧ (type = "error" ∨ type = "success")
    ∧ (type = "error" → (handleCheckOut clk page ls).2 = ls)
    ∧ (type = "success" ↔
         trim (member_id page) ≠ ""
         ∧ ∃ member,
             getMemberById (trim (member_id page)) ls = Some member
             ∧ getMemberStatus (Some member) (clk 0%nat) = "checked-in")
    ∧ (type = "success" →
         (handleCheckOut clk page ls).2
         = (checkOut (trim (member_id page)) (clk 1%nat) (clk 2%nat) ls).2
         ∧ member_id page' = ""
         ∧ ∃ info, member_info page' = Some info
                   ∧ attendance_status_display info = "Checked Out").
Proof.
  destruct (handleCheckOut_outcome clk page ls)
    as [Hid|Hid Hget|index member info Hid Hf Hst
        |index member info Hid Hf Hst Hdisp Hclass];
    eexists _, _, _; (split; [reflexivity|]); (split; [reflexivity|]).
  - split_and!; [by left|done| |done]. split; [done|]. by intros [? _].
  - split_and!; [by left|done| |done]. split; [done|].
    intros [_ (member & Hm & _)]. congruence.
  - apply find_getMemberById in Hf.
    split_and!; [by left|done| |done]. split; [done|].
    intros [_ (member' & Hm & Hs)]. congruence.
  - apply find_getMemberById in Hf.
    split_and!; [by right|done| |eauto]. split; [|done].
    intros _. eauto.
Qed.

(** A run that reported the successful check-in was the check-in of a
    stored member. *)
Lemma handleCheckIn_success_inv clk page ls p :
  (handleCheckIn clk page ls).1 = Some p →
  notification p = Some ("Check-in successful!", "success") →
  ∃ index member,
    trim (member_id page) ≠ ""
    ∧ list_find (has_id (trim (member_id page))) (getMembers ls)
      = Some (index, member)
    ∧ getMemberStatus (Some member) (clk 1%nat) ≠ "checked-in"
    ∧ (handleCheckIn clk page ls).2
      = (checkIn (trim (member_id page)) (clk 2%nat) (clk 3%nat) ls).2.
Proof.
  destruct (handleCheckIn_outcome clk page ls)
    as [Hid|Hid Hget|index member info Hid Hf Hdays
        |index member info Hid Hf Hdays Hst
        |index member info Hid Hf Hdays Hst Hdisp Hclass];
    cbn [fst snd]; intros [= <-]; simpl; intros [=]. eauto 10.
Qed.

Lemma handleCheckOut_success_inv clk page ls p :
  (handleCheckOut clk page ls).1 = Some p →
  notification p = Some ("Check-out successful!", "success") →
  ∃ index member,
    trim (member_id page) ≠ ""
    ∧ list_find (has_id (trim (member_id page))) (getMembers ls)
      = Some (index, member)
    ∧ getMemberStatus (Some member) (clk 0%nat) = "checked-in"
    ∧ (handleCheckOut clk page ls).2
      = (checkOut (trim (member_id page)) (clk 1%nat) (clk 2%nat) ls).2.
Proof.
  destruct (handleCheckOut_outcome clk page ls)
    as [Hid|Hid Hget|index member info Hid Hf Hst
        |index member info Hid Hf Hst Hdisp Hclass];
    cbn [fst snd]; intros [= <-]; simpl; intros [=]. eauto 10.
Qed.

(** X13: after a successful check-in, every further [handleCheckIn] for
    the same id is refused, whatever the clock reads, and leaves storage
    as it is: the member is reported as already checked in, or as expired
    when the days remaining have run out. *)
Theorem handleCheckIn_repeat (clk clk' : nat → Z) (page page' p : Page)
    (ls : LocalStorage) :
  (handleCheckIn clk page ls).1 = Some p →
  notification p = Some ("Check-in successful!", "success") →
  trim (member_id page') = trim (member_id page) →
  ∃ (p' : Page) (message : string),
    handleCheckIn clk' page' (handleCheckIn clk page ls).2
    = (Some p', (handleCheckIn clk page ls).2)
    ∧ notification p' = Some (message, "error")
    ∧ (message = "Member is already checked in."
       ∨ message = "Membership has expired. Please renew to continue.").
Proof.
  intros Hp Hn Hsame.
  destruct (handleCheckIn_success_inv _ _ _ _ Hp Hn)
    as (index & member & Hid & Hf & _ & ->).
  pose proof (getMemberById_checkIn _ (clk 2%nat) (clk 3%nat) _ _ _ Hf)
    as Hafter.
  set (ls1 := (checkIn (trim (member_id page)) (clk 2%nat) (clk 3%nat) ls).2)
    in *.
  destruct (handleCheckIn_outcome clk' page' ls1)
    as [Hid'|Hid' Hget|index' member' info Hid' Hf' Hdays
        |index' member' info Hid' Hf' Hdays Hst
        |index' member' info Hid' Hf' Hdays Hst Hdisp Hclass].
  - congruence.
  - congruence.
  - eexists _, _. split; [reflexivity|]. split; [reflexivity|]. by right.
  - eexists _, _. split; [reflexivity|]. split; [reflexivity|]. by left.
  - apply find_getMemberById in Hf'. rewrite Hsame, Hafter in Hf'.
    injection Hf' as <-. destruct Hst.
    apply getMemberStatus_checked_in_b. unfold checked_in_b.
    by simplify_map_eq.
Qed.

(** X14: a member who was checked in through [handleCheckIn] can always be
    checked out through [handleCheckOut], whatever the clock reads then
    (the days remaining are not looked at), and once that check-out
    succeeded every further [handleCheckOut] for the id is refused and
    leaves storage as it is. *)
Theorem handleCheckOut_after_checkIn (clk clk' clk'' : nat → Z)
    (page page' page'' p : Page) (ls : LocalStorage) :
  (handleCheckIn clk page ls).1 = Some p →
  notification p = Some ("Check-in successful!", "success") →
  trim (member_id page') = trim (member_id page) →
  trim (member_id page'') = trim (member_id page) →
  let ls1 := (handleCheckIn clk page ls).2 in
  let ls2 := (handleCheckOut clk' page' ls1).2 in
  (∃ p', (handleCheckOut clk' page' ls1).1 = Some p'
         ∧ notification p' = Some ("Check-out successful!", "success"))
  ∧ ls2 = (checkOut (trim (member_id page)) (clk' 1%nat) (clk' 2%nat) ls1).2
  ∧ ∃ p'', handleCheckOut clk'' page'' ls2 = (Some p'', ls2)
           ∧ notification p''
             = Some ("Member is not currently checked in.", "error").
Proof.
  intros Hp Hn Hsame Hsame'. cbv zeta.
  destruct (handleCheckIn_success_inv _ _ _ _ Hp Hn)
    as (index & member & Hid & Hf & _ & ->).
  pose proof (getMemberById_checkIn _ (clk 2%nat) (clk 3%nat) _ _ _ Hf)
    as Hafter.
  set (ls1 := (checkIn (trim (member_id page)) (clk 2%nat) (clk 3%nat) ls).2)
    in *.
  assert (∃ index1 member1,
            list_find (has_id (trim (member_id page))) (getMembers ls1)
            = Some (index1, member1)
            ∧ checked_in_b member1 = true) as (index1 & member1 & Hf1 & Hin1).
  { destruct (getMemberById_find _ _ _ Hafter) as [index1 Hf1].
    eexists _, _. split; [done|]. unfold checked_in_b. by simplify_map_eq. }
  assert ((handleCheckOut clk' page' ls1).2
          = (checkOut (trim (member_id page)) (clk' 1%nat) (clk' 2%nat) ls1).2
          ∧ ∃ p', (handleCheckOut clk' page' ls1).1 = Some p'
                  ∧ notification p'
                    = Some ("Check-out successful!", "success"))
    as [Hls2 Hp'].
  { destruct (handleCheckOut_outcome clk' page' ls1)
      as [Hid'|Hid' Hget|index' member' info Hid' Hf' Hst
          |index' member' info Hid' Hf' Hst Hdisp Hclass].
    - congruence.
    - congruence.
    - rewrite Hsame, Hf1 in Hf'. injection Hf' as <- <-. destruct Hst.
      by apply getMemberStatus_checked_in_b.
    - rewrite Hsame. split; [done|]. eauto. }
  split; [done|]. split; [done|]. rewrite Hls2.
  pose proof (getMemberById_checkOut _ (clk' 1%nat) (clk' 2%nat) _ _ _ Hf1)
    as Hafter2.
  set (ls2 := (checkOut (trim (member_id page)) (clk' 1%nat) (clk' 2%nat)
                 ls1).2) in *.
  destruct (handleCheckOut_outcome clk'' page'' ls2)
    as [Hid'|Hid' Hget|index' member' info Hid' Hf' Hst
        |index' member' info Hid' Hf' Hst Hdisp Hclass].
  - congruence.
  - congruence.
  - eexists. split; reflexivity.
  - apply find_getMemberById in Hf'. rewrite Hsame', Hafter2 in Hf'.
    injection Hf' as <-.
    apply getMemberStatus_checked_in_b in Hst. unfold checked_in_b in Hst.
    rewrite (lookup_insert_eq member1 "lastCheckOut") in Hst. simpl in Hst.
    by rewrite andb_false_r in Hst.
Qed.

End WithHost.

End HandlerExtras.

(** ** What holds of every storage the pages bring about *)

Module UIExtras.
Import JS StorageService MembersService Spec DateFacts StorageFacts FieldFacts
  LookupFacts AttendanceService UISpec HandlerFacts InvariantFacts.

Section WithHost.
Context `{Host}.

(** The record an accepted registration stores. *)
Lemma handleRegistration_accepted form now regNow ls :
  trim (new_name form) ≠ "" →
  trim (new_email form) ≠ "" →
  trim (new_phone form) ≠ "" →
  membership_type form ≠ "" →
  ∃ partial : obj,
    handleRegistration form now regNow ls
    = (Some (newMember_of partial (generateMemberId ls).1 regNow),
       saveMembers
         (getMembers ls
          ++ [newMember_of partial (generateMemberId ls).1 regNow])
         (generateMemberId ls).2)
    ∧ partial !! "membershipEndDate"
      = Some (VTime (membershipEndDate (membership_type form) now)).
Proof.
  intros Hname Hemail Hphone Htype.
  unfold handleRegistration. cbv zeta.
  rewrite !bool_decide_eq_false_2 by done. cbn [orb].
  unfold createMember, addMember.
  destruct (generateMemberId ls) as [newId ls1]. cbn [fst snd].
  eexists. split; [reflexivity|]. by simplify_map_eq.
Qed.

(** X16: in storage the pages bring about, the member registered as
    number [i] (from 0) has the id 1001 + [i] and [getMemberById] with that
    id returns it; the counter reads 1000 plus the number of members; and
    no two stored members share an id. *)
Theorem ui_member_ids (ls : LocalStorage) :
  ui_reachable ls →
  counter_is (1000 + Z.of_nat (length (getMembers ls))) ls
  ∧ (∀ (i : nat) (m : obj),
       getMembers ls !! i = Some m →
       m !! "id" = Some (VStr (Number_toString (Some (1001 + Z.of_nat i))))
       ∧ getMemberById (Number_toString (Some (1001 + Z.of_nat i))) ls
         = Some m)
  ∧ (∀ (i j : nat) (m m' : obj) (id : string),
       getMembers ls !! i = Some m → getMembers ls !! j = Some m' →
       has_id id m → has_id id m' → i = j).
Proof.
  intros Hreach. pose proof (ui_reachable_invariant _ Hreach) as Hinv.
  split_and!.
  - apply (inv_counter _ Hinv).
  - intros i m Hl. split; [by apply (inv_ids _ Hinv)|].
    apply (find_getMemberById_nth _ _ _ Hinv Hl).
  - intros i j m m' id Hi Hj Hm Hm'.
    pose proof (inv_ids _ Hinv _ _ Hi) as Hidi.
    pose proof (inv_ids _ Hinv _ _ Hj) as Hidj.
    unfold has_id in *. rewrite Hidi in Hm. rewrite Hidj in Hm'.
    apply nth_id_inj. congruence.
Qed.

(** X17: the id an accepted registration gives out is new, and looking it
    up afterwards returns exactly the member just registered. *)
Theorem registration_id_finds_member (form : RegistrationForm)
    (now regNow : Z) (ls : LocalStorage) :
  ui_reachable ls →
  trim (new_name form) ≠ "" →
  trim (new_email form) ≠ "" →
  trim (new_phone form) ≠ "" →
  membership_type form ≠ "" →
  ∃ (member : obj) (id : string),
    (handleRegistration form now regNow ls).1 = Some member
    ∧ member !! "id" = Some (VStr id)
    ∧ getMemberById id ls = None
    ∧ getMemberById id (handleRegistration form now regNow ls).2
      = Some member.
Proof.
  intros Hreach Hname Hemail Hphone Htype.
  pose proof (ui_reachable_invariant _ Hreach) as Hinv.
  destruct (handleRegistration_accepted form now regNow ls
              Hname Hemail Hphone Htype) as (partial & -> & _).
  cbn [fst snd].
  rewrite (generateMemberId_counter _ _ (inv_counter _ Hinv)). cbn [fst].
  set (n := length (getMembers ls)).
  replace (1000 + Z.of_nat n + 1) with (1001 + Z.of_nat n) by lia.
  fold (nth_id n).
  assert (list_find (has_id (nth_id n)) (getMembers ls) = None) as Hnone.
  { apply list_find_None, Forall_lookup. intros j m Hj Hid.
    pose proof (inv_ids _ Hinv _ _ Hj) as Hidj.
    unfold has_id in Hid. rewrite Hidj in Hid. injection Hid as Heq.
    apply nth_id_inj in Heq. apply lookup_lt_Some in Hj. subst n. lia. }
  eexists _, (nth_id n). split_and!.
  - done.
  - unfold newMember_of. by simplify_map_eq.
  - unfold getMemberById. by rewrite Hnone.
  - unfold getMemberById. rewrite getMembers_saveMembers.
    rewrite (list_find_app_r _ _ _ Hnone). simpl.
    rewrite decide_True; [done|]. unfold has_id, newMember_of.
    by simplify_map_eq.
Qed.

(** X18: every attendance record in storage the pages bring about is a
    check-in or a check-out of a member that is stored. *)
Theorem ui_attendance_references (ls : LocalStorage) :
  ui_reachable ls →
  ∀ record : obj, record ∈ getAttendance ls →
    ∃ (id : string) (member : obj),
      record !! "memberId" = Some (VStr id)
      ∧ getMemberById id ls = Some member
      ∧ (record !! "type" = Some (VStr "check-in")
         ∨ record !! "type" = Some (VStr "check-out")).
Proof.
  intros Hreach record Hin.
  pose proof (ui_reachable_invariant _ Hreach) as Hinv.
  destruct (inv_records _ Hinv record Hin)
    as (i & type & Hlt & [Hmid Hty] & Htype).
  destruct (lookup_lt_is_Some_2 _ _ Hlt) as [member Hl].
  exists (nth_id i), member. split_and!.
  - done.
  - apply (find_getMemberById_nth _ _ _ Hinv Hl).
  - destruct Htype as [-> | ->]; auto.
Qed.

(** X19: every member in storage the pages bring about has a timestamp as
    end date and timestamps or nothing as last check-in and check-out, has
    no check-out without a check-in, and has days remaining that are a
    number [>= 0], never [NaN], at every reading of the clock. *)
Theorem ui_members_well_formed (ls : LocalStorage) :
  ui_reachable ls →
  ∀ m : obj, m ∈ getMembers ls →
    (∃ t, m !! "membershipEndDate" = Some (VTime t))
    ∧ nullable_timestamp (m !! "lastCheckIn")
    ∧ nullable_timestamp (m !! "lastCheckOut")
    ∧ (is_set (m !! "lastCheckOut") → is_set (m !! "lastCheckIn"))
    ∧ ∀ now, ∃ n, calculateDaysRemaining (Some m) now = Some n ∧ 0 <= n.
Proof.
  intros Hreach m Hin.
  pose proof (ui_reachable_invariant _ Hreach) as Hinv.
  pose proof (inv_members _ Hinv) as Hok. rewrite Forall_forall in Hok.
  destruct (Hok m Hin) as (_ & [t Hend] & Hci & Hco & Himp).
  split_and!; eauto.
  intros now. eexists. split.
  - apply (calculateDaysRemaining_set (Some m) now t).
    + unfold is_set, field. simpl. by rewrite Hend.
    + unfold field. simpl. by rewrite Hend.
  - lia.
Qed.

(** X20: for every member in storage the pages bring about, check-ins and
    check-outs alternate: the member has one more check-in record than
    check-out records while its status is checked in, and equally many
    otherwise. *)
Theorem ui_records_balance (ls : LocalStorage) :
  ui_reachable ls →
  ∀ (id : string) (m : obj) (now : Z),
    getMemberById id ls = Some m →
    count_records "check-in" id ls
    = (count_records "check-out" id ls
       + (if decide (getMemberStatus (Some m) now = "checked-in")
          then 1 else 0))%nat.
Proof.
  intros Hreach id m now Hget.
  pose proof (ui_reachable_invariant _ Hreach) as Hinv.
  destruct (getMemberById_find _ _ _ Hget) as [index Hf].
  pose proof (ui_invariant_find _ _ _ _ Hinv Hf) as ->.
  apply list_find_Some in Hf as (Hl & _ & _).
  rewrite (inv_balance _ Hinv _ _ Hl). f_equal.
  destruct (checked_in_b m) eqn:Hb.
  - rewrite decide_True; [done|]. by apply getMemberStatus_checked_in_b.
  - rewrite decide_False; [done|]. rewrite getMemberStatus_checked_in_b.
    congruence.
Qed.

(** X21: a member just registered can check in with the id given out, at
    any reading of the clock less than 30 local calendar days after the
    registration. *)
Theorem registration_then_checkIn (form : RegistrationForm) (now regNow : Z)
    (clk : nat → Z) (page : Page) (ls : LocalStorage) (member : obj) :
  ui_reachable ls →
  trim (new_name form) ≠ "" →
  trim (new_email form) ≠ "" →
  trim (new_phone form) ≠ "" →
  membership_type form ≠ "" →
  (handleRegistration form now regNow ls).1 = Some member →
  member !! "id" = Some (VStr (trim (member_id page))) →
  Day (LocalTime (clk 0%nat)) < Day (LocalTime now) + 30 →
  ∃ p : Page,
    (handleCheckIn clk page (handleRegistration form now regNow ls).2).1
    = Some p
    ∧ notification p = Some ("Check-in successful!", "success")
    ∧ ∀ now',
        getMemberStatus
          (getMemberById (trim (member_id page))
             (handleCheckIn clk page
                (handleRegistration form now regNow ls).2).2) now'
        = "checked-in".
Proof.
  intros Hreach Hname Hemail Hphone Htype Hreg Hid Hclk.
  pose proof (ui_reachable_invariant _ Hreach) as Hinv.
  destruct (handleRegistration_accepted form now regNow ls
              Hname Hemail Hphone Htype) as (partial & Heq & Hend).
  rewrite (generateMemberId_counter _ _ (inv_counter _ Hinv)) in Heq.
  cbn [fst snd] in Heq.
  rewrite Heq in Hreg |- *. cbn [fst snd] in *. injection Hreg as <-.
  match type of Heq with
  | _ = (Some ?m, _) => set (new := m) in *
  end.
  match type of Heq with
  | _ = (_, ?l) => set (ls' := l) in *
  end.
  assert (has_id (trim (member_id page)) new) as Hhas by done.
  assert (trim (member_id page) = nth_id (length (getMembers ls))) as Htrim.
  { unfold new, newMember_of in Hid.
    rewrite lookup_insert_ne, lookup_insert_ne, lookup_insert_ne,
      lookup_insert_eq in Hid by done.
    injection Hid as <-. unfold nth_id. f_equal. lia. }
  assert (getMemberById (trim (member_id page)) ls' = Some new) as Hget.
  { assert (list_find (has_id (trim (member_id page))) (getMembers ls) = None)
      as Hnone.
    { apply list_find_None, Forall_lookup. intros j m Hj Hidj.
      pose proof (inv_ids _ Hinv _ _ Hj) as Hidj'.
      unfold has_id in Hidj. rewrite Hidj', Htrim in Hidj.
      injection Hidj as Hp. apply nth_id_inj in Hp.
      apply lookup_lt_Some in Hj. lia. }
    unfold getMemberById, ls'. rewrite getMembers_saveMembers.
    rewrite (list_find_app_r _ _ _ Hnone). simpl. by rewrite decide_True. }
  destruct (membershipEndDate_days (membership_type form) now)
    as (days & Hdays & H30 & H90 & H180 & H365 & Hother).
  assert (30 <= days) as Hge.
  { destruct (decide (membership_type form = "monthly")) as [e|?];
      [rewrite (H30 e); lia|].
    destruct (decide (membership_type form = "quarterly")) as [e|?];
      [rewrite (H90 e); lia|].
    destruct (decide (membership_type form = "halfyearly")) as [e|?];
      [rewrite (H180 e); lia|].
    destruct (decide (membership_type form = "annual")) as [e|?];
      [rewrite (H365 e); lia|].
    rewrite Hother; [lia|].
    rewrite !elem_of_cons, elem_of_nil. tauto. }
  assert (le_zero (calculateDaysRemaining (Some new) (clk 0%nat)) = false)
    as Hdaysleft.
  { destruct (calculateDaysRemaining_days (Some new) (clk 0%nat)
                (UTC (LocalTime now + days * msPerDay)))
      as (n & Hn & _ & Hpos & _).
    - unfold is_set, field, new, newMember_of. simplify_map_eq. done.
    - unfold field, new, newMember_of. simplify_map_eq. by rewrite Hdays.
    - rewrite Hn. simpl. apply Z.leb_gt.
      rewrite Day_LocalTime_moved in Hpos.
      assert (Day (LocalTime (clk 0%nat)) < Day (LocalTime now) + days) as Hlt
        by lia.
      specialize (Hpos Hlt). lia. }
  assert (checked_in_b new = false) as Hnotin.
  { unfold checked_in_b, new, newMember_of. by simplify_map_eq. }
  destruct (handleCheckIn_outcome clk page ls')
    as [Hid'|Hid' Hget'|index member' info Hid' Hf Hexp
        |index member' info Hid' Hf Hexp Hst
        |index member' info Hid' Hf Hexp Hst Hdisp Hclass].
  - exfalso. rewrite Htrim in Hid'.
    by apply StringFacts.pretty_Z_nonempty in Hid'.
  - congruence.
  - apply find_getMemberById in Hf. congruence.
  - apply find_getMemberById in Hf. rewrite Hget in Hf. injection Hf as <-.
    apply getMemberStatus_checked_in_b in Hst. congruence.
  - eexists. split; [reflexivity|]. split; [reflexivity|]. intros now'.
    cbn [snd].
    rewrite (getMemberById_checkIn _ _ _ _ _ _ Hf).
    apply getMemberStatus_checked_in_b. unfold checked_in_b.
    by simplify_map_eq.
Qed.

End WithHost.

End UIExtras.

(** ** Properties of the members list and the search *)

Module SearchExtras.
Import JS StorageService Spec MembersList UISpec SearchFacts StorageFacts
  InvariantFacts.

Section WithHost.
Context `{Host}.

(** X22: when every stored member has a string as name, a search for the
    empty text, or for white space only, shows exactly what
    [loadMembersList] shows. *)
Theorem handleSearch_blank (value : string) (clk : nat → Z)
    (ls : LocalStorage) :
  (∀ m : obj, m ∈ getMembers ls → ∃ name, m !! "name" = Some (VStr name)) →
  trim (toLowerCase value) = "" →
  handleSearch value clk ls = Some (loadMembersList clk ls).
Proof.
  intros Hnames Hblank. unfold handleSearch, loadMembersList. cbv zeta.
  rewrite Hblank. case_bool_decide as Hlen; [done|].
  assert (filterMembers "" (getMembers ls) = Some (getMembers ls)) as ->.
  { revert Hnames. generalize (getMembers ls). intros l Hl.
    induction l as [|m l IH]; [done|]. cbn [filterMembers].
    assert (matchesSearch "" m = Some true) as ->.
    { apply matches_empty, Hl. by left. }
    rewrite IH; [done|]. intros m' Hm'. apply Hl. by right. }
  by rewrite bool_decide_eq_false_2.
Qed.

(** X23: when every stored member has strings as name and id, the search
    ends without error and shows the cards of exactly the members whose
    lower-cased name or whose id contains the term, in stored order, or
    the no-match message when there is none.  A stored member whose name
    is missing or [null] makes the search end in a [TypeError]. *)
Theorem handleSearch_spec (value : string) (clk : nat → Z)
    (ls : LocalStorage) :
  (Forall has_strings (getMembers ls) →
   getMembers ls ≠ [] →
   let shown := filter (matches (trim (toLowerCase value))) (getMembers ls) in
   shown `sublist_of` getMembers ls
   ∧ (∀ m, m ∈ shown ↔
        m ∈ getMembers ls
        ∧ ∃ name id,
            m !! "name" = Some (VStr name) ∧ m !! "id" = Some (VStr id)
            ∧ (includes (toLowerCase name) (trim (toLowerCase value)) = true
               ∨ includes id (trim (toLowerCase value)) = true))
   ∧ handleSearch value clk ls
     = Some (if bool_decide (shown = [])
             then NoMembers "No members found matching your search."
             else Cards (imap (memberCard clk) shown)))
  ∧ (∀ m, m ∈ getMembers ls →
       m !! "name" = None ∨ m !! "name" = Some VNull →
       handleSearch value clk ls = None).
Proof.
  split.
  - intros Hstr Hne. cbv zeta. split_and!.
    + apply sublist_filter.
    + intros m. rewrite list_elem_of_filter. split.
      * intros [Hm Hin]. split; [done|].
        rewrite Forall_forall in Hstr.
        destruct (Hstr m Hin) as [[name Hn] [id Hi]].
        exists name, id. split_and!; [done|done|].
        unfold matches, matchesSearch in Hm. rewrite Hn, Hi in Hm.
        simpl in Hm. destruct (includes (toLowerCase name) _); [by left|].
        right. congruence.
      * intros [Hin (name & id & Hn & Hi & Hor)]. split; [|done].
        unfold matches, matchesSearch. rewrite Hn, Hi. simpl.
        destruct (includes (toLowerCase name) _); [done|].
        destruct Hor as [?|Hor]; [done|]. by rewrite Hor.
    + unfold handleSearch. cbv zeta.
      rewrite bool_decide_eq_false_2
        by (intros Hlen; by apply length_zero_iff_nil in Hlen).
      rewrite (filterMembers_filter _ _ Hstr).
      destruct (filter _ (getMembers ls)) as [|x shown] eqn:Hshown; done.
  - intros m Hin Hnoname.
    assert (as_string (m !! "name") = None) as Hname
      by (destruct Hnoname as [-> | ->]; done).
    unfold handleSearch. cbv zeta.
    rewrite bool_decide_eq_false_2.
    + by rewrite (filterMembers_throws _ _ m Hin Hname).
    + intros Hlen. apply length_zero_iff_nil in Hlen. rewrite Hlen in Hin.
      by apply elem_of_nil in Hin.
Qed.

(** X24: in storage the pages bring about the search never ends in an
    error, and a text that, lower-cased and trimmed, is the id of a stored
    member or its lower-cased name brings up the card of that member. *)
Theorem ui_search_finds (value : string) (clk : nat → Z) (ls : LocalStorage)
    (m : obj) (name id : string) :
  ui_reachable ls →
  m ∈ getMembers ls →
  m !! "name" = Some (VStr name) →
  m !! "id" = Some (VStr id) →
  trim (toLowerCase value) = id
  ∨ trim (toLowerCase value) = toLowerCase name →
  (∀ value' clk', is_Some (handleSearch value' clk' ls))
  ∧ ∃ (cards : list MemberCard) (card : MemberCard),
      handleSearch value clk ls = Some (Cards cards)
      ∧ card ∈ cards
      ∧ card_id card = Some (VStr id)
      ∧ card_name card = Some (VStr name).
Proof.
  intros Hreach Hin Hn Hi Hterm.
  pose proof (ui_reachable_invariant _ Hreach) as Hinv.
  pose proof (ui_invariant_has_strings _ Hinv) as Hstr.
  split.
  - intros value' clk'. unfold handleSearch. cbv zeta.
    rewrite (filterMembers_filter _ _ Hstr).
    repeat case_bool_decide; eauto.
  - assert (m ∈ filter (matches (trim (toLowerCase value))) (getMembers ls))
      as Hshown.
    { apply list_elem_of_filter. split; [|done].
      unfold matches, matchesSearch. rewrite Hn, Hi. simpl.
      destruct Hterm as [-> | ->].
      - rewrite includes_refl. by case_match.
      - by rewrite includes_refl. }
    unfold handleSearch. cbv zeta.
    rewrite bool_decide_eq_false_2.
    2:{ intros Hlen. apply length_zero_iff_nil in Hlen. rewrite Hlen in Hin.
        by apply elem_of_nil in Hin. }
    rewrite (filterMembers_filter _ _ Hstr).
    rewrite bool_decide_eq_false_2.
    2:{ intros Hlen. apply length_zero_iff_nil in Hlen.
        rewrite Hlen in Hshown. by apply elem_of_nil in Hshown. }
    apply list_elem_of_lookup in Hshown as [j Hj].
    eexists _, (memberCard clk j m). split_and!.
    + done.
    + apply list_elem_of_lookup. exists j.
      by rewrite list_lookup_imap, Hj.
    + done.
    + done.
Qed.

End WithHost.

End SearchExtras.

(** ** Edge behaviour of the id counter and of the list of members *)

Module EdgeExtras.
Import JS StorageService Spec StorageFacts MembersList.

Lemma generateMemberId_NaN ls :
  parseInt (counter_item ls) = None →
  generateMemberId ls = ("NaN", setItem_COUNTER "NaN" ls).
Proof.
  unfold counter_item, generateMemberId. cbv zeta. by intros ->.
Qed.

Lemma generateMemberIds_NaN k : ∀ ls,
  parseInt (counter_item ls) = None →
  (generateMemberIds k ls).1 = replicate k "NaN".
Proof.
  induction k as [|k IH]; intros ls Hnan; [done|].
  cbn [generateMemberIds]. rewrite (generateMemberId_NaN _ Hnan).
  specialize (IH (setItem_COUNTER "NaN" ls) eq_refl).
  destruct (generateMemberIds k _) as [ids ls2]. cbn [fst] in *.
  by rewrite IH.
Qed.

(** X15: a stored counter that does not read as a number is never
    repaired: [generateMemberId] then returns the string NaN, stores it as
    the counter, and so does every later call; every member added from
    then on gets the id NaN. *)
Theorem generateMemberId_not_a_number (ls : LocalStorage) :
  parseInt (counter_item ls) = None →
  generateMemberId ls = ("NaN", setItem_COUNTER "NaN" ls)
  ∧ parseInt (counter_item (generateMemberId ls).2) = None
  ∧ (∀ k, (generateMemberIds k ls).1 = replicate k "NaN")
  ∧ (∀ member now member' now',
       (addMember member now ls).1 !! "id" = Some (VStr "NaN")
       ∧ (addMember member' now' (addMember member now ls).2).1 !! "id"
         = Some (VStr "NaN")).
Proof.
  intros Hnan. split_and!.
  - by apply generateMemberId_NaN.
  - by rewrite (generateMemberId_NaN _ Hnan).
  - intros k. by apply generateMemberIds_NaN.
  - intros member now member' now'. unfold addMember.
    rewrite (generateMemberId_NaN _ Hnan). cbn [fst snd].
    match goal with
    | |- context [generateMemberId ?l] =>
        rewrite (generateMemberId_NaN l eq_refl)
    end.
    cbn [fst]. unfold newMember_of. split; by simplify_map_eq.
Qed.

Section WithHost.
Context `{Host}.

Lemma formatStatus_getMemberStatus (member : option obj) (now : Z) :
  formatStatus (getMemberStatus member now)
  ∈ ["Checked In"; "Checked Out"; "Not Checked In"].
Proof.
  unfold getMemberStatus, formatStatus.
  repeat case_match; rewrite !elem_of_cons; try tauto;
    repeat case_bool_decide; try done; tauto.
Qed.

(** X25: [loadMembersList] shows the no-members message exactly when no
    member is stored; otherwise it shows one card per stored member, in
    stored order, each with the id and name of its member, the days
    remaining at the time of the run, and as status one of the three
    texts Checked In, Checked Out and Not Checked In. *)
Theorem loadMembersList_spec (clk : nat → Z) (ls : LocalStorage) :
  (getMembers ls = [] →
   loadMembersList clk ls = NoMembers "No members registered yet.")
  ∧ (getMembers ls ≠ [] →
     ∃ cards : list MemberCard,
       loadMembersList clk ls = Cards cards
       ∧ length cards = length (getMembers ls)
       ∧ ∀ (i : nat) (m : obj),
           getMembers ls !! i = Some m →
           ∃ card,
             cards !! i = Some card
             ∧ card_id card = m !! "id"
             ∧ card_name card = m !! "name"
             ∧ card_days card
               = calculateDaysRemaining (Some m) (clk (2 * i)%nat)
             ∧ card_status card
               ∈ ["Checked In"; "Checked Out"; "Not Checked In"]).
Proof.
  unfold loadMembersList. cbv zeta. split.
  - intros ->. done.
  - intros Hne. rewrite bool_decide_eq_false_2
      by (intros Hlen; by apply length_zero_iff_nil in Hlen).
    eexists. split; [reflexivity|]. split; [apply length_imap|].
    intros i m Hl. exists (memberCard clk i m). split_and!.
    + by rewrite list_lookup_imap, Hl.
    + done.
    + done.
    + done.
    + apply formatStatus_getMemberStatus.
Qed.

End WithHost.

End EdgeExtras.

(** ** Worked examples of the further properties *)

Module ExtraExamples.
Import JS StorageService MembersService AttendanceService Spec UISpec
  StorageFacts InvariantFacts SearchFacts.

Lemma registeredStorage_reachable : @ui_reachable utcHost registeredStorage.
Proof. apply ui_register, ui_first_use. Qed.

Lemma checkedInStorage_reachable : @ui_reachable utcHost checkedInStorage.
Proof. apply ui_checkIn, registeredStorage_reachable. Qed.

Lemma exampleStorage_has_1001 :
  Exists (has_id "1001") (getMembers exampleStorage).
Proof. constructor. reflexivity. Qed.

(** Changing the phone number of member 1001 and reading it back. *)
Lemma updateMember_getMemberById_witness :
  (({[ "phone" := VStr "555 0199" ]} : obj) !! "id" = None
   ∧ Exists (has_id "1001") (getMembers exampleStorage))
  ∧ ∃ merged : obj,
      (updateMember "1001" {[ "phone" := VStr "555 0199" ]} exampleStorage).1
      = Some merged
      ∧ getMemberById "1001"
          (updateMember "1001" {[ "phone" := VStr "555 0199" ]}
             exampleStorage).2
        = Some merged.
Proof.
  assert (({[ "phone" := VStr "555 0199" ]} : obj) !! "id" = None) as Hupd
    by reflexivity.
  split; [split; [exact Hupd|exact exampleStorage_has_1001]|].
  destruct (StorageExtras.updateMember_getMemberById "1001"
              {[ "phone" := VStr "555 0199" ]} exampleStorage Hupd
              exampleStorage_has_1001) as (Hget & [merged Hm] & _).
  exists merged. split; [exact Hm|]. rewrite Hget. exact Hm.
Defined.

(** The updates of [updateMember] on the example storage. *)
Lemma updateMember_spec_witness :
  (Forall (λ m, ¬ has_id "9999" m) (getMembers exampleStorage)
   ∧ updateMember "9999" {[ "phone" := VStr "555 0199" ]} exampleStorage
     = (None, exampleStorage))
  ∧ (Exists (has_id "1001") (getMembers exampleStorage)
     ∧ ∃ (merged : obj) (ls' : LocalStorage),
         updateMember "1001" {[ "phone" := VStr "555 0199" ]} exampleStorage
         = (Some merged, ls')
         ∧ merged !! "phone" = Some (VStr "555 0199")
         ∧ merged !! "name" = Some (VStr "Asha")).
Proof.
  assert (Forall (λ m, ¬ has_id "9999" m) (getMembers exampleStorage)) as Hno.
  { repeat constructor. intros Hid. discriminate Hid. }
  split.
  - split; [exact Hno|].
    exact (proj1 (StorageExtras.updateMember_spec "9999"
                    {[ "phone" := VStr "555 0199" ]} exampleStorage) Hno).
  - split; [exact exampleStorage_has_1001|].
    destruct (proj2 (StorageExtras.updateMember_spec "1001"
                       {[ "phone" := VStr "555 0199" ]} exampleStorage)
                exampleStorage_has_1001)
      as (index & old & merged & ls' & Hget & _ & Hupd & _ & Hnew & Hold & _).
    exists merged, ls'. split; [exact Hupd|]. split.
    + apply Hnew. reflexivity.
    + rewrite Hold by reflexivity. injection Hget as <-. reflexivity.
Defined.

(** The history of member 1001 after a check-in. *)
Lemma getMemberAttendance_transition_witness :
  Exists (has_id "1001") (getMembers exampleStorage)
  ∧ ∃ record : obj,
      (@checkIn utcHost "1001" feb01 feb01 exampleStorage).1 = Some record
      ∧ getMemberAttendance "1001"
          (@checkIn utcHost "1001" feb01 feb01 exampleStorage).2
        = getMemberAttendance "1001" exampleStorage ++ [record].
Proof.
  split; [exact exampleStorage_has_1001|].
  exact (proj1 (@StorageExtras.getMemberAttendance_transition utcHost "1001"
                  feb01 feb01 exampleStorage exampleStorage_has_1001)).
Defined.

(** Member 1001 checked in on 2024-02-01 still reads as checked in on
    2024-03-31. *)
Lemma getMemberStatus_after_transition_witness :
  Exists (has_id "1001") (getMembers exampleStorage)
  ∧ @getMemberStatus utcHost
      (getMemberById "1001"
         (@checkIn utcHost "1001" feb01 feb01 exampleStorage).2) mar31
    = "checked-in".
Proof.
  split; [exact exampleStorage_has_1001|].
  exact (proj1 (@StatusExtras.getMemberStatus_after_transition utcHost "1001"
                  feb01 feb01 exampleStorage exampleStorage_has_1001) mar31).
Defined.

(** New York, 2024-11-03, for a membership that ends the next day: one
    calendar day is left and the count is one or two. *)
Lemma calculateDaysRemaining_calendar_witness :
  (is_set (field "membershipEndDate" (Some endingMember))
   ∧ @Date_of_value newYorkHost (field "membershipEndDate" (Some endingMember))
     = Some nov04noon
   ∧ @dates_in_range newYorkHost nov03noon
       (field "membershipEndDate" (Some endingMember)))
  ∧ ∃ n : Z,
      @calculateDaysRemaining newYorkHost (Some endingMember) nov03noon
      = Some n
      ∧ 1 <= n <= 1 + 1.
Proof.
  assert (is_set (field "membershipEndDate" (Some endingMember))) as Hset
    by reflexivity.
  assert (@Date_of_value newYorkHost
            (field "membershipEndDate" (Some endingMember)) = Some nov04noon)
    as He by reflexivity.
  assert (@dates_in_range newYorkHost nov03noon
            (field "membershipEndDate" (Some endingMember))) as Hrange.
  { split.
    - split; unfold in_Date_range; vm_compute; discriminate.
    - intros e [= <-]. split; unfold in_Date_range; vm_compute; discriminate. }
  split; [split_and!; [exact Hset|exact He|exact Hrange]|].
  destruct (@StatusExtras.calculateDaysRemaining_calendar newYorkHost
              (Some endingMember) nov03noon nov04noon Hset He Hrange)
    as (n & Hn & _ & Hpos & _).
  exists n. split; [exact Hn|].
  assert (Day (@LocalTime newYorkHost nov03noon)
          < Day (@LocalTime newYorkHost nov04noon)) as Hlt by reflexivity.
  specialize (Hpos Hlt).
  assert (Day (@LocalTime newYorkHost nov04noon)
          - Day (@LocalTime newYorkHost nov03noon) = 1) as Hk by reflexivity.
  rewrite Hk in Hpos. exact Hpos.
Defined.

Lemma exampleForm_valid :
  trim (new_name exampleForm) ≠ ""
  ∧ trim (new_email exampleForm) ≠ ""
  ∧ trim (new_phone exampleForm) ≠ ""
  ∧ membership_type exampleForm ≠ "".
Proof. split_and!; done. Qed.


(** Member 1001 checks in on 2024-02-01; a second attempt a minute later
    is refused and writes nothing. *)
Lemma handleCheckIn_repeat_witness :
  ((∃ p, (@handleCheckIn utcHost (constClock feb01) (pageWith "1001")
            registeredStorage).1 = Some p
         ∧ notification p = Some ("Check-in successful!", "success"))
   ∧ trim (member_id (pageWith " 1001 ")) = trim (member_id (pageWith "1001")))
  ∧ ∃ (p' : Page) (message : string),
      @handleCheckIn utcHost (constClock (feb01 + msPerMinute))
        (pageWith " 1001 ") checkedInStorage
      = (Some p', checkedInStorage)
      ∧ notification p' = Some (message, "error").
Proof.
  assert (∃ p, (@handleCheckIn utcHost (constClock feb01) (pageWith "1001")
                  registeredStorage).1 = Some p
               ∧ notification p = Some ("Check-in successful!", "success"))
    as Hfirst.
  { vm_compute. eexists. split; reflexivity. }
  assert (trim (member_id (pageWith " 1001 "))
          = trim (member_id (pageWith "1001"))) as Hsame by reflexivity.
  split; [split; [exact Hfirst|exact Hsame]|].
  destruct Hfirst as (p & Hp & Hn).
  destruct (@HandlerExtras.handleCheckIn_repeat utcHost (constClock feb01)
              (constClock (feb01 + msPerMinute)) (pageWith "1001")
              (pageWith " 1001 ") p registeredStorage Hp Hn Hsame)
    as (p' & message & Hrun & Hnote & _).
  exists p', message. split; [exact Hrun|exact Hnote].
Defined.

(** The same member checks out a minute after checking in. *)
Lemma handleCheckOut_after_checkIn_witness :
  ((∃ p, (@handleCheckIn utcHost (constClock feb01) (pageWith "1001")
            registeredStorage).1 = Some p
         ∧ notification p = Some ("Check-in successful!", "success"))
   ∧ trim (member_id (pageWith " 1001 ")) = trim (member_id (pageWith "1001")))
  ∧ ∃ p' : Page,
      (@handleCheckOut utcHost (constClock (feb01 + msPerMinute))
         (pageWith " 1001 ") checkedInStorage).1 = Some p'
      ∧ notification p' = Some ("Check-out successful!", "success").
Proof.
  assert (∃ p, (@handleCheckIn utcHost (constClock feb01) (pageWith "1001")
                  registeredStorage).1 = Some p
               ∧ notification p = Some ("Check-in successful!", "success"))
    as Hfirst.
  { vm_compute. eexists. split; reflexivity. }
  assert (trim (member_id (pageWith " 1001 "))
          = trim (member_id (pageWith "1001"))) as Hsame by reflexivity.
  split; [split; [exact Hfirst|exact Hsame]|].
  destruct Hfirst as (p & Hp & Hn).
  exact (proj1 (@HandlerExtras.handleCheckOut_after_checkIn utcHost
                  (constClock feb01) (constClock (feb01 + msPerMinute))
                  (constClock (feb01 + msPerMinute)) (pageWith "1001")
                  (pageWith " 1001 ") (pageWith " 1001 ") p
                  registeredStorage Hp Hn Hsame Hsame)).
Defined.

(** A counter overwritten with text gives the id NaN. *)
Lemma generateMemberId_not_a_number_witness :
  parseInt (counter_item corruptStorage) = None
  ∧ (generateMemberIds 3 corruptStorage).1 = ["NaN"; "NaN"; "NaN"].
Proof.
  assert (parseInt (counter_item corruptStorage) = None) as Hnan
    by reflexivity.
  split; [exact Hnan|].
  exact (proj1 (proj2 (proj2
           (EdgeExtras.generateMemberId_not_a_number corruptStorage Hnan)))
           3%nat).
Defined.

(** After the example registration the counter reads 1001 and the one
    member answers to that id. *)
Lemma ui_member_ids_witness :
  @ui_reachable utcHost registeredStorage
  ∧ counter_is (1000 + Z.of_nat (length (getMembers registeredStorage)))
      registeredStorage
  ∧ getMemberById "1001" registeredStorage = Some registeredMember.
Proof.
  split; [exact registeredStorage_reachable|].
  destruct (@UIExtras.ui_member_ids utcHost registeredStorage
              registeredStorage_reachable) as (Hcnt & Hids & _).
  split; [exact Hcnt|].
  exact (proj2 (Hids 0%nat registeredMember eq_refl)).
Defined.

(** The id the example registration gives out was free and finds the new
    member. *)
Lemma registration_id_finds_member_witness :
  (@ui_reachable utcHost (init emptyStorage)
   ∧ trim (new_name exampleForm) ≠ ""
   ∧ trim (new_email exampleForm) ≠ ""
   ∧ trim (new_phone exampleForm) ≠ ""
   ∧ membership_type exampleForm ≠ "")
  ∧ ∃ (member : obj) (id : string),
      (@handleRegistration utcHost exampleForm jan01 jan01
         (init emptyStorage)).1 = Some member
      ∧ member !! "id" = Some (VStr id)
      ∧ getMemberById id (init emptyStorage) = None
      ∧ getMemberById id registeredStorage = Some member.
Proof.
  split; [split; [exact ui_first_use|exact exampleForm_valid]|].
  destruct exampleForm_valid as (Hname & Hemail & Hphone & Htype).
  exact (@UIExtras.registration_id_finds_member utcHost exampleForm jan01
           jan01 (init emptyStorage) ui_first_use Hname Hemail Hphone Htype).
Defined.

Lemma checkedInStorage_record :
  @attendanceRecord utcHost "check-in" "1001" feb01 feb01
  ∈ getAttendance checkedInStorage.
Proof. apply (bool_decide_unpack _). vm_compute. exact I. Qed.

(** The one record of the checked-in storage belongs to a stored member. *)
Lemma ui_attendance_references_witness :
  @ui_reachable utcHost checkedInStorage
  ∧ ∃ (record : obj) (id : string) (member : obj),
      record ∈ getAttendance checkedInStorage
      ∧ record !! "memberId" = Some (VStr id)
      ∧ getMemberById id checkedInStorage = Some member.
Proof.
  split; [exact checkedInStorage_reachable|].
  destruct (@UIExtras.ui_attendance_references utcHost checkedInStorage
              checkedInStorage_reachable _ checkedInStorage_record)
    as (id & member & Hmid & Hget & _).
  exists (@attendanceRecord utcHost "check-in" "1001" feb01 feb01), id, member.
  split; [exact checkedInStorage_record|]. split; [exact Hmid|]. exact Hget.
Defined.

Lemma registeredMember_stored : registeredMember ∈ getMembers registeredStorage.
Proof. apply list_elem_of_lookup. exists 0%nat. reflexivity. Qed.

(** The registered member has a timestamp as end date and days remaining
    that are a number. *)
Lemma ui_members_well_formed_witness :
  (@ui_reachable utcHost registeredStorage
   ∧ registeredMember ∈ getMembers registeredStorage)
  ∧ (∃ t, registeredMember !! "membershipEndDate" = Some (VTime t))
  ∧ ∃ n, @calculateDaysRemaining utcHost (Some registeredMember) feb01
         = Some n ∧ 0 <= n.
Proof.
  split; [split; [exact registeredStorage_reachable
                 |exact registeredMember_stored]|].
  destruct (@UIExtras.ui_members_well_formed utcHost registeredStorage
              registeredStorage_reachable registeredMember
              registeredMember_stored) as (Hend & _ & _ & _ & Hdays).
  split; [exact Hend|]. exact (Hdays feb01).
Defined.

Lemma checkedInStorage_member :
  getMemberById "1001" checkedInStorage
  = Some (<["lastCheckIn" := VTime feb01]>
            (<["lastCheckOut" := VNull]> registeredMember)).
Proof. apply (bool_decide_unpack _). vm_compute. exact I. Qed.

(** Checked in once and not yet out: one check-in record more than
    check-out records. *)
Lemma ui_records_balance_witness :
  @ui_reachable utcHost checkedInStorage
  ∧ ∃ m : obj,
      getMemberById "1001" checkedInStorage = Some m
      ∧ count_records "check-in" "1001" checkedInStorage
        = (count_records "check-out" "1001" checkedInStorage
           + (if decide (@getMemberStatus utcHost (Some m) mar31
                         = "checked-in")
              then 1 else 0))%nat.
Proof.
  split; [exact checkedInStorage_reachable|].
  eexists. split; [exact checkedInStorage_member|].
  exact (@UIExtras.ui_records_balance utcHost checkedInStorage
           checkedInStorage_reachable "1001" _ mar31 checkedInStorage_member).
Defined.

(** The example member registers on 2024-01-01 and checks in with the id
    1001 on 2024-01-15. *)
Lemma registration_then_checkIn_witness :
  (@ui_reachable utcHost (init emptyStorage)
   ∧ (@handleRegistration utcHost exampleForm jan01 jan01
        (init emptyStorage)).1 = Some registeredMember
   ∧ registeredMember !! "id"
     = Some (VStr (trim (member_id (pageWith "1001"))))
   ∧ @Day (@LocalTime utcHost (constClock (jan01 + 14 * msPerDay) 0%nat))
     < Day (@LocalTime utcHost jan01) + 30)
  ∧ ∃ p : Page,
      (@handleCheckIn utcHost (constClock (jan01 + 14 * msPerDay))
         (pageWith "1001") registeredStorage).1 = Some p
      ∧ notification p = Some ("Check-in successful!", "success").
Proof.
  assert ((@handleRegistration utcHost exampleForm jan01 jan01
             (init emptyStorage)).1 = Some registeredMember) as Hreg
    by reflexivity.
  assert (registeredMember !! "id"
          = Some (VStr (trim (member_id (pageWith "1001"))))) as Hid
    by reflexivity.
  assert (@Day (@LocalTime utcHost (constClock (jan01 + 14 * msPerDay) 0%nat))
          < Day (@LocalTime utcHost jan01) + 30) as Hclk by reflexivity.
  split; [split_and!; [exact ui_first_use|exact Hreg|exact Hid|exact Hclk]|].
  destruct exampleForm_valid as (Hname & Hemail & Hphone & Htype).
  destruct (@UIExtras.registration_then_checkIn utcHost exampleForm jan01
              jan01 (constClock (jan01 + 14 * msPerDay)) (pageWith "1001")
              (init emptyStorage) registeredMember ui_first_use
              Hname Hemail Hphone Htype Hreg Hid Hclk) as (p & Hp & Hn & _).
  exists p. split; [exact Hp|exact Hn].
Defined.

Lemma registeredStorage_names :
  ∀ m : obj, m ∈ getMembers registeredStorage →
    ∃ name, m !! "name" = Some (VStr name).
Proof.
  pose proof (ui_invariant_has_strings _
                (@ui_reachable_invariant utcHost _ registeredStorage_reachable))
    as Hstr.
  rewrite Forall_forall in Hstr. intros m Hin. by destruct (Hstr m Hin).
Qed.

(** A search for blanks lists the one registered member. *)
Lemma handleSearch_blank_witness :
  ((∀ m : obj, m ∈ getMembers registeredStorage →
      ∃ name, m !! "name" = Some (VStr name))
   ∧ trim (MembersList.toLowerCase "  ") = "")
  ∧ @MembersList.handleSearch utcHost "  " (constClock feb01) registeredStorage
    = Some (@MembersList.loadMembersList utcHost (constClock feb01)
              registeredStorage).
Proof.
  assert (trim (MembersList.toLowerCase "  ") = "") as Hblank by reflexivity.
  split; [split; [exact registeredStorage_names|exact Hblank]|].
  exact (@SearchExtras.handleSearch_blank utcHost "  " (constClock feb01)
           registeredStorage registeredStorage_names Hblank).
Defined.

(** Typing ASHA finds the member registered as Asha. *)
Lemma ui_search_finds_witness :
  (@ui_reachable utcHost registeredStorage
   ∧ registeredMember ∈ getMembers registeredStorage
   ∧ registeredMember !! "name" = Some (VStr "Asha")
   ∧ registeredMember !! "id" = Some (VStr "1001")
   ∧ (trim (MembersList.toLowerCase " ASHA") = "1001"
      ∨ trim (MembersList.toLowerCase " ASHA")
        = MembersList.toLowerCase "Asha"))
  ∧ ∃ (cards : list MembersList.MemberCard) (card : MembersList.MemberCard),
      @MembersList.handleSearch utcHost " ASHA" (constClock feb01)
        registeredStorage = Some (MembersList.Cards cards)
      ∧ card ∈ cards
      ∧ MembersList.card_id card = Some (VStr "1001")
      ∧ MembersList.card_name card = Some (VStr "Asha").
Proof.
  assert (registeredMember !! "name" = Some (VStr "Asha")) as Hn
    by reflexivity.
  assert (registeredMember !! "id" = Some (VStr "1001")) as Hi by reflexivity.
  assert (trim (MembersList.toLowerCase " ASHA") = "1001"
          ∨ trim (MembersList.toLowerCase " ASHA")
            = MembersList.toLowerCase "Asha") as Hterm
    by (right; reflexivity).
  split; [split_and!; [exact registeredStorage_reachable
                      |exact registeredMember_stored|exact Hn|exact Hi
                      |exact Hterm]|].
  exact (proj2 (@SearchExtras.ui_search_finds utcHost " ASHA"
                  (constClock feb01) registeredStorage registeredMember
                  "Asha" "1001" registeredStorage_reachable
                  registeredMember_stored Hn Hi Hterm)).
Defined.

Lemma registeredStorage_strings :
  Forall has_strings (getMembers registeredStorage)
  ∧ getMembers registeredStorage ≠ [].
Proof.
  split.
  - apply ui_invariant_has_strings.
    apply (@ui_reachable_invariant utcHost), registeredStorage_reachable.
  - intros Hnil. pose proof registeredMember_stored as Hin.
    rewrite Hnil in Hin. by apply elem_of_nil in Hin.
Qed.

(** A search for zz in the registered storage finds nobody. *)
Lemma handleSearch_spec_witness :
  (Forall has_strings (getMembers registeredStorage)
   ∧ getMembers registeredStorage ≠ [])
  ∧ @MembersList.handleSearch utcHost "zz" (constClock feb01) registeredStorage
    = Some (MembersList.NoMembers "No members found matching your search.").
Proof.
  split; [exact registeredStorage_strings|].
  destruct registeredStorage_strings as [Hstr Hne].
  destruct (proj1 (@SearchExtras.handleSearch_spec utcHost "zz"
                     (constClock feb01) registeredStorage) Hstr Hne)
    as (_ & _ & Hrun).
  rewrite Hrun. reflexivity.
Defined.

End ExtraExamples.
